(** * Mesh optimisation for 3D printing: the two pipelines of dream-forge-web

    Embedded sources:
    - [functions-python/main.py]            (module [CloudFn])
    - [functions/scripts/trimesh_optimize.py] (module [Script])

    Python floats are idealised as exact rationals ([Q]).  The trimesh
    library is an interface ([Trimesh]) whose repair routines may mutate
    the mesh and may raise; the affine part of the library (bounds,
    extents, scaling, translation) is written out on the vertex list. *)

From Stdlib Require Import ZArith QArith Qminmax Lqa Lia Bool List.
From stdpp Require Import gmap strings.
Import ListNotations.

Local Open Scope Q_scope.

(** ** Mesh store *)

Record vec3 := mkVec { vx : Q; vy : Q; vz : Q }.

Record Mesh := mkMesh {
  vertices : list vec3;
  faces : list (nat * nat * nat)
}.

Definition vsub (c v : vec3) : vec3 :=
  mkVec (vx v - vx c) (vy v - vy c) (vz v - vz c).

Definition vscale (s : Q) (v : vec3) : vec3 :=
  mkVec (s * vx v) (s * vy v) (s * vz v).

Definition vlower (dz : Q) (v : vec3) : vec3 :=
  mkVec (vx v) (vy v) (vz v - dz).

(** Python's [min] and [max] over a non-empty sequence with head [x]:
    the first extremal element is kept. *)
Fixpoint qmin_list (x : Q) (l : list Q) : Q :=
  match l with
  | [] => x
  | y :: l' => qmin_list (Qmin x y) l'
  end.

Fixpoint qmax_list (x : Q) (l : list Q) : Q :=
  match l with
  | [] => x
  | y :: l' => qmax_list (Qmax x y) l'
  end.

(** Modelled from the spec: [mesh.bounds] of the library, "per-axis
    min/max over all vertices"; the library answers [None] for a mesh
    without vertices. *)
Definition bounds (m : Mesh) : option (vec3 * vec3) :=
  match vertices m with
  | [] => None
  | v :: vs =>
      Some (mkVec (qmin_list (vx v) (map vx vs))
                  (qmin_list (vy v) (map vy vs))
                  (qmin_list (vz v) (map vz vs)),
            mkVec (qmax_list (vx v) (map vx vs))
                  (qmax_list (vy v) (map vy vs))
                  (qmax_list (vz v) (map vz vs)))
  end.

(** Modelled from the spec: [mesh.extents] of the library, "bounds
    max-min per axis"; [None] when there are no bounds. *)
Definition extents (m : Mesh) : option vec3 :=
  match bounds m with
  | None => None
  | Some (lo, hi) => Some (vsub lo hi)
  end.

(** Modelled from the spec: [mesh.apply_scale(factor)] of the library,
    "multiply every vertex coordinate by factor". *)
Definition apply_scale (s : Q) (m : Mesh) : Mesh :=
  mkMesh (map (vscale s) (vertices m)) (faces m).

(** [mesh.vertices -= c] *)
Definition translate (c : vec3) (m : Mesh) : Mesh :=
  mkMesh (map (vsub c) (vertices m)) (faces m).

(** [mesh.vertices[:, 2] -= dz] *)
Definition lower_z (dz : Q) (m : Mesh) : Mesh :=
  mkMesh (map (vlower dz) (vertices m)) (faces m).

Definition max3 (e : vec3) : Q := qmax_list (vx e) [vy e; vz e].
Definition min3 (e : vec3) : Q := qmin_list (vx e) [vy e; vz e].

Definition face_count (m : Mesh) : Z := Z.of_nat (length (faces m)).
Definition vertex_count (m : Mesh) : Z := Z.of_nat (length (vertices m)).

(** ** Outcomes of Python calls *)

(** How a library call or an expression ends: with a value, or with an
    [Exception] whose [str] is [e]. *)
Inductive result (A : Type) : Type :=
| Ok (a : A)
| Raise (e : string).

Arguments Ok {A} a.
Arguments Raise {A} e.

(** How a statement ends.  [NonFinite]: it went on with an IEEE infinity
    or NaN (a float division by a zero numpy scalar warns, it does not
    raise); the rational model stops following the run there. *)
Inductive outcome (A : Type) : Type :=
| Done (a : A)
| Raised (e : string)
| NonFinite.

Arguments Done {A} a.
Arguments Raised {A} e.
Arguments NonFinite {A}.

(** ** The trimesh library, as used by the two sources *)

Class Trimesh := {
  (** [mesh.is_watertight] *)
  is_watertight : Mesh -> bool;
  (** [mesh.volume] *)
  volume : Mesh -> result Q;
  (** [mesh.centroid] *)
  centroid : Mesh -> vec3;
  (** [np.sum(mesh.area_faces < 1e-10)] *)
  degenerate_area_count : Mesh -> Z;
  (** [len(mesh.degenerate_faces)] *)
  degenerate_faces : Mesh -> result Z;
  (** [np.allclose(mesh.face_normals, fixed_copy.face_normals, atol=0.1)]
      where [fixed_copy] is [mesh.copy()] after [fix_normals()] *)
  normals_allclose : Mesh -> result bool;
  (** The in-place repairs: the mesh after the call, and how the call
      ended.  [mesh.remove_degenerate_faces()] *)
  remove_degenerate_faces : Mesh -> Mesh * result unit;
  (** [trimesh.repair.fill_holes(mesh)], which [mesh.fill_holes()] calls *)
  fill_holes : Mesh -> Mesh * result unit;
  (** [trimesh.repair.fix_normals(mesh)], which [mesh.fix_normals()] calls *)
  fix_normals : Mesh -> Mesh * result unit;
  (** [trimesh.repair.fix_inversion(mesh)] *)
  fix_inversion : Mesh -> Mesh * result unit;
  (** [trimesh.repair.fix_winding(mesh)] *)
  fix_winding : Mesh -> Mesh * result unit;
  (** [mesh.export(path, file_type=...)] for a path with the given
      extension, returning what was written *)
  export : Mesh -> string -> option string -> result string
}.

(** ** Formatted text *)

(** An f-string is kept as its pieces: literal text and formatted
    numbers with their format specification. *)
Inductive piece : Type :=
| Str (s : string)
| FmtZ (spec : string) (z : Z)
| FmtQ (spec : string) (q : Q).

Definition text := list piece.

Definition lit (s : string) : text := [Str s].

(** ** Request options (a JSON object) *)

(** A JSON object whose values are numbers or [null]. *)
Abbreviation dict := (gmap string (option Q)).

(** [d.get(k)] *)
Definition dict_get (d : dict) (k : string) : option Q :=
  match d !! k with
  | Some (Some q) => Some q
  | _ => None
  end.

(** [d[k]] used as a number *)
Definition dict_item (d : dict) (k : string) : result Q :=
  match d !! k with
  | Some (Some q) => Ok q
  | Some None => Raise "unsupported operand type(s): 'NoneType' and 'float'"
  | None => Raise ("'" ++ k ++ "'")
  end.

(** truth value of a dict: non-empty *)
Definition dict_truthy (d : dict) : bool := negb (Nat.eqb (size d) 0).

(** [any(v is not None for v in d.values())] *)
Definition any_not_none (d : dict) : bool :=
  existsb (fun kv : string * option Q => match snd kv with Some _ => true | None => false end)
          (map_to_list d).

(** truth value of a number: non-zero *)
Definition num_truthy (q : Q) : bool := negb (Qeq_bool q 0).

(** For each flag: [None] when the key is absent, otherwise the truth
    value of what was sent.  For the other options: [None] when the key
    is absent or [null]. *)
Record Options := mkOptions {
  opt_fill_holes : option bool;
  opt_fix_normals : option bool;
  opt_make_watertight : option bool;
  opt_center_mesh : option bool;
  opt_target_size : option dict;
  opt_uniform_scale : option Q;
  opt_print_bed_size : option dict
}.

(** [options.get(flag, True)] *)
Definition flag (o : option bool) : bool :=
  match o with
  | None => true
  | Some b => b
  end.

(** ** Statements that mutate a state and may raise *)

(** A Python statement over the local state [S]: the state after it
    (mutations survive a raise) and how it ended. *)
Definition stmt (S A : Type) : Type := S -> S * outcome A.

Definition ret {S A} (a : A) : stmt S A := fun s => (s, Done a).

Definition bind {S A B} (c : stmt S A) (k : A -> stmt S B) : stmt S B :=
  fun s =>
    match c s with
    | (s', Done a) => k a s'
    | (s', Raised e) => (s', Raised e)
    | (s', NonFinite) => (s', NonFinite)
    end.

Definition raise {S A} (e : string) : stmt S A := fun s => (s, Raised e).

(** a pure expression that may raise *)
Definition eval {S A} (r : result A) : stmt S A :=
  fun s => (s, match r with Ok a => Done a | Raise e => Raised e end).

(** [try: body  except Exception as e: handler(e)] *)
Definition try_except {S A} (body : stmt S A) (handler : string -> stmt S A) : stmt S A :=
  fun s =>
    match body s with
    | (s', Raised e) => handler e s'
    | other => other
    end.

Definition when {S} (b : bool) (c : stmt S unit) : stmt S unit :=
  if b then c else ret tt.

Declare Scope stmt_scope.
Delimit Scope stmt_scope with stmt.
Notation "'let*' x := c 'in' k" := (bind c (fun x => k))
  (at level 10, x name, c at level 100, k at level 200) : stmt_scope.
Notation "c ;; k" := (bind c (fun _ => k))
  (at level 100, k at level 200, right associativity) : stmt_scope.

(** ** The state of one pipeline run *)

Record Stats := mkStats {
  vertex_count_of : Z;
  face_count_of : Z;
  bounding_box : vec3;          (* width, height, depth *)
  watertight_of : bool;
  volume_of : option Q;
  center_of : vec3
}.

(** The mesh being repaired, the two logs and what has been recorded
    about the run so far. *)
Record Run := mkRun {
  mesh : Mesh;
  original : option Stats;
  optimized : option Stats;
  found_issues : list text;
  found_recommendations : list text;
  operations : list text;
  warnings : list string
}.

Definition start (m : Mesh) : Run := mkRun m None None [] [] [] [].

Definition read {A} (f : Mesh -> A) : stmt Run A :=
  fun s => (s, Done (f (mesh s))).

Definition update (f : Mesh -> Mesh) : stmt Run unit :=
  fun s => (mkRun (f (mesh s)) (original s) (optimized s) (found_issues s)
                  (found_recommendations s) (operations s) (warnings s), Done tt).

(** an expression over the mesh that may raise *)
Definition compute {A} (f : Mesh -> result A) : stmt Run A :=
  fun s => eval (f (mesh s)) s.

(** a library routine that works on the mesh in place *)
Definition call (f : Mesh -> Mesh * result unit) : stmt Run unit :=
  fun s =>
    let (m', r) := f (mesh s) in
    (mkRun m' (original s) (optimized s) (found_issues s)
           (found_recommendations s) (operations s) (warnings s),
     match r with Ok u => Done u | Raise e => Raised e end).

(** [operations.append(t)] *)
Definition append_operation (t : text) : stmt Run unit :=
  fun s => (mkRun (mesh s) (original s) (optimized s) (found_issues s)
                  (found_recommendations s) (operations s ++ [t]) (warnings s), Done tt).

(** [warnings.append(w)] *)
Definition append_warning (w : string) : stmt Run unit :=
  fun s => (mkRun (mesh s) (original s) (optimized s) (found_issues s)
                  (found_recommendations s) (operations s) (warnings s ++ [w]), Done tt).

Definition set_original (st : Stats) : stmt Run unit :=
  fun s => (mkRun (mesh s) (Some st) (optimized s) (found_issues s)
                  (found_recommendations s) (operations s) (warnings s), Done tt).

Definition set_optimized (st : Stats) : stmt Run unit :=
  fun s => (mkRun (mesh s) (original s) (Some st) (found_issues s)
                  (found_recommendations s) (operations s) (warnings s), Done tt).

Definition set_issues (i r : list text) : stmt Run unit :=
  fun s => (mkRun (mesh s) (original s) (optimized s) i r
                  (operations s) (warnings s), Done tt).

(** [mesh.vertices -= mesh.centroid], then [mesh.vertices[:, 2] -=
    mesh.bounds[0][2]]: the body shared by the centring block of
    [main.py] and [center_mesh] of the script. *)
Definition centre_and_ground `{Trimesh} : stmt Run unit :=
  (let* c := read centroid in
   update (translate c) ;;
   let* b := read bounds in
   match b with
   | None => raise "'NoneType' object is not subscriptable"
   | Some (lo, _) => update (lower_z (vz lo))
   end)%stmt.

Definition margin : Q := 95 # 100.

(** ** Analysis reports and responses *)

Record Report := mkReport {
  issues : list text;
  recommendations : list text;
  score : Z
}.

Definition add_issue (i : text) (r : Report) : Report :=
  mkReport (issues r ++ [i]) (recommendations r) (score r).

Definition add_recommendation (t : text) (r : Report) : Report :=
  mkReport (issues r) (recommendations r ++ [t]) (score r).

(** [score -= n] *)
Definition lose (n : Z) (r : Report) : Report :=
  mkReport (issues r) (recommendations r) (score r - n)%Z.

Record Analysis := mkAnalysis {
  stats : Stats;
  analysis_issues : list text;
  analysis_recommendations : list text;
  printability_score : Z;
  hole_count : option Z
}.

Inductive Response (A : Type) : Type :=
| Success (body : A)
| Failure (error : string)
| Unfollowed.

Arguments Success {A} body.
Arguments Failure {A} error.
Arguments Unfollowed {A}.

Record Optimized := mkOptimized {
  file_data : string;
  run : Run;
  output_format : string
}.

(** * functions-python/main.py *)

Module CloudFn.
Section WithLibrary.
Context `{Trimesh}.

Definition get_mesh_stats (mesh : Mesh) : result Stats :=
  match bounds mesh with
  | None => Raise "'NoneType' object is not subscriptable"
  | Some (lo, hi) =>
      let extents := vsub lo hi in
      if is_watertight mesh then
        match volume mesh with
        | Ok v => Ok (mkStats (vertex_count mesh) (face_count mesh) extents
                              true (Some v) (centroid mesh))
        | Raise e => Raise e
        end
      else Ok (mkStats (vertex_count mesh) (face_count mesh) extents
                       false None (centroid mesh))
  end.

(** [# Check watertight] *)
Definition check_watertight (mesh : Mesh) (r : Report) : Report :=
  if negb (is_watertight mesh) then
    lose 2 (add_recommendation (lit "Enable 'Fill Holes' to repair mesh")
           (add_issue (lit "Mesh is not watertight (has holes or gaps)") r))
  else r.

(** [# Check for degenerate faces] *)
Definition check_degenerate (mesh : Mesh) (r : Report) : Report :=
  let degenerate_count := degenerate_area_count mesh in
  if (0 <? degenerate_count)%Z then
    lose 1 (add_recommendation (lit "Consider mesh cleanup to remove degenerate faces")
           (add_issue [Str "Found "; FmtZ "" degenerate_count;
                       Str " degenerate faces (zero area)"] r))
  else r.

(** [# Check face count for printing] *)
Definition check_face_count (mesh : Mesh) (r : Report) : Report :=
  let face_count := face_count mesh in
  if (500000 <? face_count)%Z then
    lose 1 (add_recommendation (lit "Enable simplification to reduce polygon count")
           (add_issue [Str "High polygon count ("; FmtZ "," face_count;
                       Str " faces) may slow printing software"] r))
  else if (face_count <? 100)%Z then
    lose 1 (add_recommendation (lit "Model may appear faceted when printed")
           (add_issue [Str "Very low polygon count ("; FmtZ "" face_count;
                       Str " faces)"] r))
  else r.

(** [# Check for inverted normals (approximate check)]; a [Trimesh]
    always has [face_normals], and a raise inside is passed over. *)
Definition check_normals (mesh : Mesh) (r : Report) : Report :=
  match normals_allclose mesh with
  | Ok false =>
      lose 1 (add_recommendation (lit "Enable 'Fix Normals' to correct orientation")
             (add_issue (lit "Some face normals may be inverted") r))
  | Ok true => r
  | Raise _ => r
  end.

(** [# Check size] *)
Definition check_size (extents : vec3) (r : Report) : Report :=
  let max_dim := max3 extents in
  let min_dim := min3 extents in
  let r1 :=
    if Qlt_le_dec 300 max_dim then
      lose 1 (add_recommendation (lit "Consider scaling down to fit your printer")
             (add_issue [Str "Model is large ("; FmtQ ".1f" max_dim;
                         Str "mm) - may not fit print bed"] r))
    else if Qlt_le_dec max_dim 10 then
      add_recommendation (lit "Consider scaling up for better detail")
        (add_issue [Str "Model is small ("; FmtQ ".1f" max_dim;
                    Str "mm) - fine details may not print"] r)
    else r in
  if Qlt_le_dec min_dim 1 then
    lose 1 (add_recommendation (lit "Very thin features may not print successfully")
           (add_issue [Str "Minimum dimension is very thin ("; FmtQ ".2f" min_dim;
                       Str "mm)"] r1))
  else r1.

(** The report before the final [max(1, score)]. *)
Definition analyze_mesh_issues_raw (mesh : Mesh) : result Report :=
  let r := mkReport [] [] 5 in
  let r := check_watertight mesh r in
  let r := check_degenerate mesh r in
  let r := check_face_count mesh r in
  let r := check_normals mesh r in
  match extents mesh with
  | None => Raise "'NoneType' object is not iterable"
  | Some e => Ok (check_size e r)
  end.

Definition analyze_mesh_issues (mesh : Mesh) : result Report :=
  match analyze_mesh_issues_raw mesh with
  | Ok r => Ok (mkReport (issues r) (recommendations r) (Z.max 1 (score r)))
  | Raise e => Raise e
  end.

(** [trimesh_analyze], from the loaded mesh on. *)
Definition trimesh_analyze (mesh : Mesh) : Response Analysis :=
  match get_mesh_stats mesh with
  | Raise e => Failure e
  | Ok stats =>
      match analyze_mesh_issues mesh with
      | Raise e => Failure e
      | Ok r => Success (mkAnalysis stats (issues r) (recommendations r) (score r) None)
      end
  end.

(** [# Fill holes]: the [try] body, then the guarded block *)
Definition fill_holes_body : stmt Run unit :=
  (call fill_holes ;; append_operation (lit "fill_holes"))%stmt.

Definition fill_holes_block (options : Options) : stmt Run unit :=
  when (flag (opt_fill_holes options))
    (try_except fill_holes_body
       (fun e => append_warning ("Fill holes failed: " ++ e))).

(** [# Fix normals] *)
Definition fix_normals_body : stmt Run unit :=
  (call fix_normals ;; append_operation (lit "fix_normals"))%stmt.

Definition fix_normals_block (options : Options) : stmt Run unit :=
  when (flag (opt_fix_normals options))
    (try_except fix_normals_body
       (fun e => append_warning ("Fix normals failed: " ++ e))).

(** [# Make watertight (more aggressive repair)] *)
Definition make_watertight_body : stmt Run unit :=
  (call fix_winding ;;
   call fill_holes ;;
   let* tight := read is_watertight in
   if tight then append_operation (lit "make_watertight")
   else append_warning "Could not make mesh fully watertight")%stmt.

Definition make_watertight_block (options : Options) : stmt Run unit :=
  (let* tight := read is_watertight in
   when (flag (opt_make_watertight options) && negb tight)
     (try_except make_watertight_body
        (fun e => append_warning ("Watertight repair failed: " ++ e))))%stmt.

(** [# Center mesh] *)
Definition center_block (options : Options) : stmt Run unit :=
  when (flag (opt_center_mesh options))
    (centre_and_ground ;; append_operation (lit "center_mesh"))%stmt.

(** One [if target.get(k) and current_extents[i] > 0:
    scales.append(target[k] / current_extents[i])]: the ratios it adds. *)
Definition target_ratio (target : dict) (k : string) (axis : vec3 -> Q)
    (current_extents : option vec3) : result (list Q) :=
  match dict_get target k with
  | None => Ok []
  | Some t =>
      if num_truthy t then
        match current_extents with
        | None => Raise "'NoneType' object is not subscriptable"
        | Some e => Ok (if Qlt_le_dec 0 (axis e) then [t / axis e] else [])
        end
      else Ok []
  end.

Definition target_scales (target : dict) (current_extents : option vec3) : result (list Q) :=
  match target_ratio target "width" vx current_extents with
  | Raise e => Raise e
  | Ok sw =>
      match target_ratio target "height" vy current_extents with
      | Raise e => Raise e
      | Ok sh =>
          match target_ratio target "depth" vz current_extents with
          | Raise e => Raise e
          | Ok sd => Ok (sw ++ sh ++ sd)
          end
      end
  end.

(** One entry of the [scales] list of the print-bed branch. *)
Definition bed_ratio (bed : dict) (k : string) (axis : vec3 -> Q)
    (current_extents : option vec3) : result Q :=
  match current_extents with
  | None => Raise "'NoneType' object is not subscriptable"
  | Some e =>
      if Qlt_le_dec 0 (axis e) then
        match dict_item bed k with
        | Ok b => Ok ((b * margin) / axis e)
        | Raise x => Raise x
        end
      else Ok 1
  end.

Definition bed_scales (bed : dict) (current_extents : option vec3) : result (Q * list Q) :=
  match bed_ratio bed "width" vx current_extents with
  | Raise e => Raise e
  | Ok sw =>
      match bed_ratio bed "height" vy current_extents with
      | Raise e => Raise e
      | Ok sh =>
          match bed_ratio bed "depth" vz current_extents with
          | Raise e => Raise e
          | Ok sd => Ok (sw, [sh; sd])
          end
      end
  end.

Definition present_dict (o : option dict) : option dict :=
  match o with
  | Some d => if dict_truthy d then Some d else None
  | None => None
  end.

Definition present_number (o : option Q) : option Q :=
  match o with
  | Some q => if num_truthy q then Some q else None
  | None => None
  end.

(** [# Scaling operations] *)
Definition scaling_block (options : Options) : stmt Run unit :=
  match present_dict (opt_target_size options) with
  | Some target =>
      (let* current_extents := read extents in
       let* scales := eval (target_scales target current_extents) in
       match scales with
       | [] => ret tt
       | x :: l =>
           let scale_factor := qmin_list x l in
           update (apply_scale scale_factor) ;;
           append_operation [Str "scale:"; FmtQ ".3f" scale_factor]
       end)%stmt
  | None =>
      match present_number (opt_uniform_scale options) with
      | Some scale_factor =>
          (update (apply_scale scale_factor) ;;
           append_operation [Str "scale:"; FmtQ ".3f" scale_factor])%stmt
      | None =>
          match present_dict (opt_print_bed_size options) with
          | Some bed =>
              (let* current_extents := read extents in
               let* scales := eval (bed_scales bed current_extents) in
               let scale_factor := qmin_list (fst scales) (snd scales) in
               if Qlt_le_dec scale_factor 1 then
                 update (apply_scale scale_factor) ;;
                 append_operation [Str "fit_bed:"; FmtQ ".3f" scale_factor]
               else ret tt)%stmt
          | None => ret tt
          end
      end
  end.

(** The three guarded repairs, in source order. *)
Definition repair_stage (options : Options) : stmt Run unit :=
  (fill_holes_block options ;;
   fix_normals_block options ;;
   make_watertight_block options)%stmt.

(** Centring, then scaling, in source order. *)
Definition transform_stage (options : Options) : stmt Run unit :=
  (center_block options ;;
   scaling_block options)%stmt.

(** [# Get optimized stats], [# Export] *)
Definition finish (output_format : string) : stmt Run string :=
  (let* optimized_stats := compute get_mesh_stats in
   set_optimized optimized_stats ;;
   compute (fun m => export m output_format None))%stmt.

(** The body of [trimesh_optimize], from the loaded mesh to the export. *)
Definition pipeline (options : Options) (output_format : string) : stmt Run string :=
  (let* original_stats := compute get_mesh_stats in
   set_original original_stats ;;
   repair_stage options ;;
   transform_stage options ;;
   finish output_format)%stmt.

Definition trimesh_optimize (options : Options) (output_format : string)
    (mesh : Mesh) : Response Optimized :=
  match pipeline options output_format (start mesh) with
  | (s, Done data) => Success (mkOptimized data s output_format)
  | (_, Raised e) => Failure e
  | (_, NonFinite) => Unfollowed
  end.

End WithLibrary.
End CloudFn.

(** * functions/scripts/trimesh_optimize.py *)

Module Script.
Section WithLibrary.
Context `{Trimesh}.

Definition get_mesh_stats (mesh : Mesh) : result Stats :=
  match bounds mesh with
  | None => Raise "'NoneType' object is not subscriptable"
  | Some (lo, hi) =>
      let size := vsub lo hi in
      let is_watertight := is_watertight mesh in
      let volume :=
        if is_watertight then
          match volume mesh with
          | Ok v => Some v
          | Raise _ => None
          end
        else None in
      Ok (mkStats (vertex_count mesh) (face_count mesh) size
                  is_watertight volume (centroid mesh))
  end.

Definition analyze_mesh_issues (mesh : Mesh) : list text * list text :=
  let r := mkReport [] [] 0 in
  let r :=
    if negb (is_watertight mesh) then
      add_recommendation (lit "enable_fill_holes") (add_issue (lit "mesh_not_watertight") r)
    else r in
  let r :=
    match degenerate_faces mesh with
    | Ok n =>
        if (0 <? n)%Z then
          add_recommendation (lit "clean_mesh")
            (add_issue [Str "degenerate_faces:"; FmtZ "" n] r)
        else r
    | Raise _ => r
    end in
  let r :=
    if (500000 <? face_count mesh)%Z then
      add_recommendation (lit "simplify_mesh") (add_issue (lit "high_polygon_count") r)
    else r in
  (issues r, recommendations r).

(** Float division [a / b] by a numpy scalar. *)
Definition divide (a b : Q) : stmt Run Q :=
  fun s => (s, if Qeq_bool b 0 then NonFinite else Done (a / b)).

(** One [if target.get(k) is not None: scales.append(target[k] /
    current_size[i])]: the ratios it adds. *)
Definition size_ratio (target : dict) (k : string) (extent : Q) : stmt Run (list Q) :=
  match dict_get target k with
  | None => ret []
  | Some t => (let* q := divide t extent in ret [q])%stmt
  end.

Definition apply_target_size (target : dict) : stmt Run Q :=
  (let* bounds := read bounds in
   match bounds with
   | None => raise "'NoneType' object is not subscriptable"
   | Some (lo, hi) =>
       let current_size := vsub lo hi in
       let* sw := size_ratio target "width" (vx current_size) in
       let* sh := size_ratio target "height" (vy current_size) in
       let* sd := size_ratio target "depth" (vz current_size) in
       match sw ++ sh ++ sd with
       | [] => ret 1
       | x :: l =>
           let scale := qmin_list x l in
           update (apply_scale scale) ;;
           ret scale
       end
   end)%stmt.

Definition fit_to_print_bed (bed_size : dict) : stmt Run Q :=
  (let* bounds := read bounds in
   match bounds with
   | None => raise "'NoneType' object is not subscriptable"
   | Some (lo, hi) =>
       let current_size := vsub lo hi in
       let* bw := eval (dict_item bed_size "width") in
       let* rw := divide bw (vx current_size) in
       let* bh := eval (dict_item bed_size "height") in
       let* rh := divide bh (vy current_size) in
       let* bd := eval (dict_item bed_size "depth") in
       let* rd := divide bd (vz current_size) in
       let scale := qmin_list rw [rh; rd] * margin in
       update (apply_scale scale) ;;
       ret scale
   end)%stmt.

Definition center_mesh : stmt Run unit := centre_and_ground.

(** [# Remove degenerate faces first]: the [try] body, then the block *)
Definition remove_degenerate_body : stmt Run unit :=
  (call remove_degenerate_faces ;;
   append_operation (lit "remove_degenerate_faces"))%stmt.

Definition remove_degenerate_block : stmt Run unit :=
  try_except remove_degenerate_body
    (fun e => append_warning ("remove_degenerate_faces failed: " ++ e)).

(** [# Fill holes] *)
Definition fill_holes_body : stmt Run unit :=
  (call fill_holes ;; append_operation (lit "fill_holes"))%stmt.

Definition fill_holes_block (options : Options) : stmt Run unit :=
  when (flag (opt_fill_holes options))
    (try_except fill_holes_body
       (fun e => append_warning ("fill_holes failed: " ++ e))).

(** [# Fix normals (make all normals consistent)] *)
Definition fix_normals_body : stmt Run unit :=
  (call fix_normals ;; append_operation (lit "fix_normals"))%stmt.

Definition fix_normals_block (options : Options) : stmt Run unit :=
  when (flag (opt_fix_normals options))
    (try_except fix_normals_body
       (fun e => append_warning ("fix_normals failed: " ++ e))).

(** [# Make watertight (more aggressive repair)] *)
Definition watertight_body : stmt Run unit :=
  (call fix_inversion ;;
   call fix_normals ;;
   call fix_winding ;;
   append_operation (lit "watertight_repair"))%stmt.

Definition watertight_block (options : Options) : stmt Run unit :=
  when (flag (opt_make_watertight options))
    (try_except watertight_body
       (fun e => append_warning ("watertight_repair failed: " ++ e))).

(** [target_size and any(v is not None for v in target_size.values())] *)
Definition target_requested (o : option dict) : option dict :=
  match o with
  | Some d => if dict_truthy d && any_not_none d then Some d else None
  | None => None
  end.

Definition bed_requested (o : option dict) : option dict :=
  match o with
  | Some d => if dict_truthy d then Some d else None
  | None => None
  end.

(** [# Apply scaling] *)
Definition scaling_block (options : Options) : stmt Run unit :=
  match target_requested (opt_target_size options) with
  | Some target_size =>
      (let* scale := apply_target_size target_size in
       append_operation [Str "scale_to_target:"; FmtQ ".4f" scale])%stmt
  | None =>
      match opt_uniform_scale options with
      | Some uniform_scale =>
          (update (apply_scale uniform_scale) ;;
           append_operation [Str "uniform_scale:"; FmtQ "" uniform_scale])%stmt
      | None =>
          match bed_requested (opt_print_bed_size options) with
          | Some print_bed =>
              (let* scale := fit_to_print_bed print_bed in
               append_operation [Str "fit_to_bed:"; FmtQ ".4f" scale])%stmt
          | None => ret tt
          end
      end
  end.

(** [# Center and place on ground] *)
Definition center_block (options : Options) : stmt Run unit :=
  when (flag (opt_center_mesh options))
    (center_mesh ;; append_operation (lit "center_and_ground"))%stmt.

(** [# Export], by the extension of the output path *)
Definition export_block (output_ext : string) : stmt Run string :=
  if String.eqb output_ext "stl" then
    compute (fun m => export m output_ext (Some "stl"%string))
  else if String.eqb output_ext "glb" || String.eqb output_ext "gltf" then
    compute (fun m => export m output_ext (Some "glb"%string))
  else compute (fun m => export m output_ext None).

(** The four guarded repairs, in source order. *)
Definition repair_stage (options : Options) : stmt Run unit :=
  (remove_degenerate_block ;;
   fill_holes_block options ;;
   fix_normals_block options ;;
   watertight_block options)%stmt.

(** Scaling, then centring, in source order. *)
Definition transform_stage (options : Options) : stmt Run unit :=
  (scaling_block options ;;
   center_block options)%stmt.

(** [# Get optimized stats], [# Export] *)
Definition finish (output_ext : string) : stmt Run string :=
  (let* optimized := compute get_mesh_stats in
   set_optimized optimized ;;
   export_block output_ext)%stmt.

(** The [try] body of [optimize_mesh], from the loaded mesh on. *)
Definition pipeline (options : Options) (output_ext : string) : stmt Run string :=
  (let* original := compute get_mesh_stats in
   set_original original ;;
   let* found := read analyze_mesh_issues in
   set_issues (fst found) (snd found) ;;
   repair_stage options ;;
   transform_stage options ;;
   finish output_ext)%stmt.

(** The [result] dict: what was recorded survives a failure. *)
Record Result := mkResult {
  success : bool;
  recorded : Run;
  error : option string;
  written_format : option string
}.

(** [None]: a run the rational model does not follow to its end. *)
Definition optimize_mesh (options : Options) (output_ext : string)
    (mesh : Mesh) : option Result :=
  match pipeline options output_ext (start mesh) with
  | (s, Done _) => Some (mkResult true s None (Some output_ext))
  | (s, Raised e) => Some (mkResult false s (Some e) None)
  | (_, NonFinite) => None
  end.

(** [# Calculate printability score (1-5)], before [max(1, score)] *)
Definition printability (mesh : Mesh) : Z :=
  let score := 5%Z in
  let score := if negb (is_watertight mesh) then (score - 2)%Z else score in
  let score := if (500000 <? face_count mesh)%Z then (score - 1)%Z else score in
  let score := if (1000000 <? face_count mesh)%Z then (score - 1)%Z else score in
  score.

(** [analyze_only], from the loaded mesh on.  A [Trimesh] has no
    attribute [outline_for_loop], so the hole count is 0. *)
Definition analyze_only (mesh : Mesh) : Response Analysis :=
  match get_mesh_stats mesh with
  | Raise e => Failure e
  | Ok stats =>
      let found := analyze_mesh_issues mesh in
      let score := printability mesh in
      Success (mkAnalysis stats (fst found) (snd found) (Z.max 1 score) (Some 0%Z))
  end.

End WithLibrary.
End Script.

(** * Getting a mesh in: what the entry points do before the pipelines *)

(** What [trimesh.load] hands back: a mesh, or a scene.  For a scene,
    [dumped] is the list [scene.dump()] returns and [geometry] the
    [Trimesh] values among [scene.geometry.values()]. *)
Inductive Loaded : Type :=
| IsMesh (m : Mesh)
| IsScene (dumped : list Mesh) (geometry : list Mesh).

(** The file and decoding calls around the pipelines. *)
Class Transport := {
  (** [base64.b64decode(text)] *)
  b64decode : string -> result string;
  (** [urllib.request.urlretrieve(url, input_path)]: what lands in the file *)
  urlretrieve : string -> result string;
  (** [trimesh.load(input_path, force="mesh")], by the path or the
      content of the file *)
  load : string -> result Loaded;
  (** [trimesh.util.concatenate(meshes)] *)
  concatenate : list Mesh -> result Mesh;
  (** [json.loads(text)] read as an options object *)
  loads : string -> result Options
}.

(** [options = {}] *)
Definition no_options : Options := mkOptions None None None None None None None.

(** ** The two HTTP handlers of [main.py] *)

Module Endpoint.

(** The JSON body of a request: the keys the handlers read, and
    whether the object has any other key.  [options], when sent, is an
    object; [file_data], [file_url] and [output_format], when sent, are
    strings. *)
Record Body := mkBody {
  file_data : option string;
  file_url : option string;
  options : option Options;
  output_format : option string;
  other_keys : bool
}.

(** truth value of [data]: [None] and the empty object are false *)
Definition truthy (data : option Body) : bool :=
  match data with
  | None => false
  | Some b =>
      match file_data b, file_url b, options b, output_format b with
      | None, None, None, None => other_keys b
      | _, _, _, _ => true
      end
  end.

(** A reply: status 200 with a body that has [success: true], or an
    error status with [success: false] and a message.  [Lost]: a run the
    rational model does not follow. *)
Inductive Reply (A : Type) : Type :=
| Answer (body : A)
| Refuse (status : Z) (error : string)
| Lost.

Arguments Answer {A} body.
Arguments Refuse {A} status error.
Arguments Lost {A}.

Definition reply {A} (r : Response A) : Reply A :=
  match r with
  | Success a => Answer a
  | Failure e => Refuse 500 e
  | Unfollowed => Lost
  end.

Section WithLibrary.
Context `{Trimesh} `{Transport}.

(** [# Load mesh], with the scene case, then the rest of the handler
    [k] on the mesh *)
Definition with_mesh {A} (content : string) (k : Mesh -> Reply A) : Reply A :=
  match load content with
  | Raise e => Refuse 500 e
  | Ok (IsMesh m) => k m
  | Ok (IsScene dumped _) =>
      match dumped with
      | [] => Refuse 400 "No mesh geometry found"
      | _ :: _ =>
          match concatenate dumped with
          | Raise e => Refuse 500 e
          | Ok m => k m
          end
      end
  end.

Definition trimesh_analyze (req : result (option Body)) : Reply Analysis :=
  match req with
  | Raise e => Refuse 500 e
  | Ok data =>
      if negb (truthy data) then Refuse 400 "No JSON data provided"
      else
        match data with
        | None => Refuse 400 "No JSON data provided"
        | Some body =>
            match file_data body with
            | Some text =>
                match b64decode text with
                | Raise e => Refuse 500 e
                | Ok content => with_mesh content (fun m => reply (CloudFn.trimesh_analyze m))
                end
            | None =>
                match file_url body with
                | Some url =>
                    match urlretrieve url with
                    | Raise e => Refuse 500 e
                    | Ok content =>
                        with_mesh content (fun m => reply (CloudFn.trimesh_analyze m))
                    end
                | None => Refuse 400 "No file_data or file_url provided"
                end
            end
        end
  end.

Definition trimesh_optimize (req : result (option Body)) : Reply Optimized :=
  match req with
  | Raise e => Refuse 500 e
  | Ok data =>
      if negb (truthy data) then Refuse 400 "No JSON data provided"
      else
        match data with
        | None => Refuse 400 "No JSON data provided"
        | Some body =>
            match file_data body with
            | None => Refuse 400 "No file_data provided"
            | Some text =>
                let options :=
                  match options body with Some o => o | None => no_options end in
                let output_format :=
                  match output_format body with Some f => f | None => "glb"%string end in
                match b64decode text with
                | Raise e => Refuse 500 e
                | Ok content =>
                    with_mesh content
                      (fun m => reply (CloudFn.trimesh_optimize options output_format m))
                end
            end
        end
  end.

End WithLibrary.
End Endpoint.

(** ** The command line of [trimesh_optimize.py] *)

Module Cli.

(** [c.lower()] for an ASCII character *)
Definition lower_ascii (c : Ascii.ascii) : Ascii.ascii :=
  let n := Ascii.nat_of_ascii c in
  if (65 <=? n)%nat && (n <=? 90)%nat then Ascii.ascii_of_nat (n + 32) else c.

(** [s.lower()] for an ASCII string *)
Fixpoint lower (s : string) : string :=
  match s with
  | EmptyString => EmptyString
  | String c s' => String (lower_ascii c) (lower s')
  end.

(** the character "." *)
Definition dot : Ascii.ascii := Ascii.ascii_of_nat 46.

(** [s.split(".")[-1]], with [acc] the text read since the last dot *)
Fixpoint last_segment (acc s : string) : string :=
  match s with
  | EmptyString => acc
  | String c s' =>
      if Ascii.eqb c dot then last_segment EmptyString s'
      else last_segment (acc ++ String c EmptyString) s'
  end.

(** [output_ext = output_path.lower().split(".")[-1]] *)
Definition output_ext (output_path : string) : string :=
  last_segment EmptyString (lower output_path).

(** What the script leaves in [result] when the run is followed to its
    end: the load failed before there was a mesh, or the pipeline ran. *)
Inductive Outcome : Type :=
| NotLoaded (error : string)
| Ran (r : Script.Result).

Definition succeeded (o : Outcome) : bool :=
  match o with
  | NotLoaded _ => false
  | Ran r => Script.success r
  end.

(** what the process prints before it exits *)
Inductive Printed : Type :=
| Usage
| AnalysisPrinted (r : Response Analysis)
| ResultPrinted (o : Outcome)
| Traceback (e : string).

Section WithLibrary.
Context `{Trimesh} `{Transport}.

(** [# Load mesh] and [# Handle scenes (multi-mesh GLB)], the first
    lines of the [try] of [optimize_mesh] and of [analyze_only] *)
Definition load_mesh (input_path : string) : result Mesh :=
  match load input_path with
  | Raise e => Raise e
  | Ok (IsMesh m) => Ok m
  | Ok (IsScene _ geometry) =>
      match geometry with
      | [] => Raise "No valid meshes found in scene"
      | _ :: _ => concatenate geometry
      end
  end.

(** [optimize_mesh(input_path, output_path, options)]; [None] for a
    run the rational model does not follow *)
Definition optimize_mesh (input_path output_path : string) (options : Options)
    : option Outcome :=
  match load_mesh input_path with
  | Raise e => Some (NotLoaded e)
  | Ok m =>
      match Script.optimize_mesh options (output_ext output_path) m with
      | Some r => Some (Ran r)
      | None => None
      end
  end.

(** [analyze_only(input_path)] *)
Definition analyze_only (input_path : string) : Response Analysis :=
  match load_mesh input_path with
  | Raise e => Failure e
  | Ok m => Script.analyze_only m
  end.

(** [if __name__ == "__main__":] what is printed and the exit status,
    for [sys.argv = argv] *)
Definition main (argv : list string) : option (Printed * Z) :=
  match argv with
  | [] | [_] => Some (Usage, 1%Z)
  | [_; input_path] =>
      let r := analyze_only input_path in
      Some (AnalysisPrinted r, match r with Success _ => 0%Z | _ => 1%Z end)
  | _ :: input_path :: output_path :: rest =>
      let parsed :=
        match rest with
        | [] => Ok no_options
        | text :: _ => loads text
        end in
      match parsed with
      | Raise e => Some (Traceback e, 1%Z)
      | Ok options =>
          match optimize_mesh input_path output_path options with
          | Some o => Some (ResultPrinted o, if succeeded o then 0%Z else 1%Z)
          | None => None
          end
      end
  end.

End WithLibrary.
End Cli.

(** * Concrete libraries and meshes for the examples *)

Module Demo.

Definition vadd (a b : vec3) : vec3 :=
  mkVec (vx a + vx b) (vy a + vy b) (vz a + vz b).

(** mean vertex position; the origin for a mesh without vertices *)
Definition mean (m : Mesh) : vec3 :=
  match vertices m with
  | [] => mkVec 0 0 0
  | vs => vscale (1 / inject_Z (Z.of_nat (length vs)))
                 (fold_right vadd (mkVec 0 0 0) vs)
  end.

Definition quiet (m : Mesh) : Mesh * result unit := (m, Ok tt).

Definition broken (m : Mesh) : Mesh * result unit := (m, Raise "boom").

(** A library that sees every mesh as [tight] and whose repairs change
    nothing; with [fails] they all raise instead. *)
Definition library (tight fails : bool) : Trimesh := {|
  is_watertight := fun _ => tight;
  volume := fun _ => Ok 1;
  centroid := mean;
  degenerate_area_count := fun _ => 0%Z;
  degenerate_faces := fun _ => Raise "'Trimesh' object has no attribute 'degenerate_faces'";
  normals_allclose := fun _ => Ok true;
  remove_degenerate_faces := if fails then broken else quiet;
  fill_holes := if fails then broken else quiet;
  fix_normals := if fails then broken else quiet;
  fix_inversion := if fails then broken else quiet;
  fix_winding := if fails then broken else quiet;
  export := fun _ _ _ => Ok "payload"
|}.

(** A library for the worst report: open mesh, degenerate faces,
    inverted normals. *)
Definition poor : Trimesh := {|
  is_watertight := fun _ => false;
  volume := fun _ => Ok 1;
  centroid := mean;
  degenerate_area_count := fun _ => 3%Z;
  degenerate_faces := fun _ => Ok 3%Z;
  normals_allclose := fun _ => Ok false;
  remove_degenerate_faces := quiet;
  fill_holes := quiet;
  fix_normals := quiet;
  fix_inversion := quiet;
  fix_winding := quiet;
  export := fun _ _ _ => Ok "payload"
|}.

(** the eight corners of the box [0,a] x [0,b] x [0,c] *)
Definition corners (a b c : Q) : list vec3 :=
  [ mkVec 0 0 0; mkVec a 0 0; mkVec a b 0; mkVec 0 b 0;
    mkVec 0 0 c; mkVec a 0 c; mkVec a b c; mkVec 0 b c ].

Definition box_faces : list (nat * nat * nat) :=
  [ (0, 2, 1); (0, 3, 2); (4, 5, 6); (4, 6, 7); (0, 1, 5); (0, 5, 4);
    (1, 2, 6); (1, 6, 5); (2, 3, 7); (2, 7, 6); (3, 0, 4); (3, 4, 7) ]%nat.

(** a box with [n] copies of its first face in place of the twelve *)
Definition box_with_faces (a b c : Q) (n : nat) : Mesh :=
  mkMesh (corners a b c) (repeat (0, 2, 1)%nat n).

Definition box (a b c : Q) : Mesh := mkMesh (corners a b c) box_faces.

Definition cube10 : Mesh := box 10 10 10.

(** a flat sheet: no extent along x *)
Definition sheet : Mesh :=
  mkMesh [mkVec 0 0 0; mkVec 0 10 0; mkVec 0 10 10; mkVec 0 0 10]
         [(0, 1, 2); (0, 2, 3)]%nat.

Definition all_defaults : Options := mkOptions None None None None None None None.

Definition size3 (w h d : option Q) : dict :=
  <["width" := w]> (<["height" := h]> (<["depth" := d]> ∅)).

End Demo.

(** ** Sample transport for the examples *)

Module Sample.

(** Files are named by their content: "cube" holds the 10 mm cube,
    "empty-scene" a scene without geometry; anything else does not
    load.  No URL can be fetched. *)
Definition transport : Transport := {|
  b64decode := fun text => Ok text;
  urlretrieve := fun _ => Raise "URL not reachable";
  load := fun content =>
    if String.eqb content "cube" then Ok (IsMesh Demo.cube10)
    else if String.eqb content "empty-scene" then Ok (IsScene [] [])
    else Raise "file type not supported";
  concatenate := fun meshes =>
    match meshes with
    | [] => Raise "need at least one mesh"
    | m :: _ => Ok m
    end;
  loads := fun _ => Ok no_options
|}.

Definition body_with (data url : option string) : Endpoint.Body :=
  Endpoint.mkBody data url None None false.

End Sample.

(** * Predicates used in the statements *)

(** A statement that ends by returning or by raising, on every state. *)
Definition settles {A} (c : stmt Run A) : Prop :=
  forall s, exists s', (exists a, c s = (s', Done a)) \/ (exists e, c s = (s', Raised e)).

(** A statement that returns on every state. *)
Definition returns (c : stmt Run unit) : Prop :=
  forall s, exists s', c s = (s', Done tt).

(** The state [s] with the warning [w] appended. *)
Definition warned (w : string) (s : Run) : Run := fst (append_warning w s).

(** The state [s] with the operation [t] appended to the log. *)
Definition logged (t : text) (s : Run) : Run := fst (append_operation t s).

(** The state [s] with its mesh scaled by [f]. *)
Definition scaled (f : Q) (s : Run) : Run := fst (update (apply_scale f) s).

(** The log entries written by the scaling branches: a tag and a number. *)
Definition scale_entry (t : text) : Prop :=
  exists tag spec f, t = [Str tag; FmtQ spec f].

(** The three axes a size object names, with the extent each one is
    compared to. *)
Definition axes : list (string * (vec3 -> Q)) :=
  [("width"%string, vx); ("height"%string, vy); ("depth"%string, vz)].

(** The [scales] list of the target-size code when no division goes
    wrong: one ratio per axis that has a target. *)
Definition requested_ratios (target : dict) (e : vec3) : list Q :=
  flat_map (fun ka : string * (vec3 -> Q) =>
              match dict_get target (fst ka) with
              | Some t => [t / snd ka e]
              | None => []
              end) axes.

(** Two points with equal coordinates. *)
Definition veq (v w : vec3) : Prop :=
  vx v == vx w /\ vy v == vy w /\ vz v == vz w.

(** Two meshes with the same faces and, vertex by vertex, equal
    coordinates. *)
Definition same_shape (m1 m2 : Mesh) : Prop :=
  Forall2 veq (vertices m1) (vertices m2) /\ faces m1 = faces m2.

(** How many records a run holds: log entries plus warnings. *)
Definition records (s : Run) : nat :=
  (length (operations s) + length (warnings s))%nat.

(** [s'] holds what [s] held: both logs of [s] are the beginning of
    those of [s'], and the statistics and issues recorded at the start
    are the same. *)
Definition extends (s s' : Run) : Prop :=
  operations s `prefix_of` operations s' /\
  warnings s `prefix_of` warnings s' /\
  original s' = original s /\
  found_issues s' = found_issues s /\
  found_recommendations s' = found_recommendations s.

(** A statement that only adds to what the run holds, however it ends. *)
Definition append_only {A} (c : stmt Run A) : Prop :=
  forall s, extends s (fst (c s)).

(** A [try] body that leaves one log entry or warning when it returns,
    none when it raises, and always does one of the two. *)
Definition single_record (body : stmt Run unit) : Prop :=
  forall s s1 o, body s = (s1, o) ->
    match o with
    | Done _ => records s1 = S (records s)
    | Raised _ => records s1 = records s
    | NonFinite => False
    end.

(** Whether what the process printed has [success: true]. *)
Definition printed_success (p : Cli.Printed) : bool :=
  match p with
  | Cli.Usage => false
  | Cli.AnalysisPrinted (Success _) => true
  | Cli.AnalysisPrinted _ => false
  | Cli.ResultPrinted o => Cli.succeeded o
  | Cli.Traceback _ => false
  end.

(** Whether a string holds a "." *)
Fixpoint has_dot (s : string) : bool :=
  match s with
  | EmptyString => false
  | String c s' => Ascii.eqb c Cli.dot || has_dot s'
  end.

(** * Facts about the mesh store *)

Lemma qmin_list_compat (l : list Q) (x x' : Q) :
  x == x' -> qmin_list x l == qmin_list x' l.
Proof.
  revert x x'. induction l as [|y l IH]; intros x x' Hx; simpl; [exact Hx|].
  apply IH. now rewrite Hx.
Qed.

Lemma qmax_list_compat (l : list Q) (x x' : Q) :
  x == x' -> qmax_list x l == qmax_list x' l.
Proof.
  revert x x'. induction l as [|y l IH]; intros x x' Hx; simpl; [exact Hx|].
  apply IH. now rewrite Hx.
Qed.

Lemma Qmin_scale (s a b : Q) : 0 <= s -> Qmin (s * a) (s * b) == s * Qmin a b.
Proof.
  intros Hs.
  destruct (Q.min_spec a b) as [[Hab E]|[Hab E]]; rewrite E.
  - apply Q.min_l. nra.
  - apply Q.min_r. nra.
Qed.

Lemma Qmax_scale (s a b : Q) : 0 <= s -> Qmax (s * a) (s * b) == s * Qmax a b.
Proof.
  intros Hs.
  destruct (Q.max_spec a b) as [[Hab E]|[Hab E]]; rewrite E.
  - apply Q.max_r. nra.
  - apply Q.max_l. nra.
Qed.

Lemma qmin_list_scale (s : Q) (l : list Q) (x : Q) :
  0 <= s -> qmin_list (s * x) (map (Qmult s) l) == s * qmin_list x l.
Proof.
  intros Hs. revert x. induction l as [|y l IH]; intros x; simpl; [reflexivity|].
  rewrite <- IH. apply qmin_list_compat. now apply Qmin_scale.
Qed.

Lemma qmax_list_scale (s : Q) (l : list Q) (x : Q) :
  0 <= s -> qmax_list (s * x) (map (Qmult s) l) == s * qmax_list x l.
Proof.
  intros Hs. revert x. induction l as [|y l IH]; intros x; simpl; [reflexivity|].
  rewrite <- IH. apply qmax_list_compat. now apply Qmax_scale.
Qed.

(** The minimum is below every element and is one of them. *)
Lemma qmin_list_le (l : list Q) (x y : Q) :
  In y (x :: l) -> qmin_list x l <= y.
Proof.
  revert x y. induction l as [|z l IH]; intros x y Hy; simpl in *.
  - destruct Hy as [<-|[]]. lra.
  - destruct Hy as [<-|[<-|Hy]].
    + eapply Qle_trans; [apply (IH _ (Qmin x z)); now left | apply Q.le_min_l].
    + eapply Qle_trans; [apply (IH _ (Qmin x z)); now left | apply Q.le_min_r].
    + apply IH. now right.
Qed.

Lemma qmin_list_attained (l : list Q) (x : Q) :
  exists y, In y (x :: l) /\ qmin_list x l == y.
Proof.
  revert x. induction l as [|z l IH]; intros x; simpl.
  - exists x. split; [now left | reflexivity].
  - destruct (IH (Qmin x z)) as [y [[<-|Hy] E]].
    + destruct (Q.min_dec x z) as [E'|E'].
      * exists x. split; [now left | now rewrite E, E'].
      * exists z. split; [right; now left | now rewrite E, E'].
    + exists y. split; [right; now right | exact E].
Qed.

Lemma qmax_list_ge (l : list Q) (x y : Q) :
  In y (x :: l) -> y <= qmax_list x l.
Proof.
  revert x y. induction l as [|z l IH]; intros x y Hy; simpl in *.
  - destruct Hy as [<-|[]]. lra.
  - destruct Hy as [<-|[<-|Hy]].
    + eapply Qle_trans; [apply Q.le_max_l | apply (IH _ (Qmax x z)); now left].
    + eapply Qle_trans; [apply Q.le_max_r | apply (IH _ (Qmax x z)); now left].
    + apply IH. now right.
Qed.

Lemma qmin_le_qmax (l : list Q) (x : Q) : qmin_list x l <= qmax_list x l.
Proof.
  eapply Qle_trans; [apply (qmin_list_le l x x) | apply (qmax_list_ge l x x)]; now left.
Qed.

(** Every extent is non-negative. *)
Lemma extents_nonneg (m : Mesh) (e : vec3) :
  extents m = Some e -> 0 <= vx e /\ 0 <= vy e /\ 0 <= vz e.
Proof.
  unfold extents, bounds. destruct (vertices m) as [|v vs]; [discriminate|].
  intros [= <-]. simpl.
  pose proof (qmin_le_qmax (map vx vs) (vx v)).
  pose proof (qmin_le_qmax (map vy vs) (vy v)).
  pose proof (qmin_le_qmax (map vz vs) (vz v)).
  repeat split; lra.
Qed.

Lemma map_axis_vscale (s : Q) (vs : list vec3) :
  map vx (map (vscale s) vs) = map (Qmult s) (map vx vs) /\
  map vy (map (vscale s) vs) = map (Qmult s) (map vy vs) /\
  map vz (map (vscale s) vs) = map (Qmult s) (map vz vs).
Proof.
  induction vs as [|v vs (IHx & IHy & IHz)]; simpl; [auto|].
  rewrite IHx, IHy, IHz. auto.
Qed.

(** Scaling by a non-negative factor scales every extent by it. *)
Lemma extents_apply_scale (s : Q) (m : Mesh) (e : vec3) :
  0 <= s -> extents m = Some e ->
  exists e', extents (apply_scale s m) = Some e' /\
             vx e' == s * vx e /\ vy e' == s * vy e /\ vz e' == s * vz e.
Proof.
  intros Hs. unfold extents, bounds, apply_scale.
  cbn [vertices faces].
  destruct (vertices m) as [|v vs]; [discriminate|].
  intros [= <-]. cbn [map]. eexists. split; [reflexivity|].
  destruct (map_axis_vscale s vs) as (-> & -> & ->).
  cbn [vsub vscale vx vy vz].
  rewrite !qmin_list_scale, !qmax_list_scale by exact Hs.
  repeat split; ring.
Qed.

Lemma extents_apply_scale_none (s : Q) (m : Mesh) :
  extents m = None -> extents (apply_scale s m) = None.
Proof.
  unfold extents, bounds, apply_scale. simpl.
  destruct (vertices m); [reflexivity | discriminate].
Qed.


(** * Facts about the reports *)

Lemma add_issue_not_nil (i : text) (r : Report) : issues (add_issue i r) <> [].
Proof. unfold add_issue. simpl. intros E. now apply app_eq_nil in E as [_ E]. Qed.

Lemma issues_lose (n : Z) (r : Report) : issues (lose n r) = issues r.
Proof. reflexivity. Qed.

Lemma issues_add_recommendation (t : text) (r : Report) :
  issues (add_recommendation t r) = issues r.
Proof. reflexivity. Qed.

Lemma score_flagged (n : Z) (t i : text) (r : Report) :
  score (lose n (add_recommendation t (add_issue i r))) = (score r - n)%Z.
Proof. reflexivity. Qed.

Lemma issues_flagged (n : Z) (t i : text) (r : Report) :
  issues (lose n (add_recommendation t (add_issue i r))) <> [].
Proof. rewrite issues_lose, issues_add_recommendation. apply add_issue_not_nil. Qed.

Section ReportFacts.
Context `{Trimesh}.

(** What each block of [analyze_mesh_issues] in [main.py] does to the
    running score. *)
Lemma check_watertight_score (m : Mesh) (r : Report) :
  score (CloudFn.check_watertight m r)
  = (score r - (if is_watertight m then 0 else 2))%Z.
Proof.
  unfold CloudFn.check_watertight. destruct (is_watertight m); simpl; lia.
Qed.

Lemma check_degenerate_score (m : Mesh) (r : Report) :
  score (CloudFn.check_degenerate m r)
  = (score r - (if (0 <? degenerate_area_count m)%Z then 1 else 0))%Z.
Proof.
  unfold CloudFn.check_degenerate.
  destruct (0 <? degenerate_area_count m)%Z; simpl; lia.
Qed.

Lemma check_face_count_score (m : Mesh) (r : Report) :
  score (CloudFn.check_face_count m r)
  = (score r - (if (500000 <? face_count m)%Z || (face_count m <? 100)%Z
                then 1 else 0))%Z.
Proof.
  unfold CloudFn.check_face_count.
  destruct (500000 <? face_count m)%Z; [simpl; lia|].
  destruct (face_count m <? 100)%Z; simpl; lia.
Qed.

Lemma check_normals_score (m : Mesh) (r : Report) :
  score (CloudFn.check_normals m r)
  = (score r - (match normals_allclose m with Ok false => 1 | _ => 0 end))%Z.
Proof.
  unfold CloudFn.check_normals.
  destruct (normals_allclose m) as [[|]|]; simpl; lia.
Qed.

Lemma check_size_score (e : vec3) (r : Report) :
  score (CloudFn.check_size e r)
  = (score r - (if Qlt_le_dec 300 (max3 e) then 1 else 0)
             - (if Qlt_le_dec (min3 e) 1 then 1 else 0))%Z.
Proof.
  unfold CloudFn.check_size.
  destruct (Qlt_le_dec 300 (max3 e)), (Qlt_le_dec (max3 e) 10),
    (Qlt_le_dec (min3 e) 1); simpl; lia.
Qed.

(** A block that leaves the issue list empty found nothing and took
    nothing. *)
Lemma check_watertight_clean (m : Mesh) (r : Report) :
  issues (CloudFn.check_watertight m r) = [] ->
  issues r = [] /\ score (CloudFn.check_watertight m r) = score r.
Proof.
  unfold CloudFn.check_watertight. destruct (negb (is_watertight m)); [|auto].
  intros E. now apply issues_flagged in E.
Qed.

Lemma check_degenerate_clean (m : Mesh) (r : Report) :
  issues (CloudFn.check_degenerate m r) = [] ->
  issues r = [] /\ score (CloudFn.check_degenerate m r) = score r.
Proof.
  unfold CloudFn.check_degenerate. destruct (0 <? _)%Z; [|auto].
  intros E. now apply issues_flagged in E.
Qed.

Lemma check_face_count_clean (m : Mesh) (r : Report) :
  issues (CloudFn.check_face_count m r) = [] ->
  issues r = [] /\ score (CloudFn.check_face_count m r) = score r.
Proof.
  unfold CloudFn.check_face_count.
  destruct (500000 <? _)%Z; [intros E; now apply issues_flagged in E|].
  destruct (_ <? 100)%Z; [intros E; now apply issues_flagged in E|auto].
Qed.

Lemma check_normals_clean (m : Mesh) (r : Report) :
  issues (CloudFn.check_normals m r) = [] ->
  issues r = [] /\ score (CloudFn.check_normals m r) = score r.
Proof.
  unfold CloudFn.check_normals.
  destruct (normals_allclose m) as [[|]|]; auto.
  intros E. now apply issues_flagged in E.
Qed.

Lemma check_size_clean (e : vec3) (r : Report) :
  issues (CloudFn.check_size e r) = [] ->
  issues r = [] /\ score (CloudFn.check_size e r) = score r.
Proof.
  unfold CloudFn.check_size.
  destruct (Qlt_le_dec (min3 e) 1); [intros E; now apply issues_flagged in E|].
  destruct (Qlt_le_dec 300 (max3 e)); [intros E; now apply issues_flagged in E|].
  destruct (Qlt_le_dec (max3 e) 10); [|auto].
  rewrite issues_add_recommendation. intros E. now apply add_issue_not_nil in E.
Qed.

(** The score of [main.py] before the clamp, as 5 minus its penalties. *)
Lemma raw_score_formula (m : Mesh) (e : vec3) :
  extents m = Some e ->
  exists r,
    CloudFn.analyze_mesh_issues_raw m = Ok r /\
    score r = (5 - (if is_watertight m then 0 else 2)
                 - (if (0 <? degenerate_area_count m)%Z then 1 else 0)
                 - (if (500000 <? face_count m)%Z || (face_count m <? 100)%Z
                    then 1 else 0)
                 - (match normals_allclose m with Ok false => 1 | _ => 0 end)
                 - (if Qlt_le_dec 300 (max3 e) then 1 else 0)
                 - (if Qlt_le_dec (min3 e) 1 then 1 else 0))%Z.
Proof.
  intros He. unfold CloudFn.analyze_mesh_issues_raw. rewrite He.
  eexists. split; [reflexivity|].
  rewrite check_size_score, check_normals_score, check_face_count_score,
    check_degenerate_score, check_watertight_score.
  reflexivity.
Qed.

Lemma raw_score_clean (m : Mesh) (r : Report) :
  CloudFn.analyze_mesh_issues_raw m = Ok r -> issues r = [] -> score r = 5%Z.
Proof.
  unfold CloudFn.analyze_mesh_issues_raw.
  destruct (extents m) as [e|]; [|discriminate].
  intros [= <-] E.
  apply check_size_clean in E as [E ->].
  apply check_normals_clean in E as [E ->].
  apply check_face_count_clean in E as [E ->].
  apply check_degenerate_clean in E as [E ->].
  apply check_watertight_clean in E as [E ->].
  reflexivity.
Qed.

Lemma extents_of_vertices (m : Mesh) :
  vertices m <> [] -> exists lo hi, bounds m = Some (lo, hi) /\ extents m = Some (vsub lo hi).
Proof.
  unfold extents, bounds. destruct (vertices m) as [|v vs]; [congruence|].
  intros _. eexists _, _. split; reflexivity.
Qed.

Lemma script_issues_clean (m : Mesh) :
  fst (Script.analyze_mesh_issues m) = [] ->
  is_watertight m = true /\ (500000 <? face_count m)%Z = false.
Proof.
  unfold Script.analyze_mesh_issues.
  destruct (is_watertight m), (500000 <? face_count m)%Z,
    (degenerate_faces m) as [n|]; try destruct (0 <? n)%Z;
    cbn; intros E; try discriminate E; auto.
Qed.

Lemma script_printability_formula (m : Mesh) :
  Script.printability m
  = (5 - (if is_watertight m then 0 else 2)
       - (if (1000000 <? face_count m)%Z then 2
          else if (500000 <? face_count m)%Z then 1 else 0))%Z.
Proof.
  unfold Script.printability.
  destruct (is_watertight m), (500000 <? face_count m)%Z eqn:E1,
    (1000000 <? face_count m)%Z eqn:E2; cbn; try lia.
  all: apply Z.ltb_lt in E2; apply Z.ltb_ge in E1; lia.
Qed.

End ReportFacts.

(** * The printability score *)

(** C1.  For every mesh that has vertices both analyses return a report,
    and the printability score in it is 5 minus the fixed penalties of
    that analysis, clamped from below by 1.  So it lies in [1, 5]: a
    report without issues carries 5, and a mesh that collects every
    penalty carries 1. *)
Theorem printability_score_range `{Trimesh} (m : Mesh) :
  vertices m <> [] ->
  exists r a,
    CloudFn.analyze_mesh_issues m = Ok r /\
    Script.analyze_only m = Success a /\
    (forall e, extents m = Some e ->
       score r
       = Z.max 1 (5 - (if is_watertight m then 0 else 2)
                    - (if (0 <? degenerate_area_count m)%Z then 1 else 0)
                    - (if (500000 <? face_count m)%Z || (face_count m <? 100)%Z
                       then 1 else 0)
                    - (match normals_allclose m with Ok false => 1 | _ => 0 end)
                    - (if Qlt_le_dec 300 (max3 e) then 1 else 0)
                    - (if Qlt_le_dec (min3 e) 1 then 1 else 0))%Z) /\
    printability_score a
    = Z.max 1 (5 - (if is_watertight m then 0 else 2)
                 - (if (1000000 <? face_count m)%Z then 2
                    else if (500000 <? face_count m)%Z then 1 else 0))%Z /\
    (1 <= score r <= 5)%Z /\
    (1 <= printability_score a <= 5)%Z /\
    (issues r = [] -> score r = 5%Z) /\
    (analysis_issues a = [] -> printability_score a = 5%Z) /\
    (is_watertight m = false ->
     (0 < degenerate_area_count m)%Z ->
     (500000 < face_count m \/ face_count m < 100)%Z ->
     normals_allclose m = Ok false ->
     (forall e, extents m = Some e -> 300 < max3 e /\ min3 e < 1) ->
     score r = 1%Z) /\
    (is_watertight m = false -> (1000000 < face_count m)%Z ->
     printability_score a = 1%Z).
Proof.
  intros Hv.
  destruct (extents_of_vertices m Hv) as (lo & hi & Hb & He).
  destruct (raw_score_formula m _ He) as (raw & Hraw & Hscore).
  exists (mkReport (issues raw) (recommendations raw) (Z.max 1 (score raw))).
  exists (mkAnalysis
            (mkStats (vertex_count m) (face_count m) (vsub lo hi) (is_watertight m)
               (if is_watertight m
                then match volume m with Ok v => Some v | Raise _ => None end
                else None) (centroid m))
            (fst (Script.analyze_mesh_issues m)) (snd (Script.analyze_mesh_issues m))
            (Z.max 1 (Script.printability m)) (Some 0%Z)).
  split; [unfold CloudFn.analyze_mesh_issues; now rewrite Hraw|].
  split; [unfold Script.analyze_only, Script.get_mesh_stats; now rewrite Hb|].
  cbn [score issues printability_score analysis_issues].
  pose proof (script_printability_formula m) as Hs.
  split; [intros e' He'; rewrite He' in He; injection He as ->; now rewrite Hscore|].
  split; [now rewrite Hs|].
  repeat split.
  - lia.
  - rewrite Hscore.
    destruct (is_watertight m), (0 <? degenerate_area_count m)%Z,
      ((500000 <? face_count m)%Z || (face_count m <? 100)%Z),
      (normals_allclose m) as [[|]|], (Qlt_le_dec 300 (max3 (vsub lo hi))),
      (Qlt_le_dec (min3 (vsub lo hi)) 1); lia.
  - lia.
  - rewrite Hs.
    destruct (is_watertight m), (1000000 <? face_count m)%Z,
      (500000 <? face_count m)%Z; lia.
  - intros E. rewrite (raw_score_clean m raw Hraw E). reflexivity.
  - intros E. apply script_issues_clean in E as [E1 E2].
    rewrite Hs, E1, E2.
    destruct (1000000 <? face_count m)%Z eqn:E3; [|reflexivity].
    apply Z.ltb_lt in E3. apply Z.ltb_ge in E2. lia.
  - intros Hw Hd Hf Hn Hx. destruct (Hx _ He) as [Hmax Hmin].
    rewrite Hscore, Hw, Hn.
    destruct (Qlt_le_dec 300 (max3 (vsub lo hi))); [|lra].
    destruct (Qlt_le_dec (min3 (vsub lo hi)) 1); [|lra].
    destruct (0 <? degenerate_area_count m)%Z eqn:Ed;
      [|apply Z.ltb_ge in Ed; lia].
    destruct ((500000 <? face_count m)%Z || (face_count m <? 100)%Z) eqn:Ef;
      [reflexivity|].
    apply orb_false_elim in Ef as [Ef1 Ef2].
    apply Z.ltb_ge in Ef1, Ef2. lia.
  - intros Hw Hf. rewrite Hs, Hw.
    destruct (1000000 <? face_count m)%Z eqn:E3; [reflexivity|].
    apply Z.ltb_ge in E3. lia.
Qed.

(** * Guarded repairs *)

Lemma settles_ret {A} (a : A) : settles (ret a).
Proof. intros s. exists s. left. now exists a. Qed.

Lemma settles_read {A} (f : Mesh -> A) : settles (read f).
Proof. intros s. exists s. left. now exists (f (mesh s)). Qed.

Lemma settles_call (f : Mesh -> Mesh * result unit) : settles (call f).
Proof.
  intros s. unfold call. destruct (f (mesh s)) as [m' [u|e]]; eexists.
  - left. now exists u.
  - right. now exists e.
Qed.

Lemma settles_append_operation (t : text) : settles (append_operation t).
Proof. intros s. eexists. left. now exists tt. Qed.

Lemma settles_append_warning (w : string) : settles (append_warning w).
Proof. intros s. eexists. left. now exists tt. Qed.

Lemma settles_bind {A B} (c : stmt Run A) (k : A -> stmt Run B) :
  settles c -> (forall a, settles (k a)) -> settles (bind c k).
Proof.
  intros Hc Hk s. unfold bind.
  destruct (Hc s) as [s1 [[a ->]|[e ->]]].
  - apply Hk.
  - exists s1. right. now exists e.
Qed.

Lemma settles_if {A} (b : bool) (c d : stmt Run A) :
  settles c -> settles d -> settles (if b then c else d).
Proof. now destruct b. Qed.

Create HintDb settle.
#[local] Hint Resolve settles_ret settles_read settles_call settles_append_operation
  settles_append_warning settles_if : settle.
#[local] Hint Extern 2 (settles (bind _ _)) => apply settles_bind; [|intros ?] : settle.

(** A [try] whose handler appends a warning returns whenever its body
    settles; when the body raised, the state is the one the body left,
    with the warning added. *)
Lemma try_except_returns (body : stmt Run unit) (prefix : string) (s : Run) :
  settles body ->
  exists s',
    try_except body (fun e => append_warning (prefix ++ e)) s = (s', Done tt) /\
    (forall s1 e, body s = (s1, Raised e) -> s' = warned (prefix ++ e) s1) /\
    (forall s1, body s = (s1, Done tt) -> s' = s1).
Proof.
  intros Hb. unfold try_except.
  destruct (Hb s) as [s1 [[[] E]|[e E]]]; rewrite E.
  - exists s1. repeat split; congruence.
  - eexists. split; [reflexivity|]. split; [|congruence].
    intros s2 e2 [= <- <-]. reflexivity.
Qed.

Lemma when_returns (b : bool) (c : stmt Run unit) : returns c -> returns (when b c).
Proof. destruct b; [auto|]. intros _ s. now exists s. Qed.

Lemma bind_returns (c : stmt Run unit) (k : unit -> stmt Run unit) :
  returns c -> returns (k tt) -> returns (bind c k).
Proof.
  intros Hc Hk s. unfold bind. destruct (Hc s) as [s1 ->]. apply Hk.
Qed.

Section Repairs.
Context `{Trimesh}.

Lemma cloud_fill_holes_settles : settles CloudFn.fill_holes_body.
Proof. unfold CloudFn.fill_holes_body. auto with settle. Qed.

Lemma cloud_fix_normals_settles : settles CloudFn.fix_normals_body.
Proof. unfold CloudFn.fix_normals_body. auto with settle. Qed.

Lemma cloud_make_watertight_settles : settles CloudFn.make_watertight_body.
Proof. unfold CloudFn.make_watertight_body. auto 8 with settle. Qed.

Lemma script_remove_degenerate_settles : settles Script.remove_degenerate_body.
Proof. unfold Script.remove_degenerate_body. auto with settle. Qed.

Lemma script_fill_holes_settles : settles Script.fill_holes_body.
Proof. unfold Script.fill_holes_body. auto with settle. Qed.

Lemma script_fix_normals_settles : settles Script.fix_normals_body.
Proof. unfold Script.fix_normals_body. auto with settle. Qed.

Lemma script_watertight_settles : settles Script.watertight_body.
Proof. unfold Script.watertight_body. auto 8 with settle. Qed.

Lemma guarded_returns (body : stmt Run unit) (prefix : string) :
  settles body -> returns (try_except body (fun e => append_warning (prefix ++ e))).
Proof.
  intros Hb s. destruct (try_except_returns body prefix s Hb) as (s' & E & _).
  now exists s'.
Qed.

Lemma cloud_make_watertight_returns (options : Options) :
  returns (CloudFn.make_watertight_block options).
Proof.
  intros s. unfold CloudFn.make_watertight_block, bind, read.
  apply when_returns, guarded_returns, cloud_make_watertight_settles.
Qed.

Lemma cloud_repair_stage_returns (options : Options) :
  returns (CloudFn.repair_stage options).
Proof.
  unfold CloudFn.repair_stage.
  apply bind_returns;
    [apply when_returns, guarded_returns, cloud_fill_holes_settles|].
  apply bind_returns;
    [apply when_returns, guarded_returns, cloud_fix_normals_settles|].
  apply cloud_make_watertight_returns.
Qed.

Lemma script_repair_stage_returns (options : Options) :
  returns (Script.repair_stage options).
Proof.
  unfold Script.repair_stage.
  apply bind_returns; [apply guarded_returns, script_remove_degenerate_settles|].
  apply bind_returns;
    [apply when_returns, guarded_returns, script_fill_holes_settles|].
  apply bind_returns;
    [apply when_returns, guarded_returns, script_fix_normals_settles|].
  apply when_returns, guarded_returns, script_watertight_settles.
Qed.

End Repairs.

Lemma when_guarded (enabled : bool) (body : stmt Run unit) (prefix : string) (s : Run) :
  settles body ->
  exists s',
    when enabled (try_except body (fun e => append_warning (prefix ++ e))) s
      = (s', Done tt) /\
    (forall s1 e, enabled = true -> body s = (s1, Raised e) ->
                  s' = warned (prefix ++ e) s1).
Proof.
  intros Hb. destruct enabled; cbn [when].
  - destruct (try_except_returns body prefix s Hb) as (s' & E & Hr & _).
    exists s'. split; [exact E|]. intros s1 e _. apply Hr.
  - exists s. split; [reflexivity|]. discriminate.
Qed.



(** * The transform stage *)

Lemma bind_done {A B} (c : stmt Run A) (k : A -> stmt Run B) (s s' : Run) (b : B) :
  bind c k s = (s', Done b) ->
  exists s0 a, c s = (s0, Done a) /\ k a s0 = (s', Done b).
Proof.
  unfold bind. destruct (c s) as [s0 [a|e|]]; [|discriminate..].
  intros E. now exists s0, a.
Qed.

Lemma read_done {A} (f : Mesh -> A) (s s' : Run) (a : A) :
  read f s = (s', Done a) -> s' = s /\ a = f (mesh s).
Proof. unfold read. now intros [= <- <-]. Qed.

Lemma eval_done {A} (r : result A) (s s' : Run) (a : A) :
  eval r s = (s', Done a) -> s' = s /\ r = Ok a.
Proof. unfold eval. destruct r; now intros [= <- <-]. Qed.

Lemma ret_done {A} (x a : A) (s s' : Run) :
  ret x s = (s', Done a) -> s' = s /\ a = x.
Proof. unfold ret. now intros [= <- <-]. Qed.

Tactic Notation "bind_inv" hyp(H) "as" ident(s0) ident(a) ident(E) :=
  apply bind_done in H as (s0 & a & E & H).

Section Transforms.
Context `{Trimesh}.

Lemma divide_done (a b q : Q) (s s' : Run) :
  Script.divide a b s = (s', Done q) -> s' = s /\ q = a / b /\ ~ b == 0.
Proof.
  unfold Script.divide. destruct (Qeq_bool b 0) eqn:E; [discriminate|].
  intros [= <- <-]. repeat split. now apply Qeq_bool_neq.
Qed.

Lemma size_ratio_done (target : dict) (k : string) (x : Q) (s s' : Run) (l : list Q) :
  Script.size_ratio target k x s = (s', Done l) ->
  s' = s /\
  match dict_get target k with
  | None => l = []
  | Some t => l = [t / x] /\ ~ x == 0
  end.
Proof.
  unfold Script.size_ratio. destruct (dict_get target k) as [t|].
  - intros E. bind_inv E as s0 q E0. apply divide_done in E0 as (-> & -> & Hx).
    apply ret_done in E as [-> ->]. auto.
  - intros E. apply ret_done in E as [-> ->]. auto.
Qed.

Lemma apply_target_size_done (target : dict) (s s' : Run) (f : Q) :
  Script.apply_target_size target s = (s', Done f) ->
  exists lo hi sw sh sd,
    bounds (mesh s) = Some (lo, hi) /\
    Script.size_ratio target "width" (vx (vsub lo hi)) s = (s, Done sw) /\
    Script.size_ratio target "height" (vy (vsub lo hi)) s = (s, Done sh) /\
    Script.size_ratio target "depth" (vz (vsub lo hi)) s = (s, Done sd) /\
    match sw ++ sh ++ sd with
    | [] => s' = s /\ f = 1
    | x :: l => s' = scaled f s /\ f = qmin_list x l
    end.
Proof.
  unfold Script.apply_target_size. intros E.
  bind_inv E as s0 b E0. apply read_done in E0 as [-> ->].
  destruct (bounds (mesh s)) as [[lo hi]|]; [|discriminate].
  bind_inv E as s1 sw Ew. pose proof Ew as Hw. apply size_ratio_done in Hw as [-> _].
  bind_inv E as s2 sh Eh. pose proof Eh as Hh. apply size_ratio_done in Hh as [-> _].
  bind_inv E as s3 sd Ed. pose proof Ed as Hd. apply size_ratio_done in Hd as [-> _].
  exists lo, hi, sw, sh, sd. repeat split; try assumption.
  destruct (sw ++ sh ++ sd) as [|x l].
  - apply ret_done in E as [-> ->]. auto.
  - bind_inv E as s4 u Eu. apply ret_done in E as [-> ->].
    unfold update in Eu. injection Eu as <- _. auto.
Qed.

Lemma fit_to_print_bed_done (bed : dict) (s s' : Run) (f : Q) :
  Script.fit_to_print_bed bed s = (s', Done f) ->
  exists lo hi bw bh bd,
    bounds (mesh s) = Some (lo, hi) /\
    dict_item bed "width" = Ok bw /\ ~ vx (vsub lo hi) == 0 /\
    dict_item bed "height" = Ok bh /\ ~ vy (vsub lo hi) == 0 /\
    dict_item bed "depth" = Ok bd /\ ~ vz (vsub lo hi) == 0 /\
    f = qmin_list (bw / vx (vsub lo hi))
          [bh / vy (vsub lo hi); bd / vz (vsub lo hi)] * margin /\
    s' = scaled f s.
Proof.
  unfold Script.fit_to_print_bed. intros E.
  bind_inv E as s0 b E0. apply read_done in E0 as [-> ->].
  destruct (bounds (mesh s)) as [[lo hi]|]; [|discriminate].
  bind_inv E as s1 bw E1. apply eval_done in E1 as [-> Hw].
  bind_inv E as s2 rw E2. apply divide_done in E2 as (-> & -> & Hx).
  bind_inv E as s3 bh E3. apply eval_done in E3 as [-> Hh].
  bind_inv E as s4 rh E4. apply divide_done in E4 as (-> & -> & Hy).
  bind_inv E as s5 bd E5. apply eval_done in E5 as [-> Hd].
  bind_inv E as s6 rd E6. apply divide_done in E6 as (-> & -> & Hz).
  bind_inv E as s7 u E7. apply ret_done in E as [-> ->].
  unfold update in E7. injection E7 as <- _.
  exists lo, hi, bw, bh, bd. repeat split; assumption.
Qed.

Lemma update_done (f : Mesh -> Mesh) (s s' : Run) (u : unit) :
  update f s = (s', Done u) -> s' = fst (update f s).
Proof. unfold update. now intros [= <- _]. Qed.

Lemma append_operation_done (t : text) (s s' : Run) (u : unit) :
  append_operation t s = (s', Done u) -> s' = logged t s.
Proof. unfold append_operation, logged. now intros [= <- _]. Qed.

(** What a scaling block that returned has done: nothing, or one log
    entry, with the mesh scaled once at most. *)
Lemma script_scaling_done (options : Options) (s s' : Run) :
  Script.scaling_block options s = (s', Done tt) ->
  s' = s \/
  exists t, scale_entry t /\ (s' = logged t s \/ exists f, s' = logged t (scaled f s)).
Proof.
  unfold Script.scaling_block.
  destruct (Script.target_requested _) as [target|].
  { intros E. bind_inv E as s1 f Ef. apply append_operation_done in E as ->.
    right. eexists. split; [now eexists _, _, _|].
    apply apply_target_size_done in Ef as (lo & hi & sw & sh & sd & _ & _ & _ & _ & Hm).
    destruct (sw ++ sh ++ sd); destruct Hm as [-> ->]; eauto. }
  destruct (opt_uniform_scale options) as [f|].
  { intros E. bind_inv E as s1 u Eu. apply update_done in Eu as ->.
    apply append_operation_done in E as ->.
    right. eexists. split; [now eexists _, _, _|]. right. now exists f. }
  destruct (Script.bed_requested _) as [bed|].
  { intros E. bind_inv E as s1 f Ef. apply append_operation_done in E as ->.
    right. eexists. split; [now eexists _, _, _|].
    apply fit_to_print_bed_done in Ef
      as (lo & hi & bw & bh & bd & _ & _ & _ & _ & _ & _ & _ & _ & ->).
    right. now exists f. }
  intros E. apply ret_done in E as [-> _]. now left.
Qed.

Lemma cloud_scaling_done (options : Options) (s s' : Run) :
  CloudFn.scaling_block options s = (s', Done tt) ->
  s' = s \/ exists t f, scale_entry t /\ s' = logged t (scaled f s).
Proof.
  unfold CloudFn.scaling_block.
  destruct (CloudFn.present_dict (opt_target_size options)) as [target|].
  { intros E. bind_inv E as s1 ce E1. apply read_done in E1 as [-> ->].
    bind_inv E as s2 scales E2. apply eval_done in E2 as [-> _].
    destruct scales as [|x l]; [apply ret_done in E as [-> _]; now left|].
    bind_inv E as s3 u Eu. apply update_done in Eu as ->.
    apply append_operation_done in E as ->.
    right. eexists _, _. split; [now eexists _, _, _|reflexivity]. }
  destruct (CloudFn.present_number _) as [f|].
  { intros E. bind_inv E as s1 u Eu. apply update_done in Eu as ->.
    apply append_operation_done in E as ->.
    right. eexists _, _. split; [now eexists _, _, _|reflexivity]. }
  destruct (CloudFn.present_dict _) as [bed|].
  { intros E. bind_inv E as s1 ce E1. apply read_done in E1 as [-> ->].
    bind_inv E as s2 scales E2. apply eval_done in E2 as [-> _].
    destruct (Qlt_le_dec _ 1); [|apply ret_done in E as [-> _]; now left].
    bind_inv E as s3 u Eu. apply update_done in Eu as ->.
    apply append_operation_done in E as ->.
    right. eexists _, _. split; [now eexists _, _, _|reflexivity]. }
  intros E. apply ret_done in E as [-> _]. now left.
Qed.

Lemma scaling_log (s s' : Run) :
  s' = s \/
  (exists t, scale_entry t /\ (s' = logged t s \/ exists f, s' = logged t (scaled f s))) ->
  exists scaling,
    operations s' = operations s ++ scaling /\
    Forall scale_entry scaling /\ (length scaling <= 1)%nat /\
    warnings s' = warnings s /\
    (mesh s' = mesh s \/ exists f, mesh s' = apply_scale f (mesh s)).
Proof.
  intros [->|(t & Ht & [->|[f ->]])].
  - exists []. rewrite app_nil_r. repeat split; auto.
  - exists [t]. repeat split; auto.
  - exists [t]. repeat split; auto. right. now exists f.
Qed.

End Transforms.

Lemma centre_keeps_logs `{Trimesh} (s s' : Run) :
  centre_and_ground s = (s', Done tt) ->
  operations s' = operations s /\ warnings s' = warnings s.
Proof.
  unfold centre_and_ground. intros E.
  bind_inv E as s0 c E0. apply read_done in E0 as [-> ->].
  bind_inv E as s1 u E1. apply update_done in E1 as ->.
  bind_inv E as s2 b E2. apply read_done in E2 as [-> ->].
  destruct (bounds _) as [[lo hi]|]; [|discriminate].
  apply update_done in E as ->. auto.
Qed.

(** C3, as the code has it.  With [center_mesh] on, a transform stage
    that returns has run its two blocks in the order of its source: the
    script scales first and centres the scaled mesh, so the centring
    entry closes the log; the cloud function centres first and scales
    the centred mesh, so the centring entry opens what the stage adds. *)
Theorem transform_order `{Trimesh} (options : Options) (s s' : Run) :
  flag (opt_center_mesh options) = true ->
  (Script.transform_stage options s = (s', Done tt) ->
   exists s1 s2 scaling,
     Script.scaling_block options s = (s1, Done tt) /\
     centre_and_ground s1 = (s2, Done tt) /\
     s' = logged (lit "center_and_ground") s2 /\
     operations s' = operations s ++ scaling ++ [lit "center_and_ground"] /\
     Forall scale_entry scaling) /\
  (CloudFn.transform_stage options s = (s', Done tt) ->
   exists s1 scaling,
     centre_and_ground s = (s1, Done tt) /\
     CloudFn.scaling_block options (logged (lit "center_mesh") s1) = (s', Done tt) /\
     operations s' = operations s ++ lit "center_mesh" :: scaling /\
     Forall scale_entry scaling).
Proof.
  intros Hc. split.
  - unfold Script.transform_stage, Script.center_block, Script.center_mesh.
    rewrite Hc. cbn [when]. intros E.
    bind_inv E as s1 u E1. destruct u.
    bind_inv E as s2 u E2. destruct u.
    apply append_operation_done in E as ->.
    destruct (scaling_log s s1 (script_scaling_done _ _ _ E1))
      as (scaling & Hops & Hall & _).
    destruct (centre_keeps_logs _ _ E2) as [Hops2 _].
    exists s1, s2, scaling. repeat split; try assumption.
    cbn. rewrite Hops2, Hops. now rewrite app_assoc.
  - unfold CloudFn.transform_stage, CloudFn.center_block.
    rewrite Hc. cbn [when]. intros E.
    bind_inv E as s1 u E1. destruct u.
    bind_inv E1 as s0 u E0. destruct u.
    apply append_operation_done in E1 as ->.
    destruct (centre_keeps_logs _ _ E0) as [Hops0 _].
    pose proof (cloud_scaling_done _ _ _ E) as Hs.
    destruct (scaling_log (logged (lit "center_mesh") s0) s') as (scaling & Hops & Hall & _).
    { destruct Hs as [->|(t & f & Ht & ->)]; [now left|].
      right. exists t. split; [exact Ht|]. right. now exists f. }
    exists s0, scaling. repeat split; try assumption.
    rewrite Hops. cbn. rewrite Hops0. now rewrite <- app_assoc.
Qed.

(** The script on a 10 mm cube with [uniform_scale = 2]: the log of the
    transform stage is the scale entry, then the centring entry. *)
Lemma transform_order_witness :
  exists scaling,
    operations (fst (@Script.transform_stage (Demo.library true false)
                       (mkOptions None None None None None (Some 2) None)
                       (start Demo.cube10)))
    = [] ++ scaling ++ [lit "center_and_ground"] /\
    Forall scale_entry scaling.
Proof.
  destruct (@transform_order (Demo.library true false)
              (mkOptions None None None None None (Some 2) None)
              (start Demo.cube10)
              (fst (@Script.transform_stage (Demo.library true false)
                      (mkOptions None None None None None (Some 2) None)
                      (start Demo.cube10)))
              eq_refl) as [W _].
  destruct W as (s1 & s2 & scaling & _ & _ & _ & Hops & Hall);
    [vm_compute; reflexivity|].
  exists scaling. split; [exact Hops | exact Hall].
Defined.

(** C3 fails on [main.py]: with [uniform_scale = 2] and [center_mesh]
    left at its default, the invocation succeeds and its log shows the
    centring before the scaling. *)
Lemma cloud_centres_before_scaling :
  exists body,
    @CloudFn.trimesh_optimize (Demo.library true false)
      (mkOptions None None None None None (Some 2) None) "glb" Demo.cube10
    = Success body /\
    operations (run body)
    = [lit "fill_holes"; lit "fix_normals"; lit "center_mesh";
       [Str "scale:"; FmtQ ".3f" 2]].
Proof. eexists. split; vm_compute; reflexivity. Qed.

(** * Which scaling option is used *)

Lemma dict_truthy_empty (d : dict) : dict_truthy d = false <-> d = ∅.
Proof.
  unfold dict_truthy. rewrite negb_false_iff, Nat.eqb_eq. apply map_size_empty_iff.
Qed.

Lemma any_not_none_false (d : dict) :
  any_not_none d = false <-> forall k, dict_get d k = None.
Proof.
  unfold any_not_none, dict_get. split.
  - intros E k. destruct (d !! k) as [[q|]|] eqn:Ek; [|reflexivity..].
    apply elem_of_map_to_list, list_elem_of_In in Ek.
    assert (Hex : existsb (fun kv : string * option Q =>
                     match snd kv with Some _ => true | None => false end)
                    (map_to_list d) = true)
      by (apply existsb_exists; now exists (k, Some q)).
    congruence.
  - intros Hk. destruct (existsb _ _) eqn:E; [|reflexivity].
    apply existsb_exists in E as ([k [q|]] & Hin & Hv); [|discriminate].
    apply list_elem_of_In, elem_of_map_to_list in Hin.
    specialize (Hk k). now rewrite Hin in Hk.
Qed.

Lemma num_truthy_false (q : Q) : num_truthy q = false <-> q == 0.
Proof.
  unfold num_truthy. rewrite negb_false_iff. apply Qeq_bool_iff.
Qed.

(** C10, as the code has it.  A scaling block that returns has scaled
    the mesh once at most and logged one entry at most.  The options
    are tried in the order target size, uniform scale, print bed, and
    the first one whose test passes hides the later ones.  The tests
    differ: the script takes a target size that has a non-null value and
    any uniform scale that is not null; the cloud function takes any
    non-empty target size (also one whose axes are all null, and then
    scales nothing) and only a non-zero uniform scale.  Both take a
    non-empty print bed. *)
Theorem single_scaling_by_priority (options : Options) (s : Run) :
  (forall s',
     Script.scaling_block options s = (s', Done tt) \/
     CloudFn.scaling_block options s = (s', Done tt) ->
     exists scaling,
       operations s' = operations s ++ scaling /\
       Forall scale_entry scaling /\ (length scaling <= 1)%nat /\
       warnings s' = warnings s /\
       (mesh s' = mesh s \/ exists f, mesh s' = apply_scale f (mesh s))) /\
  (forall d,
     opt_target_size options = Some d ->
     (d <> ∅ /\ exists k t, dict_get d k = Some t) ->
     forall other, opt_target_size other = Some d ->
       Script.scaling_block other s = Script.scaling_block options s) /\
  (forall f,
     (forall d, opt_target_size options = Some d -> forall k, dict_get d k = None) ->
     opt_uniform_scale options = Some f ->
     Script.scaling_block options s
     = (logged [Str "uniform_scale:"; FmtQ "" f] (scaled f s), Done tt)) /\
  (forall d,
     opt_target_size options = Some d -> d <> ∅ ->
     forall other, opt_target_size other = Some d ->
       CloudFn.scaling_block other s = CloudFn.scaling_block options s) /\
  (forall f,
     (forall d, opt_target_size options = Some d -> d = ∅) ->
     opt_uniform_scale options = Some f -> ~ f == 0 ->
     CloudFn.scaling_block options s
     = (logged [Str "scale:"; FmtQ ".3f" f] (scaled f s), Done tt)) /\
  ((forall d, opt_target_size options = Some d -> d = ∅) ->
   (forall f, opt_uniform_scale options = Some f -> f == 0) ->
   (forall d, opt_print_bed_size options = Some d -> d = ∅) ->
   CloudFn.scaling_block options s = (s, Done tt)) /\
  ((forall d, opt_target_size options = Some d -> forall k, dict_get d k = None) ->
   opt_uniform_scale options = None ->
   (forall d, opt_print_bed_size options = Some d -> d = ∅) ->
   Script.scaling_block options s = (s, Done tt)) /\
  (forall bed,
     (forall d, opt_target_size options = Some d -> d = ∅) ->
     (forall f, opt_uniform_scale options = Some f -> f == 0) ->
     opt_print_bed_size options = Some bed ->
     CloudFn.scaling_block options s
     = CloudFn.scaling_block (mkOptions None None None None None None (Some bed)) s) /\
  (forall bed,
     (forall d, opt_target_size options = Some d -> forall k, dict_get d k = None) ->
     opt_uniform_scale options = None ->
     opt_print_bed_size options = Some bed ->
     Script.scaling_block options s
     = Script.scaling_block (mkOptions None None None None None None (Some bed)) s).
Proof.
  assert (Hscript_none :
    (forall d, opt_target_size options = Some d -> forall k, dict_get d k = None) ->
    Script.target_requested (opt_target_size options) = None).
  { intros Hd. unfold Script.target_requested.
    destruct (opt_target_size options) as [d|]; [|reflexivity].
    rewrite (proj2 (any_not_none_false d) (Hd d eq_refl)).
    now rewrite andb_false_r. }
  assert (Hcloud_none : forall o : option dict,
    (forall d, o = Some d -> d = ∅) -> CloudFn.present_dict o = None).
  { intros [d|] Hd; [|reflexivity]. unfold CloudFn.present_dict.
    now rewrite (proj2 (dict_truthy_empty d) (Hd d eq_refl)). }
  repeat split.
  - intros s' [E|E].
    + apply scaling_log, (script_scaling_done _ _ _ E).
    + apply scaling_log. destruct (cloud_scaling_done _ _ _ E) as [->|(t & f & Ht & ->)];
        [now left|]. right. exists t. split; [exact Ht|]. right. now exists f.
  - intros d Hd [Hne (k & t & Hk)] other Ho.
    unfold Script.scaling_block. rewrite Hd, Ho. unfold Script.target_requested.
    assert (dict_truthy d = true) as ->.
    { destruct (dict_truthy d) eqn:E; [reflexivity|]. now apply dict_truthy_empty in E. }
    assert (any_not_none d = true) as ->.
    { destruct (any_not_none d) eqn:E; [reflexivity|].
      rewrite any_not_none_false in E. specialize (E k). congruence. }
    reflexivity.
  - intros f Hd Hf. unfold Script.scaling_block.
    rewrite (Hscript_none Hd), Hf. reflexivity.
  - intros d Hd Hne other Ho.
    unfold CloudFn.scaling_block. rewrite Hd, Ho. unfold CloudFn.present_dict.
    assert (dict_truthy d = true) as ->.
    { destruct (dict_truthy d) eqn:E; [reflexivity|]. now apply dict_truthy_empty in E. }
    reflexivity.
  - intros f Hd Hf Hnz. unfold CloudFn.scaling_block.
    rewrite (Hcloud_none _ Hd), Hf. unfold CloudFn.present_number.
    assert (num_truthy f = true) as ->.
    { destruct (num_truthy f) eqn:E; [reflexivity|]. now apply num_truthy_false in E. }
    reflexivity.
  - intros Hd Hf Hb. unfold CloudFn.scaling_block.
    rewrite (Hcloud_none _ Hd), (Hcloud_none _ Hb).
    destruct (opt_uniform_scale options) as [f|]; [|reflexivity].
    unfold CloudFn.present_number.
    now rewrite (proj2 (num_truthy_false f) (Hf f eq_refl)).
  - intros Hd Hf Hb. unfold Script.scaling_block.
    rewrite (Hscript_none Hd), Hf. unfold Script.bed_requested.
    destruct (opt_print_bed_size options) as [d|]; [|reflexivity].
    now rewrite (proj2 (dict_truthy_empty d) (Hb d eq_refl)).
  - intros bed Hd Hf Hb. unfold CloudFn.scaling_block.
    rewrite (Hcloud_none _ Hd), Hb. cbn [opt_target_size opt_uniform_scale
      opt_print_bed_size CloudFn.present_dict CloudFn.present_number].
    destruct (opt_uniform_scale options) as [f|]; [|reflexivity].
    unfold CloudFn.present_number.
    now rewrite (proj2 (num_truthy_false f) (Hf f eq_refl)).
  - intros bed Hd Hf Hb. unfold Script.scaling_block.
    rewrite (Hscript_none Hd), Hf, Hb. reflexivity.
Qed.

(** The script with a target size whose axes are all null and
    [uniform_scale = 2]: the uniform scale is used. *)
Lemma single_scaling_by_priority_witness :
  Script.scaling_block
    (mkOptions None None None None (Some (Demo.size3 None None None)) (Some 2) None)
    (start Demo.cube10)
  = (logged [Str "uniform_scale:"; FmtQ "" 2] (scaled 2 (start Demo.cube10)), Done tt).
Proof.
  destruct (single_scaling_by_priority
              (mkOptions None None None None (Some (Demo.size3 None None None))
                 (Some 2) None)
              (start Demo.cube10)) as (_ & _ & W & _).
  apply W; [|reflexivity].
  intros d [= <-]. apply any_not_none_false. vm_compute. reflexivity.
Defined.

(** C10 fails on [main.py]: a target size whose three axes are null has
    no non-null axis, yet it is taken, nothing is scaled and the uniform
    scale of 2 is never looked at. *)
Lemma cloud_null_target_hides_uniform_scale :
  CloudFn.scaling_block
    (mkOptions None None None None (Some (Demo.size3 None None None)) (Some 2) None)
    (start Demo.cube10)
  = (start Demo.cube10, Done tt).
Proof. vm_compute. reflexivity. Qed.

(** * Hole filling on a watertight mesh *)

(** C9, as the code has it.  When the mesh is watertight and the
    library's hole filling leaves such a mesh as it is, the block of
    either pipeline keeps the mesh and the warnings and appends the
    entry "fill_holes" to the operation log. *)
Theorem fill_holes_on_watertight `{Trimesh} (options : Options) (s : Run) :
  flag (opt_fill_holes options) = true ->
  is_watertight (mesh s) = true ->
  (is_watertight (mesh s) = true -> fill_holes (mesh s) = (mesh s, Ok tt)) ->
  CloudFn.fill_holes_block options s = (logged (lit "fill_holes") s, Done tt) /\
  Script.fill_holes_block options s = (logged (lit "fill_holes") s, Done tt) /\
  mesh (logged (lit "fill_holes") s) = mesh s /\
  warnings (logged (lit "fill_holes") s) = warnings s /\
  operations (logged (lit "fill_holes") s) = operations s ++ [lit "fill_holes"].
Proof.
  intros Hf Hw Hlib. specialize (Hlib Hw).
  unfold CloudFn.fill_holes_block, Script.fill_holes_block.
  rewrite Hf. cbn [when].
  unfold try_except, CloudFn.fill_holes_body, Script.fill_holes_body, bind, call.
  rewrite Hlib. destruct s. repeat split.
Qed.

Lemma fill_holes_on_watertight_witness :
  @CloudFn.fill_holes_block (Demo.library true false) Demo.all_defaults
    (start Demo.cube10)
  = (logged (lit "fill_holes") (start Demo.cube10), Done tt).
Proof.
  apply (@fill_holes_on_watertight (Demo.library true false) Demo.all_defaults
           (start Demo.cube10)); reflexivity.
Defined.

(** C9 fails on both pipelines: hole filling on a watertight cube, with
    a library that changes nothing, still leaves "fill_holes" in a log
    that was empty. *)
Lemma fill_holes_logged_on_watertight_cube :
  is_watertight (Trimesh := Demo.library true false) Demo.cube10 = true /\
  operations (fst (@CloudFn.fill_holes_block (Demo.library true false)
                     Demo.all_defaults (start Demo.cube10)))
  = [lit "fill_holes"] /\
  operations (fst (@Script.fill_holes_block (Demo.library true false)
                     Demo.all_defaults (start Demo.cube10)))
  = [lit "fill_holes"] /\
  operations (start Demo.cube10) = [].
Proof. repeat split. Qed.

(** * The score on concrete meshes *)

Lemma face_count_box_with_faces (a b c : Q) (n : Z) :
  (0 <= n)%Z -> face_count (Demo.box_with_faces a b c (Z.to_nat n)) = n.
Proof.
  intros Hn. unfold face_count, Demo.box_with_faces. cbn [faces].
  rewrite repeat_length. now apply Z2Nat.id.
Qed.

(** A 400 x 0.5 x 5 mm box of twelve faces, seen by a library that
    finds it open, degenerate and inverted: the score is in range. *)
Lemma printability_score_range_witness :
  exists r,
    @CloudFn.analyze_mesh_issues Demo.poor (Demo.box 400 (1 # 2) 5) = Ok r /\
    (1 <= score r <= 5)%Z.
Proof.
  destruct (@printability_score_range Demo.poor (Demo.box 400 (1 # 2) 5))
    as (r & a & Hr & _ & _ & _ & Hrange & _); [discriminate|].
  exists r. split; [exact Hr | exact Hrange].
Defined.

(** On the cloud function: every penalty at once gives 1 (six issues,
    seven points), and a clean 50 mm box of 200 faces gives 5. *)
Example cloud_scores :
  (exists r, @CloudFn.analyze_mesh_issues Demo.poor (Demo.box 400 (1 # 2) 5) = Ok r /\
             score r = 1%Z /\ length (issues r) = 6%nat) /\
  (exists r, @CloudFn.analyze_mesh_issues (Demo.library true false)
               (Demo.box_with_faces 50 50 50 200) = Ok r /\
             score r = 5%Z /\ issues r = []).
Proof. split; eexists; repeat split; vm_compute; reflexivity. Qed.

(** An open 400 mm mesh of 1,000,000 faces: the cloud function takes
    four points and reports 1; the script takes three (a million is not
    above its second threshold) and reports 2. *)
Example open_million_face_mesh :
  (exists r, @CloudFn.analyze_mesh_issues (Demo.library false false)
               (Demo.box_with_faces 400 400 400 (Z.to_nat 1000000)) = Ok r /\
             score r = 1%Z) /\
  Z.max 1 (@Script.printability (Demo.library false false)
             (Demo.box_with_faces 400 400 400 (Z.to_nat 1000000))) = 2%Z.
Proof.
  split.
  - destruct (@raw_score_formula (Demo.library false false)
                (Demo.box_with_faces 400 400 400 (Z.to_nat 1000000))
                (mkVec 400 400 400) eq_refl) as (raw & Hraw & Hscore).
    rewrite face_count_box_with_faces in Hscore by lia.
    eexists. unfold CloudFn.analyze_mesh_issues. rewrite Hraw.
    split; [reflexivity|]. cbn [score]. rewrite Hscore. reflexivity.
  - rewrite script_printability_formula, face_count_box_with_faces by lia.
    reflexivity.
Qed.

(** C6 fails on the script: a watertight mesh of 1,000,001 faces scores
    3, the same mesh with 200 faces scores 5; the face count alone took
    two points. *)
Lemma script_face_penalty_accumulates :
  @Script.printability (Demo.library true false)
    (Demo.box_with_faces 10 10 10 (Z.to_nat 1000001)) = 3%Z /\
  @Script.printability (Demo.library true false)
    (Demo.box_with_faces 10 10 10 (Z.to_nat 200)) = 5%Z /\
  (exists a, @Script.analyze_only (Demo.library true false)
               (Demo.box_with_faces 10 10 10 (Z.to_nat 1000001)) = Success a /\
             printability_score a = 3%Z).
Proof.
  assert (E : @Script.printability (Demo.library true false)
                (Demo.box_with_faces 10 10 10 (Z.to_nat 1000001)) = 3%Z).
  { rewrite script_printability_formula, face_count_box_with_faces by lia.
    reflexivity. }
  split; [exact E|]. split.
  - rewrite script_printability_formula, face_count_box_with_faces by lia.
    reflexivity.
  - unfold Script.analyze_only, Script.get_mesh_stats.
    cbn [bounds Demo.box_with_faces vertices Demo.corners].
    eexists. split; [reflexivity|].
    cbn [printability_score]. rewrite E. reflexivity.
Qed.

(** C6, as the code has it.  In [main.py] the face-count block takes
    exactly one point when the count is above 500,000 or below 100 and
    nothing otherwise.  In [analyze_only] of the script the face count
    takes one point above 500,000 and a second one above 1,000,000, and
    nothing below 100. *)
Theorem face_count_penalty `{Trimesh} (m : Mesh) (r : Report) :
  score (CloudFn.check_face_count m r)
  = (score r - (if (500000 <? face_count m)%Z || (face_count m <? 100)%Z
                then 1 else 0))%Z /\
  Script.printability m
  = (5 - (if is_watertight m then 0 else 2)
       - (if (1000000 <? face_count m)%Z then 2
          else if (500000 <? face_count m)%Z then 1 else 0))%Z.
Proof.
  split; [apply check_face_count_score | apply script_printability_formula].
Qed.

(** C7 against the code: a watertight 5 mm cube of 200 faces gets the
    "Model is small" issue and recommendation, and still scores 5. *)
Theorem small_model_keeps_full_score :
  (exists r,
     @CloudFn.analyze_mesh_issues (Demo.library true false)
       (Demo.box_with_faces 5 5 5 200) = Ok r /\
     score r = 5%Z /\
     issues r = [[Str "Model is small ("; FmtQ ".1f" 5;
                  Str "mm) - fine details may not print"]] /\
     recommendations r = [lit "Consider scaling up for better detail"]) /\
  (exists a,
     @CloudFn.trimesh_analyze (Demo.library true false)
       (Demo.box_with_faces 5 5 5 200) = Success a /\
     printability_score a = 5%Z /\
     length (analysis_issues a) = 1%nat).
Proof.
  split.
  - eexists. split; [vm_compute; reflexivity|].
    split; [vm_compute; reflexivity|].
    split; vm_compute; reflexivity.
  - eexists. split; [vm_compute; reflexivity|].
    split; vm_compute; reflexivity.
Qed.

(** In general the size block of [main.py] leaves the score alone for
    a model below 10 mm that is not thin. *)
Lemma check_size_small (e : vec3) (r : Report) :
  max3 e < 10 -> 1 <= min3 e ->
  score (CloudFn.check_size e r) = score r /\
  length (issues (CloudFn.check_size e r)) = S (length (issues r)).
Proof.
  intros Hmax Hmin. unfold CloudFn.check_size.
  destruct (Qlt_le_dec (min3 e) 1); [lra|].
  destruct (Qlt_le_dec 300 (max3 e)); [lra|].
  destruct (Qlt_le_dec (max3 e) 10); [|lra].
  split; [reflexivity|]. cbn. rewrite length_app. cbn. lia.
Qed.

(** * Axes without extent *)

Lemma target_ratio_ok (target : dict) (k : string) (ax : vec3 -> Q) (e : vec3) :
  exists l, CloudFn.target_ratio target k ax (Some e) = Ok l.
Proof.
  unfold CloudFn.target_ratio.
  destruct (dict_get target k) as [t|]; [|now eexists].
  destruct (num_truthy t); now eexists.
Qed.

Lemma target_scales_ok (target : dict) (e : vec3) :
  exists l, CloudFn.target_scales target (Some e) = Ok l.
Proof.
  unfold CloudFn.target_scales.
  destruct (target_ratio_ok target "width" vx e) as [sw ->].
  destruct (target_ratio_ok target "height" vy e) as [sh ->].
  destruct (target_ratio_ok target "depth" vz e) as [sd ->].
  now eexists.
Qed.

Lemma bed_ratio_ok (bed : dict) (k : string) (ax : vec3 -> Q) (e : vec3) :
  (exists b, bed !! k = Some (Some b)) ->
  exists r, CloudFn.bed_ratio bed k ax (Some e) = Ok r.
Proof.
  intros [b Hb]. unfold CloudFn.bed_ratio, dict_item. rewrite Hb.
  destruct (Qlt_le_dec 0 (ax e)); now eexists.
Qed.

Lemma bed_scales_ok (bed : dict) (e : vec3) :
  (forall k ax, In (k, ax) axes -> exists b, bed !! k = Some (Some b)) ->
  exists x l, CloudFn.bed_scales bed (Some e) = Ok (x, l).
Proof.
  intros Hbed. unfold CloudFn.bed_scales.
  destruct (bed_ratio_ok bed "width" vx e) as [sw ->];
    [apply (Hbed _ vx); cbn; auto|].
  destruct (bed_ratio_ok bed "height" vy e) as [sh ->];
    [apply (Hbed _ vy); cbn; auto|].
  destruct (bed_ratio_ok bed "depth" vz e) as [sd ->];
    [apply (Hbed _ vz); cbn; auto|].
  now eexists _, _.
Qed.

(** C5, as the code has it.  On a mesh that has extents, the scaling
    block of [main.py] raises no error for an axis of extent zero: a
    target on that axis adds no ratio, a bed size on that axis counts
    as ratio 1.  With a print bed that names its three axes the block
    returns, and what it leaves is the earlier state with one log entry
    and one scaling at most: the log so far, the warnings and the
    recorded statistics are kept. *)
Theorem zero_extent_is_skipped (options : Options) (s : Run) (e : vec3) :
  extents (mesh s) = Some e ->
  (forall bed, opt_print_bed_size options = Some bed ->
     forall k ax, In (k, ax) axes -> exists b, bed !! k = Some (Some b)) ->
  (forall target k ax,
     ax e == 0 -> CloudFn.target_ratio target k ax (Some e) = Ok []) /\
  (forall bed k ax,
     ax e == 0 -> CloudFn.bed_ratio bed k ax (Some e) = Ok 1) /\
  (vx e == 0 -> vy e == 0 -> vz e == 0 ->
   CloudFn.present_dict (opt_target_size options) <> None \/
   CloudFn.present_number (opt_uniform_scale options) = None ->
   CloudFn.scaling_block options s = (s, Done tt)) /\
  exists s' scaling,
    CloudFn.scaling_block options s = (s', Done tt) /\
    operations s' = operations s ++ scaling /\
    (length scaling <= 1)%nat /\
    warnings s' = warnings s /\
    original s' = original s /\
    (mesh s' = mesh s \/ exists f, mesh s' = apply_scale f (mesh s)).
Proof.
  intros He Hbed.
  assert (Htarget : forall target k ax,
            ax e == 0 -> CloudFn.target_ratio target k ax (Some e) = Ok []).
  { intros target k ax Hz. unfold CloudFn.target_ratio.
    destruct (dict_get target k) as [t|]; [|reflexivity].
    destruct (num_truthy t); [|reflexivity].
    destruct (Qlt_le_dec 0 (ax e)); [lra | reflexivity]. }
  assert (Hbedr : forall bed k ax,
            ax e == 0 -> CloudFn.bed_ratio bed k ax (Some e) = Ok 1).
  { intros bed k ax Hz. unfold CloudFn.bed_ratio.
    destruct (Qlt_le_dec 0 (ax e)); [lra | reflexivity]. }
  split; [exact Htarget|]. split; [exact Hbedr|]. split.
  { intros Hx Hy Hz Hsel. unfold CloudFn.scaling_block.
    destruct (CloudFn.present_dict (opt_target_size options)) as [target|].
    { unfold bind at 1, read. rewrite He.
      unfold bind at 1, eval, CloudFn.target_scales.
      now rewrite !Htarget. }
    destruct Hsel as [Hsel | ->]; [congruence|].
    destruct (CloudFn.present_dict (opt_print_bed_size options)) as [bed|];
      [|reflexivity].
    unfold bind at 1, read. rewrite He.
    unfold bind at 1, eval, CloudFn.bed_scales.
    now rewrite !Hbedr. }
  clear Htarget Hbedr.
  assert (Hret : exists s', CloudFn.scaling_block options s = (s', Done tt)).
  { unfold CloudFn.scaling_block.
    destruct (CloudFn.present_dict (opt_target_size options)) as [target|].
    { unfold bind at 1, read. rewrite He.
      destruct (target_scales_ok target e) as [l El].
      unfold bind at 1, eval. rewrite El.
      destruct l; now eexists. }
    destruct (CloudFn.present_number _) as [f|]; [now eexists|].
    unfold CloudFn.present_dict.
    destruct (opt_print_bed_size options) as [bed|]; [|now eexists].
    destruct (dict_truthy bed); [|now eexists].
    unfold bind at 1, read. rewrite He.
    destruct (bed_scales_ok bed e (Hbed bed eq_refl)) as (x & l & El).
    unfold bind at 1, eval. rewrite El.
    destruct (Qlt_le_dec _ 1); now eexists. }
  destruct Hret as [s' E]. exists s'.
  destruct (cloud_scaling_done _ _ _ E) as [->|(t & f & Ht & ->)].
  - exists []. rewrite app_nil_r. repeat split; auto.
  - exists [t]. repeat split; auto. right. now exists f.
Qed.

(** A flat sheet (no extent along x) with a target width of 100. *)
Lemma zero_extent_is_skipped_witness :
  CloudFn.target_ratio (Demo.size3 (Some 100) None None) "width" vx
    (extents Demo.sheet) = Ok [].
Proof.
  destruct (zero_extent_is_skipped
              (mkOptions None None None None
                 (Some (Demo.size3 (Some 100) None None)) None None)
              (start Demo.sheet) (mkVec 0 10 10) eq_refl) as (W & _).
  - discriminate.
  - apply (W (Demo.size3 (Some 100) None None) "width"%string vx). reflexivity.
Defined.

(** C5 fails on [main.py]: a target width on a sheet without width is
    no error.  The invocation succeeds, the repairs and the centring
    stay in the log and nothing is scaled. *)
Lemma cloud_zero_extent_is_no_error :
  exists body,
    @CloudFn.trimesh_optimize (Demo.library true false)
      (mkOptions None None None None
         (Some (Demo.size3 (Some 100) None None)) None None)
      "glb" Demo.sheet = Success body /\
    operations (run body)
    = [lit "fill_holes"; lit "fix_normals"; lit "center_mesh"] /\
    warnings (run body) = [] /\
    (exists e, extents Demo.sheet = Some e /\ vx e == 0).
Proof.
  eexists. split; [vm_compute; reflexivity|].
  split; [vm_compute; reflexivity|].
  split; [vm_compute; reflexivity|].
  exists (mkVec 0 10 10). split; vm_compute; reflexivity.
Qed.

(** * Scaling to a target size *)

Lemma divide_run (a b : Q) (s : Run) :
  ~ b == 0 -> Script.divide a b s = (s, Done (a / b)).
Proof.
  intros Hb. unfold Script.divide.
  destruct (Qeq_bool b 0) eqn:E; [|reflexivity].
  now apply Qeq_bool_eq in E.
Qed.

Lemma size_ratio_run (target : dict) (k : string) (x : Q) (s : Run) :
  ~ x == 0 ->
  Script.size_ratio target k x s
  = (s, Done (match dict_get target k with Some t => [t / x] | None => [] end)).
Proof.
  intros Hx. unfold Script.size_ratio.
  destruct (dict_get target k) as [t|]; [|reflexivity].
  unfold bind. now rewrite divide_run.
Qed.

(** On a mesh whose extents are all non-zero the script's
    [apply_target_size] takes the minimum of the requested ratios. *)
Lemma apply_target_size_run (target : dict) (s : Run) (lo hi : vec3) :
  bounds (mesh s) = Some (lo, hi) ->
  ~ vx (vsub lo hi) == 0 -> ~ vy (vsub lo hi) == 0 -> ~ vz (vsub lo hi) == 0 ->
  Script.apply_target_size target s
  = match requested_ratios target (vsub lo hi) with
    | [] => (s, Done 1)
    | x :: l => (scaled (qmin_list x l) s, Done (qmin_list x l))
    end.
Proof.
  intros Hb Hx Hy Hz. unfold Script.apply_target_size.
  unfold bind at 1, read. rewrite Hb.
  unfold bind at 1. rewrite size_ratio_run by exact Hx.
  unfold bind at 1. rewrite size_ratio_run by exact Hy.
  unfold bind at 1. rewrite size_ratio_run by exact Hz.
  unfold requested_ratios, axes. cbn [flat_map fst snd].
  rewrite app_nil_r.
  destruct (_ ++ _ ++ _); reflexivity.
Qed.

Lemma target_ratio_run (target : dict) (k : string) (ax : vec3 -> Q) (e : vec3) :
  0 < ax e ->
  (forall t, dict_get target k = Some t -> ~ t == 0) ->
  CloudFn.target_ratio target k ax (Some e)
  = Ok (match dict_get target k with Some t => [t / ax e] | None => [] end).
Proof.
  intros He Ht. unfold CloudFn.target_ratio.
  destruct (dict_get target k) as [t|]; [|reflexivity].
  destruct (num_truthy t) eqn:E.
  - destruct (Qlt_le_dec 0 (ax e)); [reflexivity | lra].
  - apply num_truthy_false in E. now apply Ht in E.
Qed.

(** With positive extents and non-zero targets the cloud function
    builds the same list of ratios. *)
Lemma target_scales_run (target : dict) (e : vec3) :
  0 < vx e -> 0 < vy e -> 0 < vz e ->
  (forall k t, dict_get target k = Some t -> ~ t == 0) ->
  CloudFn.target_scales target (Some e) = Ok (requested_ratios target e).
Proof.
  intros Hx Hy Hz Ht. unfold CloudFn.target_scales.
  rewrite !target_ratio_run by (try assumption; apply Ht).
  unfold requested_ratios, axes. cbn [flat_map fst snd].
  now rewrite app_nil_r.
Qed.

Lemma in_requested_ratios (target : dict) (e : vec3) (r : Q) :
  In r (requested_ratios target e) <->
  exists k ax t, In (k, ax) axes /\ dict_get target k = Some t /\ r = t / ax e.
Proof.
  unfold requested_ratios. rewrite in_flat_map. split.
  - intros ([k ax] & Hin & Hr). cbn [fst snd] in Hr.
    destruct (dict_get target k) as [t|] eqn:Ek; [|destruct Hr].
    destruct Hr as [<-|[]]. now exists k, ax, t.
  - intros (k & ax & t & Hin & Ek & ->). exists (k, ax). split; [exact Hin|].
    cbn [fst snd]. rewrite Ek. now left.
Qed.

(** C8, as the code has it.  On a mesh whose extents are all positive,
    with positive targets on at least one axis, both pipelines scale
    every vertex by one factor [f], the minimum over the requested axes
    of target / extent.  Every extent is multiplied by [f]; every
    requested axis ends at or below its target, and the axis with the
    smallest ratio ends on its target. *)
Theorem scale_to_target_takes_minimum (options : Options) (target : dict)
    (s : Run) (e : vec3) :
  opt_target_size options = Some target ->
  extents (mesh s) = Some e ->
  0 < vx e -> 0 < vy e -> 0 < vz e ->
  (forall k t, dict_get target k = Some t -> 0 < t) ->
  (exists k ax t, In (k, ax) axes /\ dict_get target k = Some t) ->
  exists f e',
    Script.apply_target_size target s = (scaled f s, Done f) /\
    Script.scaling_block options s
    = (logged [Str "scale_to_target:"; FmtQ ".4f" f] (scaled f s), Done tt) /\
    CloudFn.scaling_block options s
    = (logged [Str "scale:"; FmtQ ".3f" f] (scaled f s), Done tt) /\
    mesh (scaled f s) = apply_scale f (mesh s) /\
    extents (apply_scale f (mesh s)) = Some e' /\
    (vx e' == f * vx e /\ vy e' == f * vy e /\ vz e' == f * vz e) /\
    (forall k ax t, In (k, ax) axes -> dict_get target k = Some t ->
                    f <= t / ax e /\ ax e' <= t) /\
    (exists k ax t, In (k, ax) axes /\ dict_get target k = Some t /\
                    f == t / ax e /\ ax e' == t).
Proof.
  intros Ho He Hx Hy Hz Hpos (k0 & ax0 & t0 & Hin0 & Hk0).
  assert (Hb : exists lo hi, bounds (mesh s) = Some (lo, hi) /\ e = vsub lo hi).
  { unfold extents in He. destruct (bounds (mesh s)) as [[lo hi]|]; [|discriminate].
    injection He as <-. now exists lo, hi. }
  destruct Hb as (lo & hi & Hb & ->).
  assert (Hax : forall k ax, In (k, ax) axes -> 0 < ax (vsub lo hi)).
  { intros k ax [[= <- <-]|[[= <- <-]|[[= <- <-]|[]]]]; assumption. }
  (* the list of ratios is not empty *)
  destruct (requested_ratios target (vsub lo hi)) as [|x l] eqn:El.
  { assert (Hin : In (t0 / ax0 (vsub lo hi)) (requested_ratios target (vsub lo hi)))
      by (apply in_requested_ratios; now exists k0, ax0, t0).
    rewrite El in Hin. destruct Hin. }
  set (f := qmin_list x l).
  (* the minimum is one of the ratios, and below all of them *)
  destruct (qmin_list_attained l x) as (y & Hy_in & Hy_eq). fold f in Hy_eq.
  rewrite <- El in Hy_in.
  apply in_requested_ratios in Hy_in as (k1 & ax1 & t1 & Hin1 & Hk1 & ->).
  assert (Hle : forall k ax t, In (k, ax) axes -> dict_get target k = Some t ->
                               f <= t / ax (vsub lo hi)).
  { intros k ax t Hin Hk. unfold f. apply qmin_list_le. rewrite <- El.
    apply in_requested_ratios. now exists k, ax, t. }
  assert (Hf : 0 < f).
  { rewrite Hy_eq. apply Qlt_shift_div_l; [now apply (Hax k1)|].
    specialize (Hpos _ _ Hk1). lra. }
  destruct (extents_apply_scale f (mesh s) (vsub lo hi)) as (e' & He' & Ex & Ey & Ez);
    [lra | exact He |].
  assert (Hscaled : forall k ax, In (k, ax) axes -> ax e' == f * ax (vsub lo hi)).
  { intros k ax [[= <- <-]|[[= <- <-]|[[= <- <-]|[]]]]; assumption. }
  assert (Hscript : Script.apply_target_size target s = (scaled f s, Done f)).
  { rewrite (apply_target_size_run target s lo hi Hb) by lra. now rewrite El. }
  assert (Htruthy : dict_truthy target = true /\ any_not_none target = true).
  { split.
    - destruct (dict_truthy target) eqn:E; [reflexivity|].
      apply dict_truthy_empty in E. subst target.
      unfold dict_get in Hk0. now rewrite lookup_empty in Hk0.
    - destruct (any_not_none target) eqn:E; [reflexivity|].
      rewrite any_not_none_false in E. specialize (E k0). congruence. }
  destruct Htruthy as [Ht1 Ht2].
  exists f, e'. split; [exact Hscript|].
  split.
  { unfold Script.scaling_block, Script.target_requested.
    rewrite Ho, Ht1, Ht2. cbn [andb]. unfold bind. now rewrite Hscript. }
  split.
  { unfold CloudFn.scaling_block, CloudFn.present_dict. rewrite Ho, Ht1.
    unfold bind at 1, read. rewrite He.
    unfold bind at 1, eval. rewrite target_scales_run; try assumption.
    - rewrite El. reflexivity.
    - intros k t Hk. specialize (Hpos _ _ Hk). lra. }
  split; [reflexivity|].
  split; [exact He'|].
  split; [auto|].
  split.
  - intros k ax t Hin Hk. pose proof (Hle _ _ _ Hin Hk) as Hfk.
    split; [exact Hfk|].
    rewrite (Hscaled _ _ Hin). pose proof (Hax _ _ Hin) as Hpe.
    apply (Qmult_le_compat_r _ _ (ax (vsub lo hi))) in Hfk; [|lra].
    assert (Hd : t / ax (vsub lo hi) * ax (vsub lo hi) == t) by (field; lra).
    lra.
  - exists k1, ax1, t1. repeat split; try assumption.
    rewrite (Hscaled _ _ Hin1), Hy_eq. field.
    pose proof (Hax _ _ Hin1). lra.
Qed.

Lemma dict_get_size3 (w h d : option Q) (k : string) (t : Q) :
  dict_get (Demo.size3 w h d) k = Some t ->
  w = Some t \/ h = Some t \/ d = Some t.
Proof.
  unfold dict_get, Demo.size3.
  destruct (decide (k = "width"%string)) as [->|Hw].
  { rewrite lookup_insert_eq. destruct w; [intros [= ->]; auto | discriminate]. }
  rewrite lookup_insert_ne by congruence.
  destruct (decide (k = "height"%string)) as [->|Hh].
  { rewrite lookup_insert_eq. destruct h; [intros [= ->]; auto | discriminate]. }
  rewrite lookup_insert_ne by congruence.
  destruct (decide (k = "depth"%string)) as [->|Hd].
  { rewrite lookup_insert_eq. destruct d; [intros [= ->]; auto | discriminate]. }
  rewrite lookup_insert_ne by congruence.
  rewrite lookup_empty. discriminate.
Qed.

(** The 10 mm cube with a target width of 100: one factor for all
    three axes. *)
Lemma scale_to_target_takes_minimum_witness :
  exists f e',
    Script.apply_target_size (Demo.size3 (Some 100) None None) (start Demo.cube10)
    = (scaled f (start Demo.cube10), Done f) /\
    extents (apply_scale f Demo.cube10) = Some e' /\
    (vx e' == f * 10 /\ vy e' == f * 10 /\ vz e' == f * 10).
Proof.
  destruct (scale_to_target_takes_minimum
              (mkOptions None None None None
                 (Some (Demo.size3 (Some 100) None None)) None None)
              (Demo.size3 (Some 100) None None)
              (start Demo.cube10) (mkVec 10 10 10))
    as (f & e' & W1 & _ & _ & _ & W2 & W3 & _).
  - reflexivity.
  - reflexivity.
  - reflexivity.
  - reflexivity.
  - reflexivity.
  - intros k t Hk.
    destruct (dict_get_size3 _ _ _ _ _ Hk) as [[= <-]|[|]]; [reflexivity|discriminate..].
  - exists "width"%string, vx, 100. split; [cbn; auto | reflexivity].
  - exists f, e'. split; [exact W1|]. split; [exact W2 | exact W3].
Defined.

(** The end-to-end example of the spec: the cube ends at 100 mm on
    every axis. *)
Example cube_to_width_100 :
  exists s' f e',
    Script.apply_target_size (Demo.size3 (Some 100) None None) (start Demo.cube10)
    = (s', Done f) /\
    extents (mesh s') = Some e' /\
    f == 10 /\ vx e' == 100 /\ vy e' == 100 /\ vz e' == 100.
Proof.
  eexists _, _, _. split; [vm_compute; reflexivity|].
  split; [vm_compute; reflexivity|].
  repeat split; vm_compute; reflexivity.
Qed.

(** C8 fails on both pipelines: a 10 x 20 x 30 mm box with targets
    width 100 and height 100 is scaled by 5, the smaller ratio; the
    height reaches its target, the width ends at 50. *)
Lemma target_width_missed :
  dict_get (Demo.size3 (Some 100) (Some 100) None) "width" = Some 100 /\
  (exists s' f e',
     Script.apply_target_size (Demo.size3 (Some 100) (Some 100) None)
       (start (Demo.box 10 20 30)) = (s', Done f) /\
     extents (mesh s') = Some e' /\
     f == 5 /\ vx e' == 50 /\ vy e' == 100 /\ vz e' == 150) /\
  (exists s' e',
     CloudFn.scaling_block
       (mkOptions None None None None
          (Some (Demo.size3 (Some 100) (Some 100) None)) None None)
       (start (Demo.box 10 20 30)) = (s', Done tt) /\
     extents (mesh s') = Some e' /\
     vx e' == 50 /\ vy e' == 100 /\ vz e' == 150).
Proof.
  split; [vm_compute; reflexivity|]. split.
  - eexists _, _, _. split; [vm_compute; reflexivity|].
    split; [vm_compute; reflexivity|].
    repeat split; vm_compute; reflexivity.
  - eexists _, _. split; [vm_compute; reflexivity|].
    split; [vm_compute; reflexivity|].
    repeat split; vm_compute; reflexivity.
Qed.

(** * Fitting the print bed *)

(** C4 against the code: [fit_to_print_bed] of the script applies its
    factor whatever it is.  A 10 mm cube and a 200 mm bed give the
    factor 19, and every extent grows from 10 to 190. *)
Theorem script_fit_to_print_bed_enlarges :
  extents Demo.cube10 = Some (mkVec (10 - 0) (10 - 0) (10 - 0)) /\
  (exists s' f e',
     Script.fit_to_print_bed (Demo.size3 (Some 200) (Some 200) (Some 200))
       (start Demo.cube10) = (s', Done f) /\
     extents (mesh s') = Some e' /\
     f == 19 /\ vx e' == 190 /\ vy e' == 190 /\ vz e' == 190) /\
  (exists r f e',
     @Script.optimize_mesh (Demo.library true false)
       (mkOptions None None None None None None
          (Some (Demo.size3 (Some 200) (Some 200) (Some 200))))
       "glb" Demo.cube10 = Some r /\
     Script.success r = true /\
     operations (Script.recorded r)
     = [lit "remove_degenerate_faces"; lit "fill_holes"; lit "fix_normals";
        lit "watertight_repair"; [Str "fit_to_bed:"; FmtQ ".4f" f];
        lit "center_and_ground"] /\
     extents (mesh (Script.recorded r)) = Some e' /\
     f == 19 /\ vx e' == 190 /\ vy e' == 190 /\ vz e' == 190).
Proof.
  split; [reflexivity|]. split.
  - eexists _, _, _. split; [vm_compute; reflexivity|].
    split; [vm_compute; reflexivity|].
    repeat split; vm_compute; reflexivity.
  - eexists _, _, _. split; [vm_compute; reflexivity|].
    split; [vm_compute; reflexivity|].
    split; [vm_compute; reflexivity|].
    split; [vm_compute; reflexivity|].
    repeat split; vm_compute; reflexivity.
Qed.

Lemma bed_ratio_nonneg (bed : dict) (k : string) (ax : vec3 -> Q) (e : vec3) (r : Q) :
  (forall k b, bed !! k = Some (Some b) -> 0 <= b) ->
  CloudFn.bed_ratio bed k ax (Some e) = Ok r -> 0 <= r.
Proof.
  intros Hbed. unfold CloudFn.bed_ratio, dict_item.
  destruct (Qlt_le_dec 0 (ax e)) as [Hpos|_]; [|intros [= <-]; lra].
  destruct (bed !! k) as [[b|]|] eqn:Ek; [|discriminate..].
  intros [= <-]. specialize (Hbed _ _ Ek).
  apply Qle_shift_div_l; [exact Hpos|]. unfold margin. nra.
Qed.

(** The print-bed branch of [main.py], the sibling of the script's
    [fit_to_print_bed], does keep every extent at or below what it was,
    for a bed whose sizes are not negative. *)
Lemma cloud_fit_bed_never_grows (options : Options) (bed : dict) (s s' : Run) (e : vec3) :
  CloudFn.present_dict (opt_target_size options) = None ->
  CloudFn.present_number (opt_uniform_scale options) = None ->
  opt_print_bed_size options = Some bed ->
  (forall k b, bed !! k = Some (Some b) -> 0 <= b) ->
  extents (mesh s) = Some e ->
  CloudFn.scaling_block options s = (s', Done tt) ->
  exists e', extents (mesh s') = Some e' /\
             vx e' <= vx e /\ vy e' <= vy e /\ vz e' <= vz e.
Proof.
  intros Ht Hu Hb Hbed He. unfold CloudFn.scaling_block.
  rewrite Ht, Hu, Hb. unfold CloudFn.present_dict.
  assert (Hsame : exists e', extents (mesh s) = Some e' /\
                    vx e' <= vx e /\ vy e' <= vy e /\ vz e' <= vz e)
    by (exists e; repeat split; [exact He | lra..]).
  destruct (dict_truthy bed); [|intros E; apply ret_done in E as [-> _]; exact Hsame].
  intros E. bind_inv E as s1 ce E1. apply read_done in E1 as [-> ->].
  bind_inv E as s2 scales E2. apply eval_done in E2 as [-> Hsc].
  rewrite He in Hsc.
  destruct (Qlt_le_dec _ 1) as [Hlt|_];
    [|apply ret_done in E as [-> _]; exact Hsame].
  bind_inv E as s3 u Eu. apply update_done in Eu as ->.
  apply append_operation_done in E as ->.
  cbn [logged append_operation update fst mesh].
  unfold CloudFn.bed_scales in Hsc.
  destruct (CloudFn.bed_ratio bed "width" vx (Some e)) as [sw|] eqn:Ew; [|discriminate].
  destruct (CloudFn.bed_ratio bed "height" vy (Some e)) as [sh|] eqn:Eh; [|discriminate].
  destruct (CloudFn.bed_ratio bed "depth" vz (Some e)) as [sd|] eqn:Ed; [|discriminate].
  injection Hsc as <-. cbn [fst snd] in *.
  apply bed_ratio_nonneg in Ew, Eh, Ed; try exact Hbed.
  set (f := qmin_list sw [sh; sd]) in *.
  assert (Hf : 0 <= f).
  { destruct (qmin_list_attained [sh; sd] sw) as (y & Hin & Hy). fold f in Hy.
    rewrite Hy. destruct Hin as [<-|[<-|[<-|[]]]]; assumption. }
  destruct (extents_apply_scale f (mesh s) e Hf He) as (e' & He' & Ex & Ey & Ez).
  destruct (extents_nonneg _ _ He) as (Hx & Hy & Hz).
  exists e'. split; [exact He'|]. rewrite Ex, Ey, Ez. repeat split; nra.
Qed.

(** * Centring and grounding *)

Lemma qmin_list_shift (c : Q) (l : list Q) (x : Q) :
  qmin_list (x - c) (map (fun y => y - c) l) == qmin_list x l - c.
Proof.
  revert x. induction l as [|y l IH]; intros x; cbn [map qmin_list]; [reflexivity|].
  rewrite <- IH. apply qmin_list_compat. unfold Qminus. apply Q.plus_min_distr_r.
Qed.

Lemma qmax_list_shift (c : Q) (l : list Q) (x : Q) :
  qmax_list (x - c) (map (fun y => y - c) l) == qmax_list x l - c.
Proof.
  revert x. induction l as [|y l IH]; intros x; cbn [map qmax_list]; [reflexivity|].
  rewrite <- IH. apply qmax_list_compat. unfold Qminus. apply Q.plus_max_distr_r.
Qed.

Lemma map_axis_vsub (c : vec3) (vs : list vec3) :
  map vx (map (vsub c) vs) = map (fun y => y - vx c) (map vx vs) /\
  map vy (map (vsub c) vs) = map (fun y => y - vy c) (map vy vs) /\
  map vz (map (vsub c) vs) = map (fun y => y - vz c) (map vz vs).
Proof.
  induction vs as [|v vs (IHx & IHy & IHz)]; cbn [map]; [auto|].
  rewrite IHx, IHy, IHz. auto.
Qed.

Lemma map_axis_vlower (dz : Q) (vs : list vec3) :
  map vx (map (vlower dz) vs) = map vx vs /\
  map vy (map (vlower dz) vs) = map vy vs /\
  map vz (map (vlower dz) vs) = map (fun y => y - dz) (map vz vs).
Proof.
  induction vs as [|v vs (IHx & IHy & IHz)]; cbn [map]; [auto|].
  rewrite IHx, IHy, IHz. auto.
Qed.

(** Moving every vertex by [c] moves both corners of the bounds by [c]. *)
Lemma bounds_translate (c : vec3) (m : Mesh) (lo hi : vec3) :
  bounds m = Some (lo, hi) ->
  exists lo' hi', bounds (translate c m) = Some (lo', hi') /\
                  veq lo' (vsub c lo) /\ veq hi' (vsub c hi).
Proof.
  unfold bounds, translate. cbn [vertices].
  destruct (vertices m) as [|v vs]; [discriminate|].
  intros [= <- <-]. cbn [map]. eexists _, _. split; [reflexivity|].
  destruct (map_axis_vsub c vs) as (-> & -> & ->).
  unfold veq. cbn [vsub vx vy vz].
  rewrite !qmin_list_shift, !qmax_list_shift. repeat split; reflexivity.
Qed.

Lemma bounds_lower_z (dz : Q) (m : Mesh) (lo hi : vec3) :
  bounds m = Some (lo, hi) ->
  exists lo' hi', bounds (lower_z dz m) = Some (lo', hi') /\
                  veq lo' (vlower dz lo) /\ veq hi' (vlower dz hi).
Proof.
  unfold bounds, lower_z. cbn [vertices].
  destruct (vertices m) as [|v vs]; [discriminate|].
  intros [= <- <-]. cbn [map]. eexists _, _. split; [reflexivity|].
  destruct (map_axis_vlower dz vs) as (-> & -> & ->).
  unfold veq. cbn [vlower vx vy vz].
  rewrite !qmin_list_shift, !qmax_list_shift. repeat split; reflexivity.
Qed.

(** X1.  Centring and grounding (the centring block of [main.py],
    [center_mesh] of the script) returns on every mesh that has
    vertices, whatever centroid the library reports: afterwards the
    lower bound along z is 0, every extent is what it was, the faces
    and both logs are untouched.  On a mesh without vertices it raises,
    after the subtraction of the centroid. *)
Theorem centre_and_ground_result `{Trimesh} (s : Run) :
  (forall e, extents (mesh s) = Some e ->
     exists s' lo hi,
       centre_and_ground s = (s', Done tt) /\
       bounds (mesh s') = Some (lo, hi) /\
       vz lo == 0 /\
       veq (vsub lo hi) e /\
       faces (mesh s') = faces (mesh s) /\
       operations s' = operations s /\ warnings s' = warnings s) /\
  (extents (mesh s) = None ->
     centre_and_ground s
     = (fst (update (translate (centroid (mesh s))) s),
        Raised "'NoneType' object is not subscriptable")).
Proof.
  split.
  - intros e He. unfold extents in He.
    destruct (bounds (mesh s)) as [[lo0 hi0]|] eqn:Hb; [|discriminate].
    injection He as <-.
    destruct (bounds_translate (centroid (mesh s)) _ _ _ Hb)
      as (lo1 & hi1 & Hb1 & (Lx & Ly & Lz) & (Ux & Uy & Uz)).
    destruct (bounds_lower_z (vz lo1) _ _ _ Hb1)
      as (lo2 & hi2 & Hb2 & (Lx2 & Ly2 & Lz2) & (Ux2 & Uy2 & Uz2)).
    exists (fst (update (lower_z (vz lo1))
                   (fst (update (translate (centroid (mesh s))) s)))), lo2, hi2.
    split.
    { unfold centre_and_ground, bind, read, update. cbn [mesh fst].
      rewrite Hb1. reflexivity. }
    cbn [update fst mesh operations warnings].
    split; [exact Hb2|].
    cbn [vlower vsub vx vy vz] in *.
    split; [rewrite Lz2; ring|].
    split; [|repeat split].
    unfold veq. cbn [vsub vx vy vz].
    rewrite Lx2, Ly2, Lz2, Ux2, Uy2, Uz2, Lx, Ly, Lz, Ux, Uy, Uz.
    repeat split; ring.
  - intros He. unfold extents in He.
    destruct (bounds (mesh s)) as [[lo0 hi0]|] eqn:Hb; [discriminate|].
    assert (Hb1 : bounds (translate (centroid (mesh s)) (mesh s)) = None).
    { unfold bounds, translate in *. cbn [vertices].
      destruct (vertices (mesh s)); [reflexivity | discriminate]. }
    unfold centre_and_ground, bind, read, update. cbn [mesh fst].
    rewrite Hb1. reflexivity.
Qed.

Lemma centre_and_ground_result_witness :
  exists s' lo hi,
    @centre_and_ground (Demo.library true false) (start (Demo.box 10 20 30))
    = (s', Done tt) /\
    bounds (mesh s') = Some (lo, hi) /\ vz lo == 0 /\
    veq (vsub lo hi) (mkVec 10 20 30).
Proof.
  destruct (@centre_and_ground_result (Demo.library true false)
              (start (Demo.box 10 20 30))) as [W _].
  destruct (W (mkVec 10 20 30) eq_refl) as (s' & lo & hi & E & Hb & Hz & He & _).
  exists s', lo, hi. auto.
Defined.

(** * Fitting the print bed: what the two versions guarantee *)

Lemma dict_item_found (d : dict) (k : string) (b : Q) :
  d !! k = Some (Some b) -> dict_item d k = Ok b.
Proof. unfold dict_item. now intros ->. Qed.

(** X2.  [fit_to_print_bed] of the script, on a mesh whose extents are
    all positive and a bed whose three sizes are positive: it returns,
    the factor is positive, and afterwards every extent is at most 95%
    of the bed on its axis, with equality on one axis at least. *)
Theorem script_fit_to_print_bed_fits (bed : dict) (s : Run) (e : vec3) (bw bh bd : Q) :
  extents (mesh s) = Some e ->
  0 < vx e -> 0 < vy e -> 0 < vz e ->
  bed !! "width"%string = Some (Some bw) ->
  bed !! "height"%string = Some (Some bh) ->
  bed !! "depth"%string = Some (Some bd) ->
  0 < bw -> 0 < bh -> 0 < bd ->
  exists f e',
    Script.fit_to_print_bed bed s = (scaled f s, Done f) /\
    0 < f /\
    extents (mesh (scaled f s)) = Some e' /\
    (vx e' <= margin * bw /\ vy e' <= margin * bh /\ vz e' <= margin * bd) /\
    (vx e' == margin * bw \/ vy e' == margin * bh \/ vz e' == margin * bd).
Proof.
  intros He Hx Hy Hz Hw Hh Hd Pw Ph Pd.
  assert (Hb : exists lo hi, bounds (mesh s) = Some (lo, hi) /\ e = vsub lo hi).
  { unfold extents in He. destruct (bounds (mesh s)) as [[lo hi]|]; [|discriminate].
    injection He as <-. now exists lo, hi. }
  destruct Hb as (lo & hi & Hb & ->).
  set (e := vsub lo hi) in *.
  set (m := qmin_list (bw / vx e) [bh / vy e; bd / vz e]).
  assert (Hrun : Script.fit_to_print_bed bed s
                 = (scaled (m * margin) s, Done (m * margin))).
  { unfold Script.fit_to_print_bed. unfold bind at 1, read. rewrite Hb.
    unfold bind at 1, eval. rewrite (dict_item_found _ _ _ Hw).
    unfold bind at 1. rewrite divide_run by (fold e; lra).
    unfold bind at 1, eval. rewrite (dict_item_found _ _ _ Hh).
    unfold bind at 1. rewrite divide_run by (fold e; lra).
    unfold bind at 1, eval. rewrite (dict_item_found _ _ _ Hd).
    unfold bind at 1. rewrite divide_run by (fold e; lra).
    reflexivity. }
  assert (Rw : 0 < bw / vx e) by (apply Qlt_shift_div_l; lra).
  assert (Rh : 0 < bh / vy e) by (apply Qlt_shift_div_l; lra).
  assert (Rd : 0 < bd / vz e) by (apply Qlt_shift_div_l; lra).
  assert (Dw : bw / vx e * vx e == bw) by (field; lra).
  assert (Dh : bh / vy e * vy e == bh) by (field; lra).
  assert (Dd : bd / vz e * vz e == bd) by (field; lra).
  pose proof (qmin_list_le [bh / vy e; bd / vz e] (bw / vx e) (bw / vx e)
                ltac:(cbn; auto)) as Lw.
  pose proof (qmin_list_le [bh / vy e; bd / vz e] (bw / vx e) (bh / vy e)
                ltac:(cbn; auto)) as Lh.
  pose proof (qmin_list_le [bh / vy e; bd / vz e] (bw / vx e) (bd / vz e)
                ltac:(cbn; auto)) as Ld.
  fold m in Lw, Lh, Ld.
  destruct (qmin_list_attained [bh / vy e; bd / vz e] (bw / vx e)) as (y & Hin & Hm).
  fold m in Hm.
  assert (Pm : 0 < m).
  { rewrite Hm. destruct Hin as [<-|[<-|[<-|[]]]]; assumption. }
  assert (Pf : 0 < m * margin) by (unfold margin; nra).
  destruct (extents_apply_scale (m * margin) (mesh s) e) as (e' & He' & Ex & Ey & Ez);
    [lra | exact He |].
  exists (m * margin), e'. split; [exact Hrun|]. split; [exact Pf|].
  split; [exact He'|].
  unfold margin in *. split.
  - rewrite Ex, Ey, Ez. repeat split; nra.
  - rewrite Ex, Ey, Ez.
    destruct Hin as [<-|[<-|[<-|[]]]]; [left | right; left | right; right];
      rewrite Hm; nra.
Qed.

Lemma script_fit_to_print_bed_fits_witness :
  exists f e',
    Script.fit_to_print_bed (Demo.size3 (Some 200) (Some 150) (Some 100))
      (start (Demo.box 10 20 30)) = (scaled f (start (Demo.box 10 20 30)), Done f) /\
    0 < f /\
    extents (mesh (scaled f (start (Demo.box 10 20 30)))) = Some e' /\
    (vx e' <= margin * 200 /\ vy e' <= margin * 150 /\ vz e' <= margin * 100).
Proof.
  destruct (script_fit_to_print_bed_fits
              (Demo.size3 (Some 200) (Some 150) (Some 100))
              (start (Demo.box 10 20 30)) (mkVec 10 20 30) 200 150 100)
    as (f & e' & W1 & W2 & W3 & W4 & _); try reflexivity.
  exists f, e'. split; [exact W1|]. split; [exact W2|]. split; [exact W3 | exact W4].
Defined.

Lemma bed_ratio_run (bed : dict) (k : string) (ax : vec3 -> Q) (e : vec3) (b : Q) :
  0 < ax e -> bed !! k = Some (Some b) ->
  CloudFn.bed_ratio bed k ax (Some e) = Ok (b * margin / ax e).
Proof.
  intros He Hb. unfold CloudFn.bed_ratio.
  destruct (Qlt_le_dec 0 (ax e)); [|lra].
  now rewrite (dict_item_found _ _ _ Hb).
Qed.

(** X3.  The print-bed branch of [main.py] (no target size, no uniform
    scale in force), on a mesh whose extents are all positive and a bed
    whose three sizes are not negative: the block returns; afterwards
    every extent is at most 95% of the bed on its axis and at most what
    it was; a mesh that already fits within the 95% is left as it is,
    with nothing logged. *)
Theorem cloud_fit_bed_fits (options : Options) (bed : dict) (s : Run) (e : vec3)
    (bw bh bd : Q) :
  CloudFn.present_dict (opt_target_size options) = None ->
  CloudFn.present_number (opt_uniform_scale options) = None ->
  opt_print_bed_size options = Some bed ->
  extents (mesh s) = Some e ->
  0 < vx e -> 0 < vy e -> 0 < vz e ->
  bed !! "width"%string = Some (Some bw) ->
  bed !! "height"%string = Some (Some bh) ->
  bed !! "depth"%string = Some (Some bd) ->
  0 <= bw -> 0 <= bh -> 0 <= bd ->
  exists s' e',
    CloudFn.scaling_block options s = (s', Done tt) /\
    extents (mesh s') = Some e' /\
    (vx e' <= margin * bw /\ vy e' <= margin * bh /\ vz e' <= margin * bd) /\
    (vx e' <= vx e /\ vy e' <= vy e /\ vz e' <= vz e) /\
    (vx e <= margin * bw -> vy e <= margin * bh -> vz e <= margin * bd -> s' = s).
Proof.
  intros Ht Hu Hbed He Hx Hy Hz Hw Hh Hd Pw Ph Pd.
  assert (Hne : dict_truthy bed = true).
  { destruct (dict_truthy bed) eqn:E; [reflexivity|].
    apply dict_truthy_empty in E. subst bed. now rewrite lookup_empty in Hw. }
  set (rw := bw * margin / vx e). set (rh := bh * margin / vy e).
  set (rd := bd * margin / vz e).
  set (f := qmin_list rw [rh; rd]).
  assert (Dw : rw * vx e == bw * margin) by (unfold rw; field; lra).
  assert (Dh : rh * vy e == bh * margin) by (unfold rh; field; lra).
  assert (Dd : rd * vz e == bd * margin) by (unfold rd; field; lra).
  pose proof (qmin_list_le [rh; rd] rw rw ltac:(cbn; auto)) as Lw.
  pose proof (qmin_list_le [rh; rd] rw rh ltac:(cbn; auto)) as Lh.
  pose proof (qmin_list_le [rh; rd] rw rd ltac:(cbn; auto)) as Ld.
  fold f in Lw, Lh, Ld.
  destruct (qmin_list_attained [rh; rd] rw) as (y & Hin & Hm). fold f in Hm.
  assert (Pf : 0 <= f).
  { rewrite Hm.
    destruct Hin as [<-|[<-|[<-|[]]]]; apply Qle_shift_div_l; unfold margin; nra. }
  assert (Hrun : CloudFn.scaling_block options s
                 = if Qlt_le_dec f 1
                   then (logged [Str "fit_bed:"; FmtQ ".3f" f] (scaled f s), Done tt)
                   else (s, Done tt)).
  { unfold CloudFn.scaling_block. rewrite Ht, Hu, Hbed.
    unfold CloudFn.present_dict. rewrite Hne.
    unfold bind at 1, read. rewrite He.
    unfold bind at 1, eval, CloudFn.bed_scales.
    rewrite (bed_ratio_run bed _ vx e bw Hx Hw), (bed_ratio_run bed _ vy e bh Hy Hh),
      (bed_ratio_run bed _ vz e bd Hz Hd).
    cbn [fst snd]. fold rw rh rd f.
    destruct (Qlt_le_dec f 1); reflexivity. }
  rewrite Hrun. unfold margin in *.
  destruct (Qlt_le_dec f 1) as [Hlt|Hge].
  - destruct (extents_apply_scale f (mesh s) e Pf He) as (e' & He' & Ex & Ey & Ez).
    eexists _, e'. split; [reflexivity|]. split; [exact He'|].
    rewrite Ex, Ey, Ez. repeat split; try nra.
    intros Fx Fy Fz. exfalso.
    destruct Hin as [<-|[<-|[<-|[]]]]; nra.
  - exists s, e. split; [reflexivity|]. split; [exact He|].
    repeat split; nra.
Qed.

(** A 100 x 200 x 300 mm box on a 200 mm bed is scaled down; every
    extent ends within 190 mm. *)
Lemma cloud_fit_bed_fits_witness :
  exists s' e',
    CloudFn.scaling_block
      (mkOptions None None None None None None
         (Some (Demo.size3 (Some 200) (Some 200) (Some 200))))
      (start (Demo.box 100 200 300)) = (s', Done tt) /\
    extents (mesh s') = Some e' /\
    (vx e' <= margin * 200 /\ vy e' <= margin * 200 /\ vz e' <= margin * 200).
Proof.
  destruct (cloud_fit_bed_fits
              (mkOptions None None None None None None
                 (Some (Demo.size3 (Some 200) (Some 200) (Some 200))))
              (Demo.size3 (Some 200) (Some 200) (Some 200))
              (start (Demo.box 100 200 300)) (mkVec 100 200 300) 200 200 200)
    as (s' & e' & W1 & W2 & W3 & _);
    [reflexivity | reflexivity | reflexivity | reflexivity
    | reflexivity | reflexivity | reflexivity
    | reflexivity | reflexivity | reflexivity
    | discriminate | discriminate | discriminate |].
  exists s', e'. split; [exact W1|]. split; [exact W2 | exact W3].
Defined.

(** * What a run keeps *)

Lemma extends_refl (s : Run) : extends s s.
Proof. unfold extends. repeat split; reflexivity. Qed.

Lemma extends_trans (s1 s2 s3 : Run) : extends s1 s2 -> extends s2 s3 -> extends s1 s3.
Proof.
  unfold extends. intros (A1 & A2 & A3 & A4 & A5) (B1 & B2 & B3 & B4 & B5).
  repeat split; try congruence; etransitivity; eassumption.
Qed.

Lemma append_only_ret {A} (a : A) : append_only (ret a).
Proof. intros s. apply extends_refl. Qed.

Lemma append_only_raise {A} (e : string) : append_only (@raise Run A e).
Proof. intros s. apply extends_refl. Qed.

Lemma append_only_read {A} (f : Mesh -> A) : append_only (read f).
Proof. intros s. apply extends_refl. Qed.

Lemma append_only_eval {A} (r : result A) : append_only (@eval Run A r).
Proof. intros s. apply extends_refl. Qed.

Lemma append_only_compute {A} (f : Mesh -> result A) : append_only (compute f).
Proof. intros s. apply extends_refl. Qed.

Lemma append_only_update (f : Mesh -> Mesh) : append_only (update f).
Proof. intros s. unfold extends. cbn. repeat split; reflexivity. Qed.

Lemma append_only_call (f : Mesh -> Mesh * result unit) : append_only (call f).
Proof.
  intros s. unfold call. destruct (f (mesh s)) as [m' r].
  unfold extends. cbn. repeat split; reflexivity.
Qed.

Lemma append_only_append_operation (t : text) : append_only (append_operation t).
Proof.
  intros s. unfold extends. cbn. repeat split; try reflexivity.
  now apply prefix_app_r.
Qed.

Lemma append_only_append_warning (w : string) : append_only (append_warning w).
Proof.
  intros s. unfold extends. cbn. repeat split; try reflexivity.
  now apply prefix_app_r.
Qed.

Lemma append_only_set_optimized (st : Stats) : append_only (set_optimized st).
Proof. intros s. unfold extends. cbn. repeat split; reflexivity. Qed.

Lemma append_only_bind {A B} (c : stmt Run A) (k : A -> stmt Run B) :
  append_only c -> (forall a, append_only (k a)) -> append_only (bind c k).
Proof.
  intros Hc Hk s. unfold bind. specialize (Hc s).
  destruct (c s) as [s1 [a|e|]]; cbn [fst] in *; [|assumption..].
  eapply extends_trans; [exact Hc | apply Hk].
Qed.

Lemma append_only_try {A} (body : stmt Run A) (handler : string -> stmt Run A) :
  append_only body -> (forall e, append_only (handler e)) ->
  append_only (try_except body handler).
Proof.
  intros Hb Hh s. unfold try_except. specialize (Hb s).
  destruct (body s) as [s1 [a|e|]]; cbn [fst] in *; [assumption| |assumption].
  eapply extends_trans; [exact Hb | apply Hh].
Qed.

Lemma append_only_when (b : bool) (c : stmt Run unit) :
  append_only c -> append_only (when b c).
Proof. destruct b; [auto|]. intros _. apply append_only_ret. Qed.

Lemma append_only_divide (a b : Q) : append_only (Script.divide a b).
Proof. intros s. unfold Script.divide. destruct (Qeq_bool b 0); apply extends_refl. Qed.

(** One step of the search: a rule for the head of the statement, or a
    case split on what it tests. *)
Ltac grow_step :=
  first
    [ apply append_only_ret | apply append_only_raise | apply append_only_read
    | apply append_only_eval | apply append_only_compute | apply append_only_update
    | apply append_only_call | apply append_only_append_operation
    | apply append_only_append_warning | apply append_only_set_optimized
    | apply append_only_divide
    | apply append_only_when
    | apply append_only_bind; [|intros ?]
    | apply append_only_try; [|intros ?]
    | match goal with
      | |- append_only (match ?x with _ => _ end) => destruct x
      | |- append_only (if ?x then _ else _) => destruct x
      | |- append_only (let _ := _ in _) => cbv zeta
      end ].

Ltac grow := repeat grow_step.

Section Kept.
Context `{Trimesh}.

Lemma append_only_centre : append_only centre_and_ground.
Proof. unfold centre_and_ground. grow. Qed.

Lemma append_only_cloud_repairs (options : Options) :
  append_only (CloudFn.repair_stage options).
Proof.
  unfold CloudFn.repair_stage, CloudFn.fill_holes_block, CloudFn.fix_normals_block,
    CloudFn.make_watertight_block, CloudFn.fill_holes_body, CloudFn.fix_normals_body,
    CloudFn.make_watertight_body.
  grow.
Qed.

Lemma append_only_cloud_scaling (options : Options) :
  append_only (CloudFn.scaling_block options).
Proof. unfold CloudFn.scaling_block. grow. Qed.

Lemma append_only_cloud_transforms (options : Options) :
  append_only (CloudFn.transform_stage options).
Proof.
  unfold CloudFn.transform_stage, CloudFn.center_block.
  apply append_only_bind; [|intros ?; apply append_only_cloud_scaling].
  apply append_only_when, append_only_bind;
    [apply append_only_centre | intros ?; grow].
Qed.

Lemma append_only_cloud_finish (fmt : string) : append_only (CloudFn.finish fmt).
Proof. unfold CloudFn.finish. grow. Qed.

Lemma append_only_script_repairs (options : Options) :
  append_only (Script.repair_stage options).
Proof.
  unfold Script.repair_stage, Script.remove_degenerate_block, Script.fill_holes_block,
    Script.fix_normals_block, Script.watertight_block, Script.remove_degenerate_body,
    Script.fill_holes_body, Script.fix_normals_body, Script.watertight_body.
  grow.
Qed.

Lemma append_only_script_scaling (options : Options) :
  append_only (Script.scaling_block options).
Proof.
  unfold Script.scaling_block, Script.apply_target_size, Script.fit_to_print_bed,
    Script.size_ratio.
  grow.
Qed.

Lemma append_only_script_transforms (options : Options) :
  append_only (Script.transform_stage options).
Proof.
  unfold Script.transform_stage, Script.center_block, Script.center_mesh.
  apply append_only_bind; [apply append_only_script_scaling | intros ?].
  apply append_only_when, append_only_bind;
    [apply append_only_centre | intros ?; grow].
Qed.

Lemma append_only_script_finish (ext : string) : append_only (Script.finish ext).
Proof. unfold Script.finish, Script.export_block. grow. Qed.

End Kept.

(** * What the script's result holds *)

Lemma compute_done {A} (f : Mesh -> result A) (s s' : Run) (a : A) :
  compute f s = (s', Done a) -> s' = s /\ f (mesh s) = Ok a.
Proof. unfold compute. apply eval_done. Qed.

Lemma bind_assoc {A B C} (c : stmt Run A) (k : A -> stmt Run B)
    (k' : B -> stmt Run C) (s : Run) :
  bind (bind c k) k' s = bind c (fun a => bind (k a) k') s.
Proof. unfold bind. destruct (c s) as [s1 [a|e|]]; reflexivity. Qed.

Lemma bind_run {A B} (c : stmt Run A) (k : A -> stmt Run B) (s s1 : Run) (a : A) :
  c s = (s1, Done a) -> bind c k s = k a s1.
Proof. unfold bind. now intros ->. Qed.

Section ScriptResult.
Context `{Trimesh}.

Lemma remove_degenerate_first (s : Run) :
  exists s1,
    Script.remove_degenerate_block s = (s1, Done tt) /\
    ((operations s1 = operations s ++ [lit "remove_degenerate_faces"] /\
      warnings s1 = warnings s) \/
     (exists e, warnings s1
                = warnings s ++ ["remove_degenerate_faces failed: " ++ e]%string /\
                operations s1 = operations s)).
Proof.
  unfold Script.remove_degenerate_block, try_except, Script.remove_degenerate_body,
    bind, call.
  destruct (remove_degenerate_faces (mesh s)) as [m' [[]|e]]; cbn.
  - eexists. split; [reflexivity|]. left. split; reflexivity.
  - eexists. split; [reflexivity|]. right. exists e. split; reflexivity.
Qed.

Lemma script_finish_done (ext : string) (s s' : Run) (data : string) :
  Script.finish ext s = (s', Done data) -> optimized s' <> None.
Proof.
  unfold Script.finish. intros E.
  bind_inv E as s1 st E1. apply compute_done in E1 as [-> _].
  bind_inv E as s2 u E2. unfold set_optimized in E2. injection E2 as <- _.
  assert (Hs : s' = mkRun (mesh s) (original s) (Some st) (found_issues s)
                 (found_recommendations s) (operations s) (warnings s)).
  { unfold Script.export_block in E.
    destruct (String.eqb ext "stl");
      [|destruct (String.eqb ext "glb" || String.eqb ext "gltf")];
      apply compute_done in E as [-> _]; reflexivity. }
  rewrite Hs. discriminate.
Qed.

(** X4.  The [result] of [optimize_mesh] in the script keeps what was
    recorded before a failure.  It reports success exactly when it has
    no error, and exactly then the output format.  When the first
    statistics raise, nothing else was done.  Otherwise, whether the
    run succeeds or fails, the result carries the original statistics
    and the issues and recommendations found before the repairs, and
    its first record is that of the removal of degenerate faces, which
    no option switches off: the entry "remove_degenerate_faces" opens
    the operations, or its failure opens the warnings.  A successful
    result carries the statistics of the optimized mesh. *)
Theorem script_result_keeps_records (options : Options) (ext : string)
    (m : Mesh) (r : Script.Result) :
  Script.optimize_mesh options ext m = Some r ->
  (Script.success r = true <-> Script.error r = None) /\
  (Script.success r = true <-> Script.written_format r = Some ext) /\
  (forall e, Script.get_mesh_stats m = Raise e ->
     Script.success r = false /\ Script.error r = Some e /\
     Script.recorded r = start m) /\
  (forall st, Script.get_mesh_stats m = Ok st ->
     original (Script.recorded r) = Some st /\
     found_issues (Script.recorded r) = fst (Script.analyze_mesh_issues m) /\
     found_recommendations (Script.recorded r) = snd (Script.analyze_mesh_issues m) /\
     ([lit "remove_degenerate_faces"] `prefix_of` operations (Script.recorded r) \/
      exists e, ["remove_degenerate_faces failed: " ++ e]%string
                  `prefix_of` warnings (Script.recorded r))) /\
  (Script.success r = true -> optimized (Script.recorded r) <> None).
Proof.
  unfold Script.optimize_mesh.
  destruct (Script.pipeline options ext (start m)) as [s' o] eqn:E.
  intros Hr.
  assert (Hshape : (Script.success r = true <-> Script.error r = None) /\
                   (Script.success r = true <-> Script.written_format r = Some ext)).
  { destruct o; try discriminate; injection Hr as <-; cbn;
      repeat split; intros; congruence. }
  destruct Hshape as [Hs1 Hs2]. split; [exact Hs1|]. split; [exact Hs2|].
  split; [|split].
  - intros e He. unfold Script.pipeline, bind at 1, compute, eval in E.
    cbn [start mesh] in E. rewrite He in E. injection E as <- <-.
    injection Hr as <-. cbn. auto.
  - intros st Hst.
    set (s2 := mkRun m (Some st) None (fst (Script.analyze_mesh_issues m))
                 (snd (Script.analyze_mesh_issues m)) [] []).
    assert (E2 : bind (Script.repair_stage options)
                   (fun _ => bind (Script.transform_stage options)
                               (fun _ => Script.finish ext)) s2 = (s', o)).
    { rewrite <- E. unfold Script.pipeline. unfold bind at 3, compute, eval.
      cbn [start mesh]. rewrite Hst. reflexivity. }
    destruct (remove_degenerate_first s2) as (s3 & E3 & Hfirst).
    assert (Hext : extends s3 s').
    { unfold Script.repair_stage in E2. rewrite bind_assoc in E2.
      rewrite (bind_run _ _ _ _ _ E3) in E2.
      replace s' with (fst (s', o)) by reflexivity. rewrite <- E2.
      apply append_only_bind.
      { unfold Script.fill_holes_block, Script.fill_holes_body,
          Script.fix_normals_block, Script.fix_normals_body,
          Script.watertight_block, Script.watertight_body. grow. }
      intros ?. apply append_only_bind; [apply append_only_script_transforms|].
      intros ?. apply append_only_script_finish. }
    assert (Hext3 : extends s2 s3).
    { replace s3 with (fst (Script.remove_degenerate_block s2)) by now rewrite E3.
      unfold Script.remove_degenerate_block, Script.remove_degenerate_body.
      assert (A : append_only
                    (try_except
                       (bind (call remove_degenerate_faces)
                          (fun _ => append_operation (lit "remove_degenerate_faces")))
                       (fun e => append_warning
                                   ("remove_degenerate_faces failed: " ++ e)%string)))
        by grow.
      apply A. }
    destruct (extends_trans _ _ _ Hext3 Hext) as (_ & _ & Ho & Hi & Hrec).
    destruct Hext as (Pops & Pwarn & _).
    assert (Hrec' : Script.recorded r = s')
      by (destruct o; try discriminate; injection Hr as <-; reflexivity).
    rewrite Hrec'. split; [exact Ho|]. split; [exact Hi|]. split; [exact Hrec|].
    cbn [s2 operations warnings] in Hfirst.
    destruct Hfirst as [[Hops _]|(e & Hw & _)].
    + left. rewrite Hops in Pops. exact Pops.
    + right. exists e. rewrite Hw in Pwarn. exact Pwarn.
  - intros Hsucc. destruct o as [data|e|]; try discriminate;
      injection Hr as <-; [|cbn in Hsucc; discriminate].
    cbn [Script.recorded]. unfold Script.pipeline in E.
    bind_inv E as s1 st E1. bind_inv E as s2 u2 E2. bind_inv E as s3 f E3.
    bind_inv E as s4 u4 E4. bind_inv E as s5 u5 E5. bind_inv E as s6 u6 E6.
    now apply script_finish_done in E.
Qed.

End ScriptResult.

(** With a library whose repairs all raise, the run on the 10 mm cube
    still succeeds and its warnings open with the failed removal. *)
Lemma script_result_keeps_records_witness :
  exists r,
    @Script.optimize_mesh (Demo.library true true) Demo.all_defaults "stl" Demo.cube10
    = Some r /\
    original (Script.recorded r) <> None /\
    (Script.success r = true <-> Script.error r = None).
Proof.
  destruct (@Script.optimize_mesh (Demo.library true true) Demo.all_defaults "stl"
              Demo.cube10) as [r|] eqn:E; [|vm_compute in E; discriminate].
  exists r. split; [reflexivity|].
  destruct (@script_result_keeps_records (Demo.library true true) Demo.all_defaults
              "stl" Demo.cube10 r E) as (W1 & _ & _ & W4 & _).
  split; [|exact W1].
  destruct (W4 _ eq_refl) as (-> & _). discriminate.
Defined.

(** * One record for each repair *)

Ltac single_record_tac :=
  intros s s1 o;
  unfold bind, call, read, append_operation, append_warning;
  repeat (match goal with
          | |- context [let (_, _) := ?f ?m in _] => destruct (f m) as [? [[]|?]]
          | |- context [if ?b then _ else _] => destruct b
          end; cbn [mesh fst snd]);
  intros [= <- <-]; unfold records; cbn [operations warnings];
  rewrite ?length_app; cbn [length]; lia.

Section Records.
Context `{Trimesh}.

Lemma single_cloud_fill_holes : single_record CloudFn.fill_holes_body.
Proof. unfold single_record, CloudFn.fill_holes_body. single_record_tac. Qed.

Lemma single_cloud_fix_normals : single_record CloudFn.fix_normals_body.
Proof. unfold single_record, CloudFn.fix_normals_body. single_record_tac. Qed.

Lemma single_cloud_make_watertight : single_record CloudFn.make_watertight_body.
Proof. unfold single_record, CloudFn.make_watertight_body. single_record_tac. Qed.

Lemma single_script_remove_degenerate : single_record Script.remove_degenerate_body.
Proof. unfold single_record, Script.remove_degenerate_body. single_record_tac. Qed.

Lemma single_script_fill_holes : single_record Script.fill_holes_body.
Proof. unfold single_record, Script.fill_holes_body. single_record_tac. Qed.

Lemma single_script_fix_normals : single_record Script.fix_normals_body.
Proof. unfold single_record, Script.fix_normals_body. single_record_tac. Qed.

Lemma single_script_watertight : single_record Script.watertight_body.
Proof. unfold single_record, Script.watertight_body. single_record_tac. Qed.

Lemma guarded_records (b : bool) (body : stmt Run unit) (prefix : string) (s : Run) :
  single_record body ->
  exists s',
    when b (try_except body (fun e => append_warning (prefix ++ e))) s = (s', Done tt) /\
    records s' = (records s + Nat.b2n b)%nat.
Proof.
  intros Hb. destruct b; cbn [when Nat.b2n].
  - unfold try_except. specialize (Hb s).
    destruct (body s) as [s1 [[]|e|]]; specialize (Hb _ _ eq_refl); cbn in Hb.
    + exists s1. split; [reflexivity | lia].
    + eexists. split; [reflexivity|]. unfold records in *. cbn.
      rewrite length_app. cbn. lia.
    + destruct Hb.
  - exists s. split; [reflexivity | lia].
Qed.

(** X5.  Every repair that runs leaves exactly one record, a log entry
    when it went through or a warning when it did not.  The repair
    stage of the script always returns with one record for the removal
    of degenerate faces plus one for each of [fill_holes],
    [fix_normals], [make_watertight] that is on.  The repair stage of
    [main.py] always returns with one record for each of [fill_holes],
    [fix_normals] that is on, and one more at most for the watertight
    repair, none when [make_watertight] is off or the mesh is watertight
    when that block is reached. *)
Theorem repairs_leave_one_record (options : Options) (s : Run) :
  (exists s',
     Script.repair_stage options s = (s', Done tt) /\
     records s'
     = (records s + 1 + Nat.b2n (flag (opt_fill_holes options))
        + Nat.b2n (flag (opt_fix_normals options))
        + Nat.b2n (flag (opt_make_watertight options)))%nat) /\
  (exists s2 s',
     bind (CloudFn.fill_holes_block options)
          (fun _ => CloudFn.fix_normals_block options) s = (s2, Done tt) /\
     CloudFn.repair_stage options s = (s', Done tt) /\
     records s'
     = (records s + Nat.b2n (flag (opt_fill_holes options))
        + Nat.b2n (flag (opt_fix_normals options))
        + Nat.b2n (flag (opt_make_watertight options)
                   && negb (is_watertight (mesh s2))))%nat).
Proof.
  split.
  - unfold Script.repair_stage.
    destruct (guarded_records true _ "remove_degenerate_faces failed: " s
                single_script_remove_degenerate) as (s1 & E1 & R1).
    cbn [when] in E1. cbn [Nat.b2n] in R1.
    destruct (guarded_records (flag (opt_fill_holes options)) _ "fill_holes failed: "
                s1 single_script_fill_holes) as (s2 & E2 & R2).
    destruct (guarded_records (flag (opt_fix_normals options)) _ "fix_normals failed: "
                s2 single_script_fix_normals) as (s3 & E3 & R3).
    destruct (guarded_records (flag (opt_make_watertight options)) _
                "watertight_repair failed: " s3 single_script_watertight)
      as (s4 & E4 & R4).
    exists s4. split; [|lia].
    rewrite (bind_run _ _ _ _ _ E1), (bind_run _ _ _ _ _ E2), (bind_run _ _ _ _ _ E3).
    exact E4.
  - unfold CloudFn.repair_stage.
    destruct (guarded_records (flag (opt_fill_holes options)) _ "Fill holes failed: "
                s single_cloud_fill_holes) as (s1 & E1 & R1).
    destruct (guarded_records (flag (opt_fix_normals options)) _ "Fix normals failed: "
                s1 single_cloud_fix_normals) as (s2 & E2 & R2).
    destruct (guarded_records
                (flag (opt_make_watertight options) && negb (is_watertight (mesh s2)))
                _ "Watertight repair failed: " s2 single_cloud_make_watertight)
      as (s3 & E3 & R3).
    exists s2, s3. split; [|split; [|lia]].
    + rewrite (bind_run _ _ _ _ _ E1). exact E2.
    + rewrite (bind_run _ _ _ _ _ E1), (bind_run _ _ _ _ _ E2).
      unfold CloudFn.make_watertight_block, bind at 1, read. exact E3.
Qed.

End Records.

(** * Where a run can leave the rational model *)

Lemma settles_eval {A} (r : result A) : settles (@eval Run A r).
Proof. intros s. exists s. destruct r as [a|e]; [left; now exists a | right; now exists e]. Qed.

Lemma settles_compute {A} (f : Mesh -> result A) : settles (compute f).
Proof. intros s. apply settles_eval. Qed.

Lemma settles_raise {A} (e : string) : settles (@raise Run A e).
Proof. intros s. exists s. right. now exists e. Qed.

Lemma settles_update (f : Mesh -> Mesh) : settles (update f).
Proof. intros s. eexists. left. now exists tt. Qed.

Lemma settles_set_original (st : Stats) : settles (set_original st).
Proof. intros s. eexists. left. now exists tt. Qed.

Lemma settles_set_optimized (st : Stats) : settles (set_optimized st).
Proof. intros s. eexists. left. now exists tt. Qed.

Lemma settles_try {A} (body : stmt Run A) (handler : string -> stmt Run A) :
  settles body -> (forall e, settles (handler e)) -> settles (try_except body handler).
Proof.
  intros Hb Hh s. unfold try_except.
  destruct (Hb s) as [s1 [[a ->]|[e ->]]].
  - exists s1. left. now exists a.
  - apply Hh.
Qed.

Lemma settles_when (b : bool) (c : stmt Run unit) : settles c -> settles (when b c).
Proof. destruct b; [auto|]. intros _. apply settles_ret. Qed.

Ltac settle_step :=
  first
    [ apply settles_ret | apply settles_raise | apply settles_read
    | apply settles_eval | apply settles_compute | apply settles_update
    | apply settles_call | apply settles_append_operation
    | apply settles_append_warning | apply settles_set_original
    | apply settles_set_optimized | apply settles_when
    | apply settles_bind; [|intros ?]
    | apply settles_try; [|intros ?]
    | match goal with
      | |- settles (match ?x with _ => _ end) => destruct x
      | |- settles (if ?x then _ else _) => destruct x
      | |- settles (let _ := _ in _) => cbv zeta
      end ].

Ltac settle := repeat settle_step.

Lemma cloud_scaling_settles (options : Options) : settles (CloudFn.scaling_block options).
Proof. unfold CloudFn.scaling_block. settle. Qed.

Lemma cloud_pipeline_settles `{Trimesh} (options : Options) (fmt : string) :
  settles (CloudFn.pipeline options fmt).
Proof.
  unfold CloudFn.pipeline, CloudFn.repair_stage, CloudFn.transform_stage,
    CloudFn.finish, CloudFn.fill_holes_block, CloudFn.fix_normals_block,
    CloudFn.make_watertight_block, CloudFn.center_block, CloudFn.scaling_block,
    CloudFn.fill_holes_body, CloudFn.fix_normals_body, CloudFn.make_watertight_body,
    centre_and_ground.
  settle.
Qed.

Lemma bind_non_finite {A B} (c : stmt Run A) (k : A -> stmt Run B) (s s' : Run) :
  bind c k s = (s', NonFinite) ->
  c s = (s', NonFinite) \/ exists s0 a, c s = (s0, Done a) /\ k a s0 = (s', NonFinite).
Proof.
  unfold bind. destruct (c s) as [s0 [a|e|]]; intros E.
  - right. now exists s0, a.
  - discriminate.
  - left. now injection E as <-.
Qed.

Lemma divide_non_finite (a b : Q) (s s' : Run) :
  Script.divide a b s = (s', NonFinite) -> s' = s /\ b == 0.
Proof.
  unfold Script.divide. destruct (Qeq_bool b 0) eqn:E; [|discriminate].
  intros [= <-]. split; [reflexivity|]. now apply Qeq_bool_eq.
Qed.

Lemma size_ratio_non_finite (target : dict) (k : string) (x : Q) (s s' : Run) :
  Script.size_ratio target k x s = (s', NonFinite) -> s' = s /\ x == 0.
Proof.
  unfold Script.size_ratio. destruct (dict_get target k) as [t|]; [|discriminate].
  intros E. apply bind_non_finite in E as [E|(s0 & q & _ & E)]; [|discriminate].
  now apply divide_non_finite in E.
Qed.

Lemma size_ratio_pure (target : dict) (k : string) (x : Q) (s s' : Run) (l : list Q) :
  Script.size_ratio target k x s = (s', Done l) -> s' = s.
Proof. intros E. now apply size_ratio_done in E as [-> _]. Qed.

Lemma apply_target_size_non_finite (target : dict) (s s' : Run) :
  Script.apply_target_size target s = (s', NonFinite) ->
  s' = s /\ exists e, extents (mesh s) = Some e /\ (vx e == 0 \/ vy e == 0 \/ vz e == 0).
Proof.
  unfold Script.apply_target_size. intros E.
  apply bind_non_finite in E as [E|(s0 & b & E0 & E)]; [discriminate|].
  apply read_done in E0 as [-> ->]. unfold extents.
  destruct (bounds (mesh s)) as [[lo hi]|]; [|discriminate].
  apply bind_non_finite in E as [E|(s1 & sw & E1 & E)].
  { apply size_ratio_non_finite in E as [-> Hz]. split; [reflexivity|]. eauto. }
  apply size_ratio_pure in E1 as ->.
  apply bind_non_finite in E as [E|(s2 & sh & E2 & E)].
  { apply size_ratio_non_finite in E as [-> Hz]. split; [reflexivity|]. eauto. }
  apply size_ratio_pure in E2 as ->.
  apply bind_non_finite in E as [E|(s3 & sd & E3 & E)].
  { apply size_ratio_non_finite in E as [-> Hz]. split; [reflexivity|]. eauto 6. }
  apply size_ratio_pure in E3 as ->.
  destruct (sw ++ sh ++ sd); [discriminate|].
  apply bind_non_finite in E as [E|(s4 & u & _ & E)]; discriminate.
Qed.

Lemma fit_to_print_bed_non_finite (bed : dict) (s s' : Run) :
  Script.fit_to_print_bed bed s = (s', NonFinite) ->
  s' = s /\ exists e, extents (mesh s) = Some e /\ (vx e == 0 \/ vy e == 0 \/ vz e == 0).
Proof.
  unfold Script.fit_to_print_bed. intros E.
  apply bind_non_finite in E as [E|(s0 & b & E0 & E)]; [discriminate|].
  apply read_done in E0 as [-> ->]. unfold extents.
  destruct (bounds (mesh s)) as [[lo hi]|]; [|discriminate].
  apply bind_non_finite in E as [E|(s1 & bw & E1 & E)];
    [unfold eval in E; destruct (dict_item bed "width"); discriminate|].
  apply eval_done in E1 as [-> _].
  apply bind_non_finite in E as [E|(s2 & rw & E2 & E)].
  { apply divide_non_finite in E as [-> Hz]. split; [reflexivity|]. eauto. }
  apply divide_done in E2 as (-> & _ & _).
  apply bind_non_finite in E as [E|(s3 & bh & E3 & E)];
    [unfold eval in E; destruct (dict_item bed "height"); discriminate|].
  apply eval_done in E3 as [-> _].
  apply bind_non_finite in E as [E|(s4 & rh & E4 & E)].
  { apply divide_non_finite in E as [-> Hz]. split; [reflexivity|]. eauto. }
  apply divide_done in E4 as (-> & _ & _).
  apply bind_non_finite in E as [E|(s5 & bd & E5 & E)];
    [unfold eval in E; destruct (dict_item bed "depth"); discriminate|].
  apply eval_done in E5 as [-> _].
  apply bind_non_finite in E as [E|(s6 & rd & E6 & E)].
  { apply divide_non_finite in E as [-> Hz]. split; [reflexivity|]. eauto 6. }
  apply divide_done in E6 as (-> & _ & _).
  apply bind_non_finite in E as [E|(s7 & u & _ & E)]; discriminate.
Qed.



(** * Issues and recommendations go in pairs *)

Ltac pair_step :=
  cbn [negb issues recommendations score add_issue add_recommendation lose];
  rewrite ?length_app; cbn [length].

Section Pairs.
Context `{Trimesh}.

(** What one block adds: [k] issues and as many recommendations, for
    [d] points. *)
Lemma check_watertight_pairs (m : Mesh) (r : Report) :
  exists k d,
    (k <= 1)%nat /\ (0 <= d <= 2 * Z.of_nat k)%Z /\
    length (issues (CloudFn.check_watertight m r)) = (length (issues r) + k)%nat /\
    length (recommendations (CloudFn.check_watertight m r))
    = (length (recommendations r) + k)%nat /\
    score (CloudFn.check_watertight m r) = (score r - d)%Z.
Proof.
  unfold CloudFn.check_watertight. destruct (is_watertight m); pair_step.
  - exists 0%nat, 0%Z. repeat split; lia.
  - exists 1%nat, 2%Z. repeat split; lia.
Qed.

Lemma check_degenerate_pairs (m : Mesh) (r : Report) :
  exists k d,
    (k <= 1)%nat /\ (0 <= d <= Z.of_nat k)%Z /\
    length (issues (CloudFn.check_degenerate m r)) = (length (issues r) + k)%nat /\
    length (recommendations (CloudFn.check_degenerate m r))
    = (length (recommendations r) + k)%nat /\
    score (CloudFn.check_degenerate m r) = (score r - d)%Z.
Proof.
  unfold CloudFn.check_degenerate. destruct (0 <? _)%Z; pair_step.
  - exists 1%nat, 1%Z. repeat split; lia.
  - exists 0%nat, 0%Z. repeat split; lia.
Qed.

Lemma check_face_count_pairs (m : Mesh) (r : Report) :
  exists k d,
    (k <= 1)%nat /\ (0 <= d <= Z.of_nat k)%Z /\
    length (issues (CloudFn.check_face_count m r)) = (length (issues r) + k)%nat /\
    length (recommendations (CloudFn.check_face_count m r))
    = (length (recommendations r) + k)%nat /\
    score (CloudFn.check_face_count m r) = (score r - d)%Z.
Proof.
  unfold CloudFn.check_face_count.
  destruct (500000 <? _)%Z; [|destruct (_ <? 100)%Z]; pair_step.
  - exists 1%nat, 1%Z. repeat split; lia.
  - exists 1%nat, 1%Z. repeat split; lia.
  - exists 0%nat, 0%Z. repeat split; lia.
Qed.

Lemma check_normals_pairs (m : Mesh) (r : Report) :
  exists k d,
    (k <= 1)%nat /\ (0 <= d <= Z.of_nat k)%Z /\
    length (issues (CloudFn.check_normals m r)) = (length (issues r) + k)%nat /\
    length (recommendations (CloudFn.check_normals m r))
    = (length (recommendations r) + k)%nat /\
    score (CloudFn.check_normals m r) = (score r - d)%Z.
Proof.
  unfold CloudFn.check_normals. destruct (normals_allclose m) as [[|]|]; pair_step.
  - exists 0%nat, 0%Z. repeat split; lia.
  - exists 1%nat, 1%Z. repeat split; lia.
  - exists 0%nat, 0%Z. repeat split; lia.
Qed.

Lemma check_size_pairs (e : vec3) (r : Report) :
  exists k d,
    (k <= 2)%nat /\ (0 <= d <= Z.of_nat k)%Z /\
    length (issues (CloudFn.check_size e r)) = (length (issues r) + k)%nat /\
    length (recommendations (CloudFn.check_size e r))
    = (length (recommendations r) + k)%nat /\
    score (CloudFn.check_size e r) = (score r - d)%Z.
Proof.
  unfold CloudFn.check_size.
  destruct (Qlt_le_dec 300 (max3 e)); [|destruct (Qlt_le_dec (max3 e) 10)];
    destruct (Qlt_le_dec (min3 e) 1); pair_step.
  - exists 2%nat, 2%Z. repeat split; lia.
  - exists 1%nat, 1%Z. repeat split; lia.
  - exists 2%nat, 1%Z. repeat split; lia.
  - exists 1%nat, 0%Z. repeat split; lia.
  - exists 1%nat, 1%Z. repeat split; lia.
  - exists 0%nat, 0%Z. repeat split; lia.
Qed.

End Pairs.

(** X7.  Both versions of [analyze_mesh_issues] return lists of the
    same length: every issue has its recommendation.  [main.py] reports
    six issues at most and a report with [n] issues scores 4 - [n] at
    least; the script reports three issues at most. *)
Theorem issues_and_recommendations_parallel `{Trimesh} (m : Mesh) :
  (forall r, CloudFn.analyze_mesh_issues m = Ok r ->
     length (issues r) = length (recommendations r) /\
     (length (issues r) <= 6)%nat /\
     (4 - Z.of_nat (length (issues r)) <= score r)%Z) /\
  (length (fst (Script.analyze_mesh_issues m))
   = length (snd (Script.analyze_mesh_issues m)) /\
   (length (fst (Script.analyze_mesh_issues m)) <= 3)%nat).
Proof.
  split.
  - intros r. unfold CloudFn.analyze_mesh_issues, CloudFn.analyze_mesh_issues_raw.
    destruct (extents m) as [e|]; [|discriminate]. intros [= <-].
    cbn [issues recommendations score].
    set (r0 := mkReport [] [] 5).
    destruct (check_watertight_pairs m r0) as (k1 & d1 & K1 & D1 & I1 & R1 & S1).
    set (r1 := CloudFn.check_watertight m r0) in *.
    destruct (check_degenerate_pairs m r1) as (k2 & d2 & K2 & D2 & I2 & R2 & S2).
    set (r2 := CloudFn.check_degenerate m r1) in *.
    destruct (check_face_count_pairs m r2) as (k3 & d3 & K3 & D3 & I3 & R3 & S3).
    set (r3 := CloudFn.check_face_count m r2) in *.
    destruct (check_normals_pairs m r3) as (k4 & d4 & K4 & D4 & I4 & R4 & S4).
    set (r4 := CloudFn.check_normals m r3) in *.
    destruct (check_size_pairs e r4) as (k5 & d5 & K5 & D5 & I5 & R5 & S5).
    cbn [r0 issues recommendations score length] in I1, R1, S1.
    repeat split; lia.
  - unfold Script.analyze_mesh_issues.
    destruct (is_watertight m), (degenerate_faces m) as [n|];
      try destruct (0 <? n)%Z; destruct (500000 <? face_count m)%Z;
      cbn [negb issues recommendations add_issue add_recommendation app length fst snd];
      split; lia.
Qed.

Lemma issues_and_recommendations_parallel_witness :
  exists r,
    @CloudFn.analyze_mesh_issues Demo.poor (Demo.box 400 (1 # 2) 5) = Ok r /\
    length (issues r) = length (recommendations r).
Proof.
  destruct (@CloudFn.analyze_mesh_issues Demo.poor (Demo.box 400 (1 # 2) 5))
    as [r|] eqn:E; [|vm_compute in E; discriminate].
  exists r. split; [reflexivity|].
  destruct (@issues_and_recommendations_parallel Demo.poor (Demo.box 400 (1 # 2) 5))
    as [W _].
  now destruct (W r E) as (W1 & _).
Defined.

(** * A print bed that lacks a size *)

Lemma dict_item_missing (d : dict) (k : string) :
  d !! k = None -> dict_item d k = Raise ("'" ++ k ++ "'")%string.
Proof. unfold dict_item. now intros ->. Qed.

(** X8.  A print bed without one of its three sizes, on a mesh whose
    extents are all positive: in both versions the scaling raises the
    [KeyError] of the first size that is missing, in the order width,
    height, depth, and leaves the mesh and the logs as they were. *)
Theorem missing_bed_size_raises (options : Options) (bed : dict) (s : Run) (e : vec3)
    (before after : list string) (k : string) :
  ["width"; "height"; "depth"]%string = before ++ k :: after ->
  (forall k', In k' before -> exists b, bed !! k' = Some (Some b)) ->
  bed !! k = None ->
  extents (mesh s) = Some e ->
  0 < vx e -> 0 < vy e -> 0 < vz e ->
  Script.fit_to_print_bed bed s = (s, Raised ("'" ++ k ++ "'")%string) /\
  (CloudFn.present_dict (opt_target_size options) = None ->
   CloudFn.present_number (opt_uniform_scale options) = None ->
   opt_print_bed_size options = Some bed -> bed <> ∅ ->
   CloudFn.scaling_block options s = (s, Raised ("'" ++ k ++ "'")%string)).
Proof.
  intros Hsplit Hbefore Hk He Hx Hy Hz.
  assert (Hb : exists lo hi, bounds (mesh s) = Some (lo, hi) /\ e = vsub lo hi).
  { unfold extents in He. destruct (bounds (mesh s)) as [[lo hi]|]; [|discriminate].
    injection He as <-. now exists lo, hi. }
  destruct Hb as (lo & hi & Hb & ->).
  assert (Hcloud : forall r : result (Q * list Q),
            CloudFn.bed_scales bed (Some (vsub lo hi)) = r ->
            r = Raise ("'" ++ k ++ "'")%string ->
            CloudFn.present_dict (opt_target_size options) = None ->
            CloudFn.present_number (opt_uniform_scale options) = None ->
            opt_print_bed_size options = Some bed -> bed <> ∅ ->
            CloudFn.scaling_block options s = (s, Raised ("'" ++ k ++ "'")%string)).
  { intros r Hr -> Ht Hu Hbed Hne. unfold CloudFn.scaling_block.
    rewrite Ht, Hu, Hbed. unfold CloudFn.present_dict.
    assert (dict_truthy bed = true) as ->.
    { destruct (dict_truthy bed) eqn:E; [reflexivity|]. now apply dict_truthy_empty in E. }
    unfold bind at 1, read. rewrite He.
    unfold bind at 1, eval. now rewrite Hr. }
  destruct before as [|k1 [|k2 [|k3 before]]]; cbn [app] in Hsplit.
  - injection Hsplit as <- _. split.
    + unfold Script.fit_to_print_bed, bind at 1, read. rewrite Hb.
      unfold bind at 1, eval. now rewrite (dict_item_missing _ _ Hk).
    + apply (Hcloud _ eq_refl). unfold CloudFn.bed_scales, CloudFn.bed_ratio.
      destruct (Qlt_le_dec 0 (vx (vsub lo hi))); [|lra].
      now rewrite (dict_item_missing _ _ Hk).
  - injection Hsplit as <- <- _.
    destruct (Hbefore "width"%string ltac:(cbn; auto)) as [bw Hw]. split.
    + unfold Script.fit_to_print_bed, bind at 1, read. rewrite Hb.
      unfold bind at 1, eval. rewrite (dict_item_found _ _ _ Hw).
      unfold bind at 1. rewrite divide_run by lra.
      unfold bind at 1, eval. now rewrite (dict_item_missing _ _ Hk).
    + apply (Hcloud _ eq_refl). unfold CloudFn.bed_scales.
      rewrite (bed_ratio_run bed _ vx _ bw Hx Hw). unfold CloudFn.bed_ratio.
      destruct (Qlt_le_dec 0 (vy (vsub lo hi))); [|lra].
      now rewrite (dict_item_missing _ _ Hk).
  - injection Hsplit as <- <- <- _.
    destruct (Hbefore "width"%string ltac:(cbn; auto)) as [bw Hw].
    destruct (Hbefore "height"%string ltac:(cbn; auto)) as [bh Hh]. split.
    + unfold Script.fit_to_print_bed, bind at 1, read. rewrite Hb.
      unfold bind at 1, eval. rewrite (dict_item_found _ _ _ Hw).
      unfold bind at 1. rewrite divide_run by lra.
      unfold bind at 1, eval. rewrite (dict_item_found _ _ _ Hh).
      unfold bind at 1. rewrite divide_run by lra.
      unfold bind at 1, eval. now rewrite (dict_item_missing _ _ Hk).
    + apply (Hcloud _ eq_refl). unfold CloudFn.bed_scales.
      rewrite (bed_ratio_run bed _ vx _ bw Hx Hw), (bed_ratio_run bed _ vy _ bh Hy Hh).
      unfold CloudFn.bed_ratio.
      destruct (Qlt_le_dec 0 (vz (vsub lo hi))); [|lra].
      now rewrite (dict_item_missing _ _ Hk).
  - exfalso. injection Hsplit as _ _ _ Hnil. now destruct before.
Qed.

(** A bed with a width only, on the 10 mm cube: the height is missed. *)
Lemma missing_bed_size_raises_witness :
  Script.fit_to_print_bed (<["width"%string := Some 200]> ∅) (start Demo.cube10)
  = (start Demo.cube10, Raised "'height'").
Proof.
  apply (missing_bed_size_raises Demo.all_defaults
           (<["width"%string := Some 200]> ∅) (start Demo.cube10) (mkVec 10 10 10)
           ["width"%string] ["depth"%string] "height"%string);
    [reflexivity | | reflexivity | reflexivity | reflexivity | reflexivity | reflexivity].
  intros k' [<-|[]]. exists 200. reflexivity.
Defined.

(** * Mesh statistics *)

(** X9.  The two versions of [get_mesh_stats].  The script's returns
    statistics exactly for a mesh that has vertices.  Whenever that of
    [main.py] returns, the script's returns the same statistics; they
    part only on a watertight mesh whose volume raises, where [main.py]
    raises and the script reports no volume.  In the statistics the
    bounding box is never negative, the watertight flag is the
    library's, and a volume is reported only for a watertight mesh. *)
Theorem mesh_stats_agree `{Trimesh} (m : Mesh) :
  (vertices m <> [] <-> exists st, Script.get_mesh_stats m = Ok st) /\
  (forall st, CloudFn.get_mesh_stats m = Ok st -> Script.get_mesh_stats m = Ok st) /\
  (forall st, Script.get_mesh_stats m = Ok st ->
     watertight_of st = is_watertight m /\
     (volume_of st <> None -> is_watertight m = true) /\
     (0 <= vx (bounding_box st) /\ 0 <= vy (bounding_box st) /\
      0 <= vz (bounding_box st)) /\
     extents m = Some (bounding_box st) /\
     (0 < vertex_count_of st)%Z /\
     (CloudFn.get_mesh_stats m = Ok st \/
      exists e, is_watertight m = true /\ volume m = Raise e /\
                CloudFn.get_mesh_stats m = Raise e)).
Proof.
  split; [|split].
  - unfold Script.get_mesh_stats, bounds. split.
    + intros Hv. destruct (vertices m) as [|v vs]; [congruence|]. now eexists.
    + intros [st Hst]. destruct (vertices m); [discriminate | discriminate].
  - intros st. unfold CloudFn.get_mesh_stats, Script.get_mesh_stats.
    destruct (bounds m) as [[lo hi]|]; [|discriminate].
    destruct (is_watertight m); [destruct (volume m)|]; congruence.
  - intros st Hst. pose proof Hst as Hst'.
    unfold Script.get_mesh_stats in Hst.
    destruct (bounds m) as [[lo hi]|] eqn:Hb; [|discriminate].
    injection Hst as <-. cbn [watertight_of volume_of bounding_box vertex_count_of].
    assert (He : extents m = Some (vsub lo hi)) by (unfold extents; now rewrite Hb).
    split; [reflexivity|]. split.
    { destruct (is_watertight m); [reflexivity | congruence]. }
    split; [apply (extents_nonneg _ _ He)|]. split; [exact He|]. split.
    { unfold vertex_count. unfold bounds in Hb.
      destruct (vertices m); [discriminate|]. cbn [length]. lia. }
    unfold CloudFn.get_mesh_stats. rewrite Hb.
    destruct (is_watertight m); [|now left].
    destruct (volume m) as [v|e]; [now left|]. right. now exists e.
Qed.

Lemma mesh_stats_agree_witness :
  exists st, @Script.get_mesh_stats (Demo.library true false) Demo.cube10 = Ok st.
Proof.
  apply (@mesh_stats_agree (Demo.library true false) Demo.cube10). discriminate.
Defined.

(** * The watertight repair of main.py *)

(** X10.  The watertight block of [main.py].  With [make_watertight]
    off, or on a mesh that is watertight already, it does nothing: no
    library call, no record.  Otherwise it returns with exactly one of
    three records: the entry "make_watertight", and then the mesh is
    watertight; the warning "Could not make mesh fully watertight", and
    then it is not; or the warning of a repair that raised. *)
Theorem make_watertight_block_result `{Trimesh} (options : Options) (s : Run) :
  (flag (opt_make_watertight options) = false \/ is_watertight (mesh s) = true ->
   CloudFn.make_watertight_block options s = (s, Done tt)) /\
  (flag (opt_make_watertight options) = true -> is_watertight (mesh s) = false ->
   exists s',
     CloudFn.make_watertight_block options s = (s', Done tt) /\
     ((operations s' = operations s ++ [lit "make_watertight"] /\
       warnings s' = warnings s /\ is_watertight (mesh s') = true) \/
      (operations s' = operations s /\
       warnings s' = warnings s ++ ["Could not make mesh fully watertight"%string] /\
       is_watertight (mesh s') = false) \/
      (exists e, operations s' = operations s /\
                 warnings s' = warnings s ++ ["Watertight repair failed: " ++ e]%string))).
Proof.
  split.
  - intros Hoff. unfold CloudFn.make_watertight_block, bind, read.
    destruct Hoff as [-> | ->]; [reflexivity|]. now rewrite andb_false_r.
  - intros Hon Hopen. unfold CloudFn.make_watertight_block, bind at 1, read.
    rewrite Hon, Hopen. cbn [andb negb when].
    unfold try_except, CloudFn.make_watertight_body, bind, call, read.
    destruct (fix_winding (mesh s)) as [m1 [[]|e1]]; cbn [mesh].
    + destruct (fill_holes m1) as [m2 [[]|e2]]; cbn [mesh].
      * destruct (is_watertight m2) eqn:Ew; eexists; (split; [reflexivity|]);
          cbn [operations warnings mesh]; auto.
      * eexists. split; [reflexivity|]. right. right. exists e2. auto.
    + eexists. split; [reflexivity|]. right. right. exists e1. auto.
Qed.

Lemma make_watertight_block_result_witness :
  exists s',
    @CloudFn.make_watertight_block (Demo.library false false) Demo.all_defaults
      (start Demo.cube10) = (s', Done tt) /\
    warnings s' = ["Could not make mesh fully watertight"%string].
Proof.
  destruct (@make_watertight_block_result (Demo.library false false)
              Demo.all_defaults (start Demo.cube10)) as [_ W].
  destruct (W eq_refl eq_refl) as (s' & E & [(_ & _ & C)|[(_ & Hw & _)|(e & _ & Hw)]]).
  - discriminate C.
  - exists s'. split; [exact E | exact Hw].
  - exists s'. split; [exact E|]. vm_compute in E.
    injection E as <-. reflexivity.
Defined.

(** * Scaling and centring in either order *)

Lemma bounds_apply_scale (f : Q) (m : Mesh) (lo hi : vec3) :
  0 <= f -> bounds m = Some (lo, hi) ->
  exists lo' hi', bounds (apply_scale f m) = Some (lo', hi') /\
                  veq lo' (vscale f lo) /\ veq hi' (vscale f hi).
Proof.
  intros Hf. unfold bounds, apply_scale. cbn [vertices].
  destruct (vertices m) as [|v vs]; [discriminate|].
  intros [= <- <-]. cbn [map]. eexists _, _. split; [reflexivity|].
  destruct (map_axis_vscale f vs) as (-> & -> & ->).
  unfold veq. cbn [vscale vx vy vz].
  rewrite !qmin_list_scale, !qmax_list_scale by exact Hf.
  repeat split; reflexivity.
Qed.

Lemma Forall2_map_pointwise (g1 g2 : vec3 -> vec3) (vs : list vec3) :
  (forall v, veq (g1 v) (g2 v)) -> Forall2 veq (map g1 vs) (map g2 vs).
Proof.
  intros Hg. induction vs as [|v vs IH]; cbn [map]; constructor; auto.
Qed.

(** X11.  With a positive [uniform_scale], no target size and
    [center_mesh] on, the two orders give the same mesh: when the
    library's centroid of the scaled mesh is the scaled centroid, the
    transform stage of the script (scale, then centre) and that of
    [main.py] (centre, then scale) both return on a mesh that has
    vertices, and their meshes have the same faces and, vertex by
    vertex, equal coordinates. *)
Theorem scale_and_centre_commute `{Trimesh} (options : Options) (s : Run)
    (e : vec3) (f : Q) :
  flag (opt_center_mesh options) = true ->
  opt_target_size options = None ->
  opt_uniform_scale options = Some f ->
  0 < f ->
  extents (mesh s) = Some e ->
  veq (centroid (apply_scale f (mesh s))) (vscale f (centroid (mesh s))) ->
  exists s1 s2,
    Script.transform_stage options s = (s1, Done tt) /\
    CloudFn.transform_stage options s = (s2, Done tt) /\
    same_shape (mesh s1) (mesh s2).
Proof.
  intros Hc Ht Hu Hf He (Cx & Cy & Cz).
  assert (Hb : exists lo hi, bounds (mesh s) = Some (lo, hi)).
  { unfold extents in He. destruct (bounds (mesh s)) as [[lo hi]|]; [|discriminate].
    now exists lo, hi. }
  destruct Hb as (lo & hi & Hb).
  set (m := mesh s) in *.
  set (c0 := centroid m) in *. set (c1 := centroid (apply_scale f m)) in *.
  destruct (bounds_apply_scale f m lo hi ltac:(lra) Hb)
    as (lo_s & hi_s & Hbs & (Sx & Sy & Sz) & _).
  destruct (bounds_translate c1 _ _ _ Hbs) as (lo1 & hi1 & Hb1 & (_ & _ & L1) & _).
  destruct (bounds_translate c0 _ _ _ Hb) as (lo0 & hi0 & Hb0 & (_ & _ & L0) & _).
  cbn [vsub vscale vx vy vz] in *.
  assert (Hnum : num_truthy f = true).
  { destruct (num_truthy f) eqn:E; [reflexivity|]. apply num_truthy_false in E. lra. }
  eexists _, _. split; [|split].
  - unfold Script.transform_stage, Script.scaling_block, Script.center_block,
      Script.center_mesh, Script.target_requested.
    rewrite Ht, Hu, Hc. cbn [when].
    unfold centre_and_ground, bind, update, append_operation, read.
    cbn [mesh fst]. fold m. fold c1. rewrite Hb1. reflexivity.
  - unfold CloudFn.transform_stage, CloudFn.scaling_block, CloudFn.center_block,
      CloudFn.present_dict, CloudFn.present_number.
    rewrite Ht, Hu, Hc, Hnum. cbn [when].
    unfold centre_and_ground, bind, update, append_operation, read.
    cbn [mesh fst]. fold m. fold c0. rewrite Hb0. reflexivity.
  - unfold same_shape. cbn [mesh vertices faces lower_z translate apply_scale].
    split; [|reflexivity].
    rewrite !map_map. apply Forall2_map_pointwise.
    intros v. unfold veq. cbn [vlower vsub vscale vx vy vz].
    rewrite L1, L0, Sz, Cx, Cy, Cz. cbn [vscale vx vy vz].
    repeat split; ring.
Qed.

(** The 10 x 20 x 30 mm box scaled by 2, with the mean of the vertices
    as centroid. *)
Lemma scale_and_centre_commute_witness :
  exists s1 s2,
    @Script.transform_stage (Demo.library true false)
      (mkOptions None None None None None (Some 2) None) (start (Demo.box 10 20 30))
    = (s1, Done tt) /\
    @CloudFn.transform_stage (Demo.library true false)
      (mkOptions None None None None None (Some 2) None) (start (Demo.box 10 20 30))
    = (s2, Done tt) /\
    same_shape (mesh s1) (mesh s2).
Proof.
  apply (@scale_and_centre_commute (Demo.library true false)
           (mkOptions None None None None None (Some 2) None)
           (start (Demo.box 10 20 30)) (mkVec 10 20 30) 2);
    [reflexivity | reflexivity | reflexivity | reflexivity | reflexivity |].
  vm_compute. repeat split; reflexivity.
Defined.

(** * Everything switched off *)

(** X12.  [main.py] with the four flags off and no scaling option in
    force calls no repair and moves nothing: the answer is that of the
    statistics and of the export of the mesh as it was loaded, the two
    statistics are the same and both logs are empty. *)
Theorem cloud_all_off_exports_untouched `{Trimesh} (options : Options)
    (fmt : string) (m : Mesh) :
  flag (opt_fill_holes options) = false ->
  flag (opt_fix_normals options) = false ->
  flag (opt_make_watertight options) = false ->
  flag (opt_center_mesh options) = false ->
  (forall d, opt_target_size options = Some d -> d = ∅) ->
  (forall f, opt_uniform_scale options = Some f -> f == 0) ->
  (forall d, opt_print_bed_size options = Some d -> d = ∅) ->
  CloudFn.trimesh_optimize options fmt m
  = match CloudFn.get_mesh_stats m with
    | Raise e => Failure e
    | Ok st =>
        match export m fmt None with
        | Raise e => Failure e
        | Ok data =>
            Success (mkOptimized data (mkRun m (Some st) (Some st) [] [] [] []) fmt)
        end
    end.
Proof.
  intros H1 H2 H3 H4 Ht Hu Hb.
  assert (Hscale : forall s, CloudFn.scaling_block options s = (s, Done tt)).
  { intros s. unfold CloudFn.scaling_block.
    assert (Hnone : forall o : option dict,
              (forall d, o = Some d -> d = ∅) -> CloudFn.present_dict o = None).
    { intros [d|] Hd; [|reflexivity]. unfold CloudFn.present_dict.
      now rewrite (proj2 (dict_truthy_empty d) (Hd d eq_refl)). }
    rewrite (Hnone _ Ht), (Hnone _ Hb).
    destruct (opt_uniform_scale options) as [f|]; [|reflexivity].
    unfold CloudFn.present_number.
    now rewrite (proj2 (num_truthy_false f) (Hu f eq_refl)). }
  assert (Hrep : forall s, CloudFn.repair_stage options s = (s, Done tt)).
  { intros s. unfold CloudFn.repair_stage, CloudFn.fill_holes_block,
      CloudFn.fix_normals_block, CloudFn.make_watertight_block.
    rewrite H1, H2, H3. reflexivity. }
  assert (Htr : forall s, CloudFn.transform_stage options s = (s, Done tt)).
  { intros s. unfold CloudFn.transform_stage, CloudFn.center_block.
    rewrite H4. cbn [when]. unfold bind, ret. apply Hscale. }
  unfold CloudFn.trimesh_optimize, CloudFn.pipeline.
  destruct (CloudFn.get_mesh_stats m) as [st|e] eqn:Hst.
  - assert (E1 : compute CloudFn.get_mesh_stats (start m) = (start m, Done st))
      by (unfold compute, eval; cbn [start mesh]; now rewrite Hst).
    rewrite (bind_run _ _ _ _ _ E1).
    set (s1 := mkRun m (Some st) None [] [] [] []).
    assert (E2 : set_original st (start m) = (s1, Done tt)) by reflexivity.
    rewrite (bind_run _ _ _ _ _ E2), (bind_run _ _ _ _ _ (Hrep s1)),
      (bind_run _ _ _ _ _ (Htr s1)).
    unfold CloudFn.finish, bind, compute, eval, set_optimized. cbn [s1 mesh].
    rewrite Hst. cbn [mesh]. destruct (export m fmt None); reflexivity.
  - unfold bind, compute, eval. cbn [start mesh]. now rewrite Hst.
Qed.

Lemma cloud_all_off_exports_untouched_witness :
  exists st,
    @CloudFn.trimesh_optimize (Demo.library true true)
      (mkOptions (Some false) (Some false) (Some false) (Some false) None None None)
      "glb" Demo.cube10
    = Success (mkOptimized "payload"
                 (mkRun Demo.cube10 (Some st) (Some st) [] [] [] []) "glb").
Proof.
  rewrite (@cloud_all_off_exports_untouched (Demo.library true true));
    try reflexivity; try discriminate.
  eexists. reflexivity.
Defined.

(** * The HTTP handlers *)

Lemma cloud_optimize_followed `{Trimesh} (options : Options) (fmt : string) (m : Mesh) :
  CloudFn.trimesh_optimize options fmt m <> Unfollowed.
Proof.
  unfold CloudFn.trimesh_optimize.
  destruct (cloud_pipeline_settles options fmt (start m)) as [s1 [[a ->]|[e ->]]];
    discriminate.
Qed.

Lemma cloud_analyze_followed `{Trimesh} (m : Mesh) :
  CloudFn.trimesh_analyze m <> Unfollowed.
Proof.
  unfold CloudFn.trimesh_analyze.
  destruct (CloudFn.get_mesh_stats m); [|discriminate].
  destruct (CloudFn.analyze_mesh_issues m); discriminate.
Qed.

Section Handlers.
Context `{Trimesh} `{Transport}.

(** a reply built from a pipeline that is always followed: an answer
    or a 500 *)
Lemma reply_refuses_500 {A} (r : Response A) :
  r <> Unfollowed ->
  Endpoint.reply r <> Endpoint.Lost /\
  forall status e, Endpoint.reply r = Endpoint.Refuse status e -> status = 500%Z.
Proof.
  intros Hr. destruct r; cbn; [split | split | congruence];
    try discriminate; intros status e' [= <- _]; reflexivity.
Qed.

Lemma with_mesh_refuses {A} (content : string) (k : Mesh -> Endpoint.Reply A) :
  (forall m, k m <> Endpoint.Lost /\
             forall status e, k m = Endpoint.Refuse status e -> status = 500%Z) ->
  Endpoint.with_mesh content k <> Endpoint.Lost /\
  forall status e,
    Endpoint.with_mesh content k = Endpoint.Refuse status e ->
    status = 500%Z \/ (status = 400%Z /\ e = "No mesh geometry found"%string).
Proof.
  intros Hk. unfold Endpoint.with_mesh.
  destruct (load content) as [[m|dumped geometry]|e0].
  - destruct (Hk m) as [H1 H2]. split; [exact H1|]. intros status e E. left. eauto.
  - destruct dumped as [|m0 dumped].
    + split; [discriminate|]. intros status e [= <- <-]. right. auto.
    + destruct (concatenate (m0 :: dumped)) as [m|e1].
      * destruct (Hk m) as [H1 H2]. split; [exact H1|]. intros status e E. left. eauto.
      * split; [discriminate|]. intros status e [= <- _]. now left.
  - split; [discriminate|]. intros status e [= <- _]. now left.
Qed.


(** X14.  What each handler needs in the request.  [trimesh_optimize]
    takes the mesh from [file_data] only: without it the request is
    turned down with status 400 before anything is decoded or loaded,
    also when it brings a [file_url].  [trimesh_analyze] takes
    [file_data] when it is there and then never looks at [file_url];
    it downloads from [file_url] only when [file_data] is absent. *)
Theorem handler_inputs (body : Endpoint.Body) :
  (Endpoint.file_data body = None ->
   Endpoint.trimesh_optimize (Ok (Some body))
   = Endpoint.Refuse 400
       (if Endpoint.truthy (Some body) then "No file_data provided"
        else "No JSON data provided")%string) /\
  (forall text url,
     Endpoint.file_data body = Some text ->
     Endpoint.trimesh_analyze (Ok (Some body))
     = Endpoint.trimesh_analyze
         (Ok (Some (Endpoint.mkBody (Some text) url (Endpoint.options body)
                      (Endpoint.output_format body) (Endpoint.other_keys body))))) /\
  (forall url,
     Endpoint.file_data body = None -> Endpoint.file_url body = Some url ->
     Endpoint.trimesh_analyze (Ok (Some body))
     = match urlretrieve url with
       | Raise e => Endpoint.Refuse 500 e
       | Ok content =>
           Endpoint.with_mesh content
             (fun m => Endpoint.reply (CloudFn.trimesh_analyze m))
       end).
Proof.
  split; [|split].
  - intros Hd. unfold Endpoint.trimesh_optimize. rewrite Hd.
    destruct (Endpoint.truthy (Some body)); reflexivity.
  - intros text url Hd. unfold Endpoint.trimesh_analyze, Endpoint.truthy.
    cbn [Endpoint.file_data Endpoint.file_url Endpoint.options
         Endpoint.output_format Endpoint.other_keys].
    rewrite Hd. reflexivity.
  - intros url Hd Hu. unfold Endpoint.trimesh_analyze, Endpoint.truthy.
    rewrite Hd, Hu. reflexivity.
Qed.

End Handlers.


Lemma handler_inputs_witness :
  @Endpoint.trimesh_optimize (Demo.library true false) Sample.transport
    (Ok (Some (Sample.body_with None (Some "http://example/cube.glb"%string))))
  = Endpoint.Refuse 400 "No file_data provided".
Proof.
  apply (@handler_inputs (Demo.library true false) Sample.transport
           (Sample.body_with None (Some "http://example/cube.glb"%string))).
  reflexivity.
Defined.

(** * The command line *)

(** X15.  The exit status of the script is 0 exactly when what it
    printed has [success: true], and 1 otherwise.  Without an input
    path it prints the usage and exits with 1; with an input path
    alone it only analyses; options that do not parse end the process
    with status 1 before anything is loaded. *)
Theorem cli_exit_status `{Trimesh} `{Transport} (argv : list string)
    (p : Cli.Printed) (code : Z) :
  Cli.main argv = Some (p, code) ->
  (code = if printed_success p then 0%Z else 1%Z) /\
  ((length argv < 2)%nat -> p = Cli.Usage) /\
  (length argv = 2%nat -> exists r, p = Cli.AnalysisPrinted r) /\
  (forall script input output text rest e,
     argv = script :: input :: output :: text :: rest -> loads text = Raise e ->
     p = Cli.Traceback e).
Proof.
  intros E. unfold Cli.main in E.
  destruct argv as [|script [|input [|output rest]]].
  - injection E as <- <-. repeat split; try (cbn; intros; lia); discriminate.
  - injection E as <- <-. repeat split; try (cbn; intros; lia); discriminate.
  - injection E as <- <-. split; [|split; [|split]].
    + cbn. destruct (Cli.analyze_only input); reflexivity.
    + cbn. lia.
    + intros _. now eexists.
    + discriminate.
  - assert (Hcode : code = if printed_success p then 0%Z else 1%Z).
    { destruct rest as [|text rest].
      - destruct (Cli.optimize_mesh input output no_options) as [o|]; [|discriminate].
        injection E as <- <-. cbn. reflexivity.
      - destruct (loads text) as [options|e]; [|injection E as <- <-; reflexivity].
        destruct (Cli.optimize_mesh input output options) as [o|]; [|discriminate].
        injection E as <- <-. cbn. reflexivity. }
    split; [exact Hcode|]. split; [cbn; lia|]. split; [cbn; lia|].
    intros script' input' output' text rest' e [= -> -> -> ->] He.
    rewrite He in E. now injection E as <- _.
Qed.

Lemma cli_exit_status_witness :
  exists p,
    @Cli.main (Demo.library true false) Sample.transport
      ["trimesh_optimize.py"; "cube"; "out.STL"]%string = Some (p, 0%Z) /\
    printed_success p = true.
Proof.
  destruct (@Cli.main (Demo.library true false) Sample.transport
              ["trimesh_optimize.py"; "cube"; "out.STL"]%string)
    as [[p code]|] eqn:E; [|vm_compute in E; discriminate].
  assert (Hc : code = 0%Z).
  { pose proof E as E'. vm_compute in E'. now injection E' as _ <-. }
  pose proof (@cli_exit_status (Demo.library true false) Sample.transport _ p code E)
    as [W _].
  exists p. split; [now rewrite Hc|].
  destruct (printed_success p); [reflexivity | congruence].
Defined.

(** * The extension of the output path *)

Lemma lower_ascii_dot (c : Ascii.ascii) :
  Ascii.eqb (Cli.lower_ascii c) Cli.dot = Ascii.eqb c Cli.dot.
Proof. destruct c as [[] [] [] [] [] [] [] []]; reflexivity. Qed.

Lemma string_app_cons (c : Ascii.ascii) (a b : string) :
  String.append (String c a) b = String c (String.append a b).
Proof. reflexivity. Qed.

Lemma string_app_empty (b : string) : String.append EmptyString b = b.
Proof. reflexivity. Qed.

Lemma lower_app (a b : string) :
  Cli.lower (String.append a b) = String.append (Cli.lower a) (Cli.lower b).
Proof.
  induction a as [|c a IH]; [reflexivity|].
  rewrite string_app_cons. cbn [Cli.lower]. now rewrite IH, string_app_cons.
Qed.

Lemma has_dot_lower (s : string) : has_dot (Cli.lower s) = has_dot s.
Proof.
  induction s as [|c s IH]; cbn [Cli.lower has_dot]; [reflexivity|].
  now rewrite lower_ascii_dot, IH.
Qed.

Lemma string_app_assoc (a b c : string) :
  String.append (String.append a b) c = String.append a (String.append b c).
Proof.
  induction a as [|x a IH]; [reflexivity|].
  now rewrite !string_app_cons, IH.
Qed.

Lemma string_app_nil (a : string) : String.append a EmptyString = a.
Proof.
  induction a as [|x a IH]; [reflexivity|]. now rewrite string_app_cons, IH.
Qed.

Lemma last_segment_dotless (acc s : string) :
  has_dot s = false -> Cli.last_segment acc s = String.append acc s.
Proof.
  revert acc. induction s as [|c s IH]; intros acc; cbn [Cli.last_segment has_dot].
  - intros _. now rewrite string_app_nil.
  - destruct (Ascii.eqb c Cli.dot); [discriminate|]. cbn [orb]. intros Hs.
    rewrite (IH _ Hs). apply string_app_assoc.
Qed.

Lemma last_segment_after_dot (acc a b : string) :
  Cli.last_segment acc (String.append a (String Cli.dot b))
  = Cli.last_segment EmptyString b.
Proof.
  revert acc. induction a as [|c a IH]; intros acc.
  - rewrite string_app_empty. cbn [Cli.last_segment]. now rewrite Ascii.eqb_refl.
  - rewrite string_app_cons. cbn [Cli.last_segment].
    destruct (Ascii.eqb c Cli.dot); apply IH.
Qed.

Lemma has_dot_app (a b : string) :
  has_dot (String.append a b) = has_dot a || has_dot b.
Proof.
  induction a as [|x a IH]; [reflexivity|].
  rewrite string_app_cons. cbn [has_dot]. now rewrite IH, orb_assoc.
Qed.

Lemma last_segment_no_dot (acc s : string) :
  has_dot acc = false -> has_dot (Cli.last_segment acc s) = false.
Proof.
  revert acc. induction s as [|c s IH]; intros acc Hacc; cbn [Cli.last_segment];
    [exact Hacc|].
  destruct (Ascii.eqb c Cli.dot) eqn:Ec; [now apply IH|].
  apply IH. rewrite has_dot_app, Hacc. cbn [has_dot orb]. now rewrite Ec.
Qed.

(** X16.  The output format of the script is the text after the last
    dot of the output path, in lower case: for a path that ends in a
    dot and a dotless [ext], it is [ext] lowered, whatever comes before.
    It never holds a dot, and for a path without any dot it is the
    whole path, lowered. *)
Theorem output_ext_is_lowered_suffix (path ext : string) :
  has_dot (Cli.output_ext path) = false /\
  (has_dot ext = false ->
   Cli.output_ext (String.append path (String Cli.dot ext)) = Cli.lower ext) /\
  (has_dot path = false -> Cli.output_ext path = Cli.lower path).
Proof.
  unfold Cli.output_ext. split; [|split].
  - now apply last_segment_no_dot.
  - intros He. rewrite lower_app. cbn [Cli.lower].
    assert (Cli.lower_ascii Cli.dot = Cli.dot) as -> by reflexivity.
    rewrite last_segment_after_dot. apply last_segment_dotless.
    now rewrite has_dot_lower.
  - intros Hp. apply last_segment_dotless. now rewrite has_dot_lower.
Qed.

Lemma output_ext_is_lowered_suffix_witness :
  Cli.output_ext "models/v1.2/Part.STL" = "stl"%string.
Proof.
  apply (output_ext_is_lowered_suffix "models/v1.2/Part" "STL"). reflexivity.
Defined.

(** * Scaling again *)

Lemma fit_to_print_bed_run (bed : dict) (s : Run) (lo hi : vec3) (bw bh bd : Q) :
  bounds (mesh s) = Some (lo, hi) ->
  ~ vx (vsub lo hi) == 0 -> ~ vy (vsub lo hi) == 0 -> ~ vz (vsub lo hi) == 0 ->
  bed !! "width"%string = Some (Some bw) ->
  bed !! "height"%string = Some (Some bh) ->
  bed !! "depth"%string = Some (Some bd) ->
  Script.fit_to_print_bed bed s
  = (scaled (qmin_list (bw / vx (vsub lo hi))
               [bh / vy (vsub lo hi); bd / vz (vsub lo hi)] * margin) s,
     Done (qmin_list (bw / vx (vsub lo hi))
             [bh / vy (vsub lo hi); bd / vz (vsub lo hi)] * margin)).
Proof.
  intros Hb Hx Hy Hz Hw Hh Hd.
  unfold Script.fit_to_print_bed. unfold bind at 1, read. rewrite Hb.
  unfold bind at 1, eval. rewrite (dict_item_found _ _ _ Hw).
  unfold bind at 1. rewrite divide_run by exact Hx.
  unfold bind at 1, eval. rewrite (dict_item_found _ _ _ Hh).
  unfold bind at 1. rewrite divide_run by exact Hy.
  unfold bind at 1, eval. rewrite (dict_item_found _ _ _ Hd).
  unfold bind at 1. rewrite divide_run by exact Hz.
  reflexivity.
Qed.

Lemma bounds_of_extents (m : Mesh) (e : vec3) :
  extents m = Some e -> exists lo hi, bounds m = Some (lo, hi) /\ e = vsub lo hi.
Proof.
  unfold extents. destruct (bounds m) as [[lo hi]|]; [|discriminate].
  intros [= <-]. now exists lo, hi.
Qed.





(** * A scale of zero *)

(** X19.  A [uniform_scale] of 0 (no target size in force) is a scale
    for the script and no scale for [main.py].  The script applies it:
    every vertex lands on the origin and every extent becomes 0, with
    the entry "uniform_scale:" in the log.  [main.py] takes the zero as
    an absent option: without a print bed the mesh and the log stay as
    they are. *)
Theorem zero_uniform_scale (options : Options) (s : Run) (e : vec3) (f : Q) :
  extents (mesh s) = Some e ->
  opt_uniform_scale options = Some f -> f == 0 ->
  (Script.target_requested (opt_target_size options) = None ->
   exists e',
     Script.scaling_block options s
     = (logged [Str "uniform_scale:"; FmtQ "" f] (scaled f s), Done tt) /\
     extents (mesh (scaled f s)) = Some e' /\
     veq e' (mkVec 0 0 0) /\
     Forall (fun v => veq v (mkVec 0 0 0)) (vertices (mesh (scaled f s)))) /\
  (CloudFn.present_dict (opt_target_size options) = None ->
   CloudFn.present_dict (opt_print_bed_size options) = None ->
   CloudFn.scaling_block options s = (s, Done tt)).
Proof.
  intros He Hu Hf. split.
  - intros Ht. destruct (extents_apply_scale f (mesh s) e) as (e' & He' & Ex & Ey & Ez);
      [lra | exact He |].
    exists e'. split; [|split; [exact He'|split]].
    + unfold Script.scaling_block. rewrite Ht, Hu. reflexivity.
    + unfold veq. cbn [vx vy vz]. rewrite Ex, Ey, Ez, Hf. repeat split; ring.
    + cbn [scaled update fst mesh apply_scale vertices].
      induction (vertices (mesh s)) as [|w l IH]; cbn [map]; constructor;
        [|exact IH].
      unfold veq. cbn [vscale vx vy vz]. rewrite Hf. repeat split; ring.
  - intros Ht Hb. unfold CloudFn.scaling_block. rewrite Ht, Hu, Hb.
    unfold CloudFn.present_number.
    now rewrite (proj2 (num_truthy_false f) Hf).
Qed.

Lemma zero_uniform_scale_witness :
  exists e',
    extents (mesh (scaled 0 (start Demo.cube10))) = Some e' /\ veq e' (mkVec 0 0 0).
Proof.
  destruct (zero_uniform_scale (mkOptions None None None None None (Some 0) None)
              (start Demo.cube10) (mkVec 10 10 10) 0 eq_refl eq_refl eq_refl)
    as [W _].
  destruct (W eq_refl) as (e' & _ & He' & Hz & _).
  exists e'. split; [exact He' | exact Hz].
Defined.
